(** * PG-Weather: the Skew-T Log-P diagram core

    A shallow embedding of [skewt.js] (class [SkewTDiagram]), of the zoom,
    hover and read-out methods of [SoundingApp] from [app.js], and of the
    line scanner and row parser of [dataParser.js].

    JavaScript numbers are modelled as exact reals extended with [NaN],
    [+Infinity] and [-Infinity]: comparisons with [NaN] are false, [NaN]
    propagates through arithmetic, [0/0] and [Infinity - Infinity] are [NaN].
    Rounding, overflow and the sign of zero are not modelled: a value in a
    statement is the expression the code evaluates, taken exactly.  The
    further properties keep to what rounding preserves: orderings are
    non-strict, and a loop is said to end only for magnitudes up to
    [Number.MAX_SAFE_INTEGER], below which a step of its counter is not
    absorbed.  The canvas
    context is modelled by the sequence of calls made on it. *)

From Stdlib Require Import Reals Lra Lia List ZArith String Bool.
Import ListNotations.
Local Open Scope R_scope.

(** ** JavaScript numbers *)

Module JS.

Inductive num : Type :=
| NaN
| PInf
| NInf
| Fin (r : R).

Definition Rltb (x y : R) : bool := if Rlt_dec x y then true else false.
Definition Rleb (x y : R) : bool := if Rle_dec x y then true else false.
Definition Reqb (x y : R) : bool := if Req_dec_T x y then true else false.

(** [a < b] *)
Definition lt (a b : num) : bool :=
  match a, b with
  | NaN, _ | _, NaN => false
  | Fin x, Fin y => Rltb x y
  | _, NInf => false
  | PInf, _ => false
  | NInf, _ => true
  | Fin _, PInf => true
  end.

(** [a <= b] *)
Definition le (a b : num) : bool :=
  match a, b with
  | NaN, _ | _, NaN => false
  | Fin x, Fin y => Rleb x y
  | NInf, _ => true
  | _, PInf => true
  | PInf, _ => false
  | Fin _, NInf => false
  end.

(** [a > b] and [a >= b] *)
Definition gt (a b : num) : bool := lt b a.
Definition ge (a b : num) : bool := le b a.

(** [a === b] on numbers *)
Definition seq (a b : num) : bool :=
  match a, b with
  | Fin x, Fin y => Reqb x y
  | PInf, PInf | NInf, NInf => true
  | _, _ => false
  end.

Definition isNaN (a : num) : bool :=
  match a with NaN => true | _ => false end.

(** Truthiness of a number: every number but [0] and [NaN]. *)
Definition truthy (a : num) : bool :=
  match a with
  | NaN => false
  | Fin x => negb (Reqb x 0)
  | _ => true
  end.

Definition neg (a : num) : num :=
  match a with
  | NaN => NaN
  | PInf => NInf
  | NInf => PInf
  | Fin x => Fin (- x)
  end.

Definition add (a b : num) : num :=
  match a, b with
  | NaN, _ | _, NaN => NaN
  | Fin x, Fin y => Fin (x + y)
  | PInf, NInf | NInf, PInf => NaN
  | PInf, _ | _, PInf => PInf
  | NInf, _ | _, NInf => NInf
  end.

Definition sub (a b : num) : num := add a (neg b).

(** The sign of a finite operand, as a factor applied to an infinity;
    a zero counts as positive where the sign of zero would decide. *)
Definition signed_inf (positive : bool) : num :=
  if positive then PInf else NInf.

Definition mul (a b : num) : num :=
  match a, b with
  | NaN, _ | _, NaN => NaN
  | Fin x, Fin y => Fin (x * y)
  | PInf, PInf | NInf, NInf => PInf
  | PInf, NInf | NInf, PInf => NInf
  | PInf, Fin y | Fin y, PInf =>
      if Reqb y 0 then NaN else signed_inf (Rltb 0 y)
  | NInf, Fin y | Fin y, NInf =>
      if Reqb y 0 then NaN else signed_inf (Rltb y 0)
  end.

Definition div (a b : num) : num :=
  match a, b with
  | NaN, _ | _, NaN => NaN
  | Fin x, Fin y =>
      if Reqb y 0
      then (if Reqb x 0 then NaN else signed_inf (Rltb 0 x))
      else Fin (x / y)
  | Fin _, _ => Fin 0
  | PInf, Fin y => signed_inf (Rleb 0 y)
  | NInf, Fin y => signed_inf (Rltb y 0)
  | _, _ => NaN
  end.

(** [a % b]: the remainder has the sign of the dividend. *)
Definition trunc (x : R) : R :=
  if Rle_dec 0 x then IZR (Int_part x) else - IZR (Int_part (- x)).

Definition rem (a b : num) : num :=
  match a, b with
  | Fin x, Fin y => if Reqb y 0 then NaN else Fin (x - y * trunc (x / y))
  | Fin x, (PInf | NInf) => Fin x
  | _, _ => NaN
  end.

(** [Math.abs], [Math.min], [Math.max], [Math.ceil] *)
Definition abs (a : num) : num :=
  match a with
  | NaN => NaN
  | PInf | NInf => PInf
  | Fin x => Fin (Rabs x)
  end.

Definition min (a b : num) : num :=
  match a, b with
  | NaN, _ | _, NaN => NaN
  | _, _ => if le a b then a else b
  end.

Definition max (a b : num) : num :=
  match a, b with
  | NaN, _ | _, NaN => NaN
  | _, _ => if le a b then b else a
  end.

Definition ceil (a : num) : num :=
  match a with
  | Fin x => Fin (- IZR (Int_part (- x)))
  | _ => a
  end.

(** [Math.log], [Math.sin], [Math.cos], [Math.PI] *)
Definition log (a : num) : num :=
  match a with
  | NaN | NInf => NaN
  | PInf => PInf
  | Fin x =>
      if Rltb 0 x then Fin (ln x)
      else if Reqb x 0 then NInf else NaN
  end.

Definition sin (a : num) : num :=
  match a with Fin x => Fin (Rtrigo_def.sin x) | _ => NaN end.

Definition cos (a : num) : num :=
  match a with Fin x => Fin (Rtrigo_def.cos x) | _ => NaN end.

Definition PI : num := Fin Rtrigo1.PI.

(** [Math.pow(a, b)].  A negative base is raised to an integral exponent
    only; any other exponent gives [NaN]. *)
Definition is_integer (y : R) : bool := Reqb (IZR (Int_part y)) y.

Definition pow_neg_base (x y : R) : num :=
  if is_integer y
  then Fin ((if Z.even (Int_part y) then 1 else -1) * Rpower (- x) y)
  else NaN.

Definition pow (a b : num) : num :=
  match a, b with
  | _, NaN => NaN
  | _, Fin y =>
      if Reqb y 0 then Fin 1 else
      match a with
      | NaN => NaN
      | Fin x =>
          if Rltb 0 x then Fin (Rpower x y)
          else if Reqb x 0
               then (if Rltb 0 y then Fin 0 else PInf)
               else pow_neg_base x y
      | PInf => if Rltb 0 y then PInf else Fin 0
      | NInf =>
          if Rltb 0 y
          then (if is_integer y && negb (Z.even (Int_part y)) then NInf else PInf)
          else Fin 0
      end
  | NaN, _ => NaN
  | Fin x, PInf =>
      if Rltb 1 (Rabs x) then PInf
      else if Reqb (Rabs x) 1 then NaN else Fin 0
  | Fin x, NInf =>
      if Rltb 1 (Rabs x) then Fin 0
      else if Reqb (Rabs x) 1 then NaN else PInf
  | _, PInf => PInf
  | _, NInf => Fin 0
  end.

End JS.

Import JS.

Declare Scope js_scope.
Delimit Scope js_scope with js.
Bind Scope js_scope with num.
Infix "+" := JS.add : js_scope.
Infix "-" := JS.sub : js_scope.
Infix "*" := JS.mul : js_scope.
Infix "/" := JS.div : js_scope.
Infix "<?" := JS.lt (at level 70) : js_scope.
Infix "<=?" := JS.le (at level 70) : js_scope.
Infix ">?" := JS.gt (at level 70) : js_scope.
Infix ">=?" := JS.ge (at level 70) : js_scope.
Coercion Fin : R >-> num.

(** ** Outcomes of a call, and the canvas *)

(** A call returns, throws, or is cut off by the iteration bound [fuel] that
    every [for] and [while] loop of the model carries. *)
Inductive JsError : Type := TypeError.

Inductive Outcome (A : Type) : Type :=
| Ok (a : A)
| Throw (e : JsError)
| OutOfFuel.
Arguments Ok {A} a.
Arguments Throw {A} e.
Arguments OutOfFuel {A}.

Definition omap {A B : Type} (f : A -> B) (o : Outcome A) : Outcome B :=
  match o with
  | Ok a => Ok (f a)
  | Throw e => Throw e
  | OutOfFuel => OutOfFuel
  end.

(** Text handed to [fillText]: literals, numbers converted to strings,
    [toFixed], and concatenation. *)
Inductive Text : Type :=
| TStr (s : string)
| TNum (n : num)
| TFixed (n : num) (digits : nat)
| TCat (a b : Text).

(** The calls made on the 2D context, property assignments included. *)
Inductive Cmd : Type :=
| clearRect (x y w h : num)
| fillRect (x y w h : num)
| strokeRect (x y w h : num)
| beginPath
| closePath
| moveTo (x y : num)
| lineTo (x y : num)
| arc (x y r a0 a1 : num)
| stroke
| fill
| fillText (t : Text) (x y : num)
| set_fillStyle (s : string)
| set_strokeStyle (s : string)
| set_lineWidth (w : num)
| set_font (s : string)
| set_textAlign (s : string)
| save
| restore
| translate (x y : num)
| rotate (a : num).

(** A computation that draws: its outcome and the calls it made. *)
Definition M (A : Type) : Type := (Outcome A * list Cmd)%type.

Definition ret {A : Type} (a : A) : M A := (Ok a, []).

Definition bind {A B : Type} (m : M A) (f : A -> M B) : M B :=
  match m with
  | (Ok a, t) => let (o, t') := f a in (o, t ++ t')
  | (Throw e, t) => (Throw e, t)
  | (OutOfFuel, t) => (OutOfFuel, t)
  end.

Definition emit (c : Cmd) : M unit := (Ok tt, [c]).
Definition lift {A : Type} (o : Outcome A) : M A := (o, []).
Definition outcome {A : Type} (m : M A) : Outcome A := fst m.
Definition trace {A : Type} (m : M A) : list Cmd := snd m.

Notation "x <- m ;; k" := (bind m (fun x => k))
  (at level 61, m at next level, right associativity).
Notation "m ;; k" := (bind m (fun _ => k))
  (at level 61, right associativity).

(** [for (let i = start; cond(i); i = next(i)) body]; [continue] is a body
    that returns early.  [s] is the state of the locals the body assigns. *)
Fixpoint for_loop {S : Type} (fuel : nat) (cond : num -> bool)
    (next : num -> num) (body : num -> S -> M S) (i : num) (s : S) : M S :=
  match fuel with
  | O => lift OutOfFuel
  | Datatypes.S n =>
      if cond i
      then s' <- body i s ;; for_loop n cond next body (next i) s'
      else ret s
  end.

(** [while (cond) body] over the locals [s]. *)
Fixpoint while_loop {S : Type} (fuel : nat) (cond : S -> bool)
    (body : S -> M S) (s : S) : M S :=
  match fuel with
  | O => lift OutOfFuel
  | Datatypes.S n =>
      if cond s
      then s' <- body s ;; while_loop n cond body s'
      else ret s
  end.

(** [array.forEach(row => ...)], with the captured locals as state; a
    [return] in the callback ends that row only. *)
Fixpoint forEach {A S : Type} (rows : list A) (body : A -> S -> M S)
    (s : S) : M S :=
  match rows with
  | [] => ret s
  | row :: rest => s' <- body row s ;; forEach rest body s'
  end.

(** ** The data model *)

(** One row of the parsed sounding.  The parser's other columns
    (relHumidity, mixingRatio, theta, thetaE, thetaV) are never read by the
    diagram.  A missing field behaves as [NaN] in every use below. *)
Record Level : Type := {
  pressure : num;
  height : num;
  temp : num;
  dewpoint : num;
  windDir : num;
  windSpeed : num
}.

Record Metadata : Type := {
  stationName : option string;
  observationTime : option string;
  latitude : option num;
  longitude : option num
}.

(** The parser's result; [data = None] is a missing [data] property. *)
Record SoundingData : Type := {
  metadata : option Metadata;
  data : option (list Level)
}.

Record Margin : Type := {
  top : num;
  right : num;
  bottom : num;
  left : num
}.

(** The fields of a [SkewTDiagram]; [plotHeight] is [this.height]. *)
Record SkewTDiagram : Type := {
  canvas_width : num;
  canvas_height : num;
  margin : Margin;
  width : num;
  plotHeight : num;
  pMin : num;
  pMax : num;
  hMin : num;
  hMax : num;
  tMin : num;
  tMax : num;
  skew : num;
  soundingData : option SoundingData
}.

(** The constructor, for a canvas of the given size. *)
Definition new_SkewTDiagram (cw ch : num) : SkewTDiagram :=
  let m := {| top := 50; right := 150; bottom := 50; left := 100 |} in
  {| canvas_width := cw;
     canvas_height := ch;
     margin := m;
     width := (cw - left m - right m)%js;
     plotHeight := (ch - top m - bottom m)%js;
     pMin := 100;
     pMax := 1050;
     hMin := 0;
     hMax := 4500;
     tMin := -60;
     tMax := 50;
     skew := 35;
     soundingData := None |}.

(** ** CoordinateFrame *)

Definition setHeightRange (d : SkewTDiagram) (minHeight maxHeight : num)
  : SkewTDiagram :=
  {| canvas_width := canvas_width d;
     canvas_height := canvas_height d;
     margin := margin d;
     width := width d;
     plotHeight := plotHeight d;
     pMin := pMin d;
     pMax := pMax d;
     hMin := minHeight;
     hMax := maxHeight;
     tMin := tMin d;
     tMax := tMax d;
     skew := skew d;
     soundingData := soundingData d |}.

Definition heightToY (d : SkewTDiagram) (h : num) : num :=
  let ratio := ((h - hMin d) / (hMax d - hMin d))%js in
  (top (margin d) + plotHeight d * (1 - ratio))%js.

(** The standard-atmosphere fallback of [pressureToHeight]. *)
Definition standardAtmosphere (p : num) : num :=
  (44330 * (1 - JS.pow (p / 1013.25) 0.1903))%js.

(** The search loop of [pressureToHeight] over [data[i]], [data[i + 1]]:
    the first adjacent pair with [data[i].pressure >= p] and
    [data[i + 1].pressure <= p] decides. *)
Fixpoint pressureSearch (rows : list Level) (p : num) : option num :=
  match rows with
  | l1 :: ((l2 :: _) as rest) =>
      if (pressure l1 >=? p)%js && (pressure l2 <=? p)%js
      then
        let p1 := pressure l1 in
        let p2 := pressure l2 in
        let h1 := height l1 in
        let h2 := height l2 in
        let ratio := ((p - p1) / (p2 - p1))%js in
        Some (h1 + ratio * (h2 - h1))%js
      else pressureSearch rest p
  | _ => None
  end.

(** [array[i].field]: reading a property of [undefined] throws. *)
Definition prop {A B : Type} (rows : list A) (i : nat) (field : A -> B)
  : Outcome B :=
  match nth_error rows i with
  | Some row => Ok (field row)
  | None => Throw TypeError
  end.

Definition pressureToHeight (d : SkewTDiagram) (p : num) : Outcome num :=
  match soundingData d with
  | None => Ok (standardAtmosphere p)
  | Some sd =>
      match data sd with
      | None => Ok (standardAtmosphere p)
      | Some rows =>
          match pressureSearch rows p with
          | Some h => Ok h
          | None =>
              match prop rows 0 pressure with
              | Ok p0 =>
                  if (p >=? p0)%js then prop rows 0 height
                  else
                    match prop rows (List.length rows - 1) pressure with
                    | Ok pn =>
                        if (p <=? pn)%js
                        then prop rows (List.length rows - 1) height
                        else Ok (Fin 0)
                    | Throw e => Throw e
                    | OutOfFuel => OutOfFuel
                    end
              | Throw e => Throw e
              | OutOfFuel => OutOfFuel
              end
          end
      end
  end.

Definition pressureToY (d : SkewTDiagram) (p : num) : Outcome num :=
  omap (heightToY d) (pressureToHeight d p).

Definition tempToX (d : SkewTDiagram) (t p : num) : num :=
  let ratio := ((t - tMin d) / (tMax d - tMin d))%js in
  let baseX := (left (margin d) + width d * ratio)%js in
  let logP := JS.log p in
  let logPMax := JS.log (pMax d) in
  let skewOffset := (skew d * (logPMax - logP))%js in
  (baseX + skewOffset)%js.

(** ** DiagramRenderer: the frame *)

Section Renderer.

Variable fuel : nat.
Variable d : SkewTDiagram.

(** [if (firstPoint) { moveTo(x, y); firstPoint = false; } else lineTo(x, y)],
    returning the new [firstPoint]. *)
Definition plotPoint (firstPoint : bool) (x y : num) : M bool :=
  if firstPoint
  then emit (moveTo x y) ;; ret false
  else emit (lineTo x y) ;; ret firstPoint.

Definition heightInterval (range : num) : num :=
  if (range <=? 2000)%js then 200
  else if (range <=? 5000)%js then 500
  else if (range <=? 10000)%js then 1000
  else if (range <=? 20000)%js then 2000
  else 5000.

Definition drawHeightAxis : M unit :=
  emit (set_lineWidth 1) ;;
  emit (set_font "bold 11px Arial") ;;
  emit (set_fillStyle "#1a202c") ;;
  emit (set_strokeStyle "#cbd5e0") ;;
  let range := (hMax d - hMin d)%js in
  let interval := heightInterval range in
  for_loop fuel (fun h => (h <=? hMax d)%js) (fun h => (h + interval)%js)
    (fun h _ =>
       let y := heightToY d h in
       let x := left (margin d) in
       emit beginPath ;;
       emit (moveTo x y) ;;
       emit (lineTo (x + 10)%js y) ;;
       emit stroke ;;
       emit (set_textAlign "right") ;;
       emit (fillText (TCat (TNum h) (TStr " m")) (x - 5)%js (y + 4)%js))
    (JS.ceil (hMin d / interval) * interval)%js tt ;;
  emit (set_textAlign "left").

Definition majorPressures : list num :=
  map Fin [1000; 925; 850; 700; 500; 400; 300; 250; 200; 150; 100].

Definition minorPressures : list num :=
  map Fin [975; 950; 900; 875; 825; 800; 775; 750; 725; 675; 650; 625; 600;
           575; 550; 525; 475; 450; 425; 375; 350; 325; 275; 225; 175; 125].

(** One isobar; [labelled] tells the major lines, which carry a label. *)
Definition drawIsobar (labelled : bool) (p : num) (_ : unit) : M unit :=
  if (p <? pMin d)%js || (p >? pMax d)%js then ret tt else
  h <- lift (pressureToHeight d p) ;;
  if (h <? hMin d)%js || (h >? hMax d)%js then ret tt else
  let y := heightToY d h in
  let x1 := left (margin d) in
  let x2 := (left (margin d) + width d)%js in
  if (y <? top (margin d))%js || (y >? top (margin d) + plotHeight d)%js
  then ret tt else
  emit beginPath ;;
  emit (moveTo x1 y) ;;
  emit (lineTo x2 y) ;;
  emit stroke ;;
  if labelled
  then emit (set_textAlign "left") ;;
       emit (fillText (TCat (TNum p) (TStr " mb")) (x2 + 5)%js (y + 4)%js)
  else ret tt.

Definition drawPressureLines : M unit :=
  emit (set_lineWidth 1) ;;
  emit (set_font "12px Arial") ;;
  emit (set_strokeStyle "#333333") ;;
  emit (set_fillStyle "#333333") ;;
  forEach majorPressures (drawIsobar true) tt ;;
  emit (set_strokeStyle "#cccccc") ;;
  forEach minorPressures (drawIsobar false) tt.

Definition drawIsotherms : M unit :=
  emit (set_lineWidth 1) ;;
  emit (set_font "11px Arial") ;;
  for_loop fuel (fun t => (t <=? 50)%js) (fun t => (t + 10)%js)
    (fun t _ =>
       if (t <? tMin d - 20)%js || (t >? tMax d + 20)%js then ret tt else
       let isMajor := JS.seq (JS.rem t 20) 0 in
       emit (set_strokeStyle (if isMajor then "#00aa00" else "#90EE90")) ;;
       emit (set_fillStyle "#006600") ;;
       let x1 := tempToX d t (pMax d) in
       y1 <- lift (pressureToY d (pMax d)) ;;
       let x2 := tempToX d t (pMin d) in
       y2 <- lift (pressureToY d (pMin d)) ;;
       emit beginPath ;;
       emit (moveTo x1 y1) ;;
       emit (lineTo x2 y2) ;;
       emit stroke ;;
       if isMajor
       then emit save ;;
            emit (translate x1 (y1 + 20)%js) ;;
            emit (rotate (JS.neg JS.PI / 4)%js) ;;
            emit (fillText (TCat (TNum t) (TStr "°C")) 0 0) ;;
            emit restore
       else ret tt)
    (Fin (-100)) tt.

(** ** CurveGenerators *)

(** Poisson's equation: [theta * Math.pow(p / 1000, 0.286) - 273.15]. *)
Definition dryAdiabatTemp (theta p : num) : num :=
  (theta * JS.pow (p / 1000) 0.286 - 273.15)%js.

Definition moistAdiabatTemp (thetaE p : num) : num :=
  (thetaE * JS.pow (p / 1000) 0.286 - 273.15 - (1050 - p) * 0.02)%js.

(** The body of the pressure sweep shared by both adiabat families. *)
Definition adiabatPoint (t p : num) (firstPoint : bool) : M bool :=
  if (t <? tMin d - 20)%js || (t >? tMax d + 40)%js then ret firstPoint else
  let x := tempToX d t p in
  y <- lift (pressureToY d p) ;;
  plotPoint firstPoint x y.

Definition dryAdiabat (theta : num) (_ : unit) : M unit :=
  emit beginPath ;;
  for_loop fuel (fun p => (p >=? pMin d)%js) (fun p => (p - 5)%js)
    (fun p firstPoint => adiabatPoint (dryAdiabatTemp theta p) p firstPoint)
    (pMax d) true ;;
  emit stroke.

Definition drawDryAdiabats : M unit :=
  emit (set_strokeStyle "rgba(255, 140, 0, 0.4)") ;;
  emit (set_lineWidth 1) ;;
  for_loop fuel (fun theta => (theta <=? 500)%js) (fun theta => (theta + 10)%js)
    dryAdiabat (Fin 200) tt.

Definition moistAdiabat (thetaE : num) (_ : unit) : M unit :=
  emit beginPath ;;
  for_loop fuel (fun p => (p >=? pMin d)%js) (fun p => (p - 5)%js)
    (fun p firstPoint => adiabatPoint (moistAdiabatTemp thetaE p) p firstPoint)
    (pMax d) true ;;
  emit stroke.

Definition drawMoistAdiabats : M unit :=
  emit (set_strokeStyle "rgba(0, 100, 255, 0.3)") ;;
  emit (set_lineWidth 1) ;;
  for_loop fuel (fun thetaE => (thetaE <=? 380)%js)
    (fun thetaE => (thetaE + 10)%js) moistAdiabat (Fin 280) tt.

Definition mixingRatios : list num := map Fin [0.5; 1; 2; 4; 8; 16; 32].

Definition mixingRatioPoint (w p : num) (firstPoint : bool) : M bool :=
  let e := ((w * p) / (621.97 + w))%js in
  let td := (243.5 * JS.log (e / 6.112) / (17.67 - JS.log (e / 6.112)))%js in
  if (td <? tMin d - 20)%js || (td >? tMax d + 20)%js then ret firstPoint else
  let x := tempToX d td p in
  y <- lift (pressureToY d p) ;;
  if (x <? left (margin d))%js || (x >? left (margin d) + width d)%js
  then ret firstPoint
  else plotPoint firstPoint x y.

Definition mixingRatioLine (w : num) (_ : unit) : M unit :=
  emit beginPath ;;
  for_loop fuel (fun p => (p >=? 600)%js) (fun p => (p - 10)%js)
    (mixingRatioPoint w) (pMax d) true ;;
  emit stroke.

Definition drawMixingRatioLines : M unit :=
  emit (set_strokeStyle "rgba(150, 75, 0, 0.3)") ;;
  emit (set_lineWidth 1) ;;
  emit (set_font "9px Arial") ;;
  emit (set_fillStyle "rgba(150, 75, 0, 0.7)") ;;
  forEach mixingRatios mixingRatioLine tt.

Definition drawBorder : M unit :=
  emit (set_strokeStyle "#000000") ;;
  emit (set_lineWidth 2) ;;
  emit (strokeRect (left (margin d)) (top (margin d)) (width d) (plotHeight d)).

(** ** DiagramRenderer: the profile curves *)

Definition temperaturePoint (row : Level) (firstPoint : bool) : M bool :=
  if JS.isNaN (temp row) || (pressure row <? pMin d)%js
     || (pressure row >? pMax d)%js then ret firstPoint else
  if (height row <? hMin d)%js || (height row >? hMax d)%js
  then ret firstPoint else
  let x := tempToX d (temp row) (pressure row) in
  let y := heightToY d (height row) in
  plotPoint firstPoint x y.

Definition drawTemperatureProfile (rows : list Level) : M unit :=
  emit (set_strokeStyle "#ff0000") ;;
  emit (set_lineWidth 2.5) ;;
  emit beginPath ;;
  forEach rows temperaturePoint true ;;
  emit stroke.

Definition dewpointPoint (row : Level) (firstPoint : bool) : M bool :=
  if JS.isNaN (dewpoint row) || (pressure row <? pMin d)%js
     || (pressure row >? pMax d)%js then ret firstPoint else
  if (height row <? hMin d)%js || (height row >? hMax d)%js
  then ret firstPoint else
  let x := tempToX d (dewpoint row) (pressure row) in
  let y := heightToY d (height row) in
  plotPoint firstPoint x y.

Definition drawDewpointProfile (rows : list Level) : M unit :=
  emit (set_strokeStyle "#00aa00") ;;
  emit (set_lineWidth 2.5) ;;
  emit beginPath ;;
  forEach rows dewpointPoint true ;;
  emit stroke.

End Renderer.

(** ** WindBarbEncoder *)

Section WindBarb.

Variable fuel : nat.

(** The locals [currentSpeed] and [currentDist] of [drawWindBarb]. *)
Definition BarbState : Type := (num * num)%type.

Definition barbLength : num := 30.
Definition flagWidth : num := 10.

Definition pennant (x y angle perpAngle : num) (s : BarbState)
  : M BarbState :=
  let '(currentSpeed, currentDist) := s in
  let x1 := (x + JS.sin angle * currentDist)%js in
  let y1 := (y - JS.cos angle * currentDist)%js in
  let x2 := (x + JS.sin angle * (currentDist - 8))%js in
  let y2 := (y - JS.cos angle * (currentDist - 8))%js in
  let x3 := (x2 + JS.sin perpAngle * flagWidth)%js in
  let y3 := (y2 - JS.cos perpAngle * flagWidth)%js in
  emit beginPath ;;
  emit (moveTo x1 y1) ;;
  emit (lineTo x3 y3) ;;
  emit (lineTo x2 y2) ;;
  emit closePath ;;
  emit fill ;;
  ret ((currentSpeed - 50)%js, (currentDist - 10)%js).

Definition fullBarb (x y angle perpAngle : num) (s : BarbState)
  : M BarbState :=
  let '(currentSpeed, currentDist) := s in
  let x1 := (x + JS.sin angle * currentDist)%js in
  let y1 := (y - JS.cos angle * currentDist)%js in
  let x2 := (x1 + JS.sin perpAngle * flagWidth)%js in
  let y2 := (y1 - JS.cos perpAngle * flagWidth)%js in
  emit beginPath ;;
  emit (moveTo x1 y1) ;;
  emit (lineTo x2 y2) ;;
  emit stroke ;;
  ret ((currentSpeed - 10)%js, (currentDist - 6)%js).

Definition halfBarb (x y angle perpAngle : num) (s : BarbState) : M unit :=
  let '(currentSpeed, currentDist) := s in
  let x1 := (x + JS.sin angle * currentDist)%js in
  let y1 := (y - JS.cos angle * currentDist)%js in
  let x2 := (x1 + JS.sin perpAngle * (flagWidth / 2))%js in
  let y2 := (y1 - JS.cos perpAngle * (flagWidth / 2))%js in
  emit beginPath ;;
  emit (moveTo x1 y1) ;;
  emit (lineTo x2 y2) ;;
  emit stroke.

Definition calmCircle (x y : num) : M unit :=
  emit beginPath ;;
  emit (arc x y 4 0 (2 * JS.PI)%js) ;;
  emit stroke.

Definition staff (x y angle : num) : M unit :=
  let staffEndX := (x + JS.sin angle * barbLength)%js in
  let staffEndY := (y - JS.cos angle * barbLength)%js in
  emit beginPath ;;
  emit (moveTo x y) ;;
  emit (lineTo staffEndX staffEndY) ;;
  emit stroke.

Definition drawWindBarb (x y direction speedMS : num) : M unit :=
  let speedKmh := (speedMS * 3.6)%js in
  let angle := (direction * JS.PI / 180)%js in
  emit (set_strokeStyle "#000000") ;;
  emit (set_fillStyle "#000000") ;;
  emit (set_lineWidth 1.5) ;;
  if (speedKmh <? 2.5)%js then calmCircle x y else
  staff x y angle ;;
  let perpAngle := (angle - JS.PI / 2)%js in
  s1 <- while_loop fuel (fun s => (fst s >=? 47.5)%js)
          (pennant x y angle perpAngle) (speedKmh, barbLength) ;;
  s2 <- while_loop fuel (fun s => (fst s >=? 7.5)%js)
          (fullBarb x y angle perpAngle) s1 ;;
  if (fst s2 >=? 2.5)%js then halfBarb x y angle perpAngle s2 else ret tt.

Variable d : SkewTDiagram.

(** The decimation callback of [drawWindBarbs]: the locals are [windData]
    and [lastH]; it makes no canvas call. *)
Definition selectWindRow (interval : num) (s : list Level * num)
    (row : Level) : list Level * num :=
  let '(windData, lastH) := s in
  if (pressure row >=? pMin d)%js && (pressure row <=? pMax d)%js
     && (height row >=? hMin d)%js && (height row <=? hMax d)%js
     && negb (JS.isNaN (windSpeed row)) && negb (JS.isNaN (windDir row))
  then
    if (JS.abs (height row - lastH) >=? interval)%js
       || Nat.eqb (List.length windData) 0
    then (windData ++ [row], height row)
    else s
  else s.

Definition drawWindBarbs (rows : list Level) : M unit :=
  let xBarb := (left (margin d) + width d + 20)%js in
  let heightRange := (hMax d - hMin d)%js in
  let interval : num := if (heightRange <? 5000)%js then 250 else 500 in
  let windData := fst (fold_left (selectWindRow interval) rows
                                 ([], Fin (-10000))) in
  forEach windData
    (fun row _ =>
       let y := heightToY d (height row) in
       drawWindBarb xBarb y (windDir row) (windSpeed row))
    tt.

End WindBarb.

(** ** DiagramRenderer: title, legend and the full draw *)

Definition nonEmpty (s : option string) : option string :=
  match s with
  | Some EmptyString | None => None
  | Some t => Some t
  end.

Definition truthyNum (n : option num) : bool :=
  match n with
  | Some x => JS.truthy x
  | None => false
  end.

Definition toFixed2 (n : option num) : Text :=
  match n with
  | Some x => TFixed x 2
  | None => TStr ""
  end.

Definition drawTitle (d : SkewTDiagram) (metadata : option Metadata) : M unit :=
  emit (set_fillStyle "#000000") ;;
  emit (set_font "bold 18px Arial") ;;
  let title :=
    match metadata with
    | Some m =>
        match nonEmpty (stationName m) with
        | Some s => s
        | None => "Skew-T Log-P Diagram"%string
        end
    | None => "Skew-T Log-P Diagram"%string
    end in
  emit (fillText (TStr title) (left (margin d)) 25) ;;
  match metadata with
  | Some m =>
      emit (set_font "12px Arial") ;;
      let infoText := TStr "" in
      let infoText :=
        match nonEmpty (observationTime m) with
        | Some t => TCat infoText (TCat (TStr t) (TStr "  "))
        | None => infoText
        end in
      let infoText :=
        if truthyNum (latitude m) && truthyNum (longitude m)
        then TCat infoText
               (TCat (TStr "Lat: ")
                  (TCat (toFixed2 (latitude m))
                     (TCat (TStr "° Lon: ")
                        (TCat (toFixed2 (longitude m)) (TStr "°")))))
        else infoText in
      emit (fillText infoText (left (margin d)) 42)
  | None => ret tt
  end ;;
  let legendX := (left (margin d) + width d - 200)%js in
  let legendY := (top (margin d) + 20)%js in
  emit (set_font "12px Arial") ;;
  emit (set_strokeStyle "#ff0000") ;;
  emit (set_lineWidth 2.5) ;;
  emit beginPath ;;
  emit (moveTo legendX legendY) ;;
  emit (lineTo (legendX + 30)%js legendY) ;;
  emit stroke ;;
  emit (set_fillStyle "#000000") ;;
  emit (fillText (TStr "Temperature") (legendX + 35)%js (legendY + 4)%js) ;;
  emit (set_strokeStyle "#00aa00") ;;
  emit (set_lineWidth 2.5) ;;
  emit beginPath ;;
  emit (moveTo legendX (legendY + 20)%js) ;;
  emit (lineTo (legendX + 30)%js (legendY + 20)%js) ;;
  emit stroke ;;
  emit (fillText (TStr "Dew Point") (legendX + 35)%js (legendY + 24)%js).

(** [this.soundingData = soundingData], the only assignment [draw] makes. *)
Definition storeSounding (d : SkewTDiagram) (sd : option SoundingData)
  : SkewTDiagram :=
  {| canvas_width := canvas_width d;
     canvas_height := canvas_height d;
     margin := margin d;
     width := width d;
     plotHeight := plotHeight d;
     pMin := pMin d;
     pMax := pMax d;
     hMin := hMin d;
     hMax := hMax d;
     tMin := tMin d;
     tMax := tMax d;
     skew := skew d;
     soundingData := sd |}.

(** The rows [draw] plots: those of a present, non-empty [data] array. *)
Definition profileRows (sd : option SoundingData) : option (list Level) :=
  match sd with
  | Some s =>
      match data s with
      | Some (row :: rest) => Some (row :: rest)
      | _ => None
      end
  | None => None
  end.

(** The grid and the reference curves, up to the border. *)
Definition drawFrame (fuel : nat) (d : SkewTDiagram) : M unit :=
  emit (clearRect 0 0 (canvas_width d) (canvas_height d)) ;;
  emit (set_fillStyle "#ffffff") ;;
  emit (fillRect 0 0 (canvas_width d) (canvas_height d)) ;;
  drawHeightAxis fuel d ;;
  drawPressureLines d ;;
  drawIsotherms fuel d ;;
  drawDryAdiabats fuel d ;;
  drawMoistAdiabats fuel d ;;
  drawMixingRatioLines fuel d ;;
  drawBorder d.

(** The profile phases of [draw]. *)
Definition drawProfile (fuel : nat) (d : SkewTDiagram)
    (sd : option SoundingData) : M unit :=
  match profileRows sd with
  | Some rows =>
      drawTemperatureProfile d rows ;;
      drawDewpointProfile d rows ;;
      drawWindBarbs fuel d rows
  | None => ret tt
  end.

(** [draw(soundingData)]: the diagram after the call, and what was drawn. *)
Definition draw (fuel : nat) (d : SkewTDiagram) (sd : option SoundingData)
  : SkewTDiagram * M unit :=
  let this := storeSounding d sd in
  (this,
   drawFrame fuel this ;;
   drawProfile fuel this sd ;;
   drawTitle this (match sd with Some s => metadata s | None => None end)).

(** ** ProfileInterpolator ([SoundingApp.interpolateDataAtHeight]) *)

Definition interpolate (lower upper : Level) (targetHeight : num) : Level :=
  let ratio :=
    ((targetHeight - height lower) / (height upper - height lower))%js in
  {| height := targetHeight;
     pressure := (pressure lower + ratio * (pressure upper - pressure lower))%js;
     temp := (temp lower + ratio * (temp upper - temp lower))%js;
     dewpoint := (dewpoint lower + ratio * (dewpoint upper - dewpoint lower))%js;
     windSpeed :=
       (windSpeed lower + ratio * (windSpeed upper - windSpeed lower))%js;
     windDir := (windDir lower + ratio * (windDir upper - windDir lower))%js |}.

(** The test of the search loop on [data[i]], [data[i + 1]]. *)
Definition brackets (lower upper : Level) (targetHeight : num) : bool :=
  let minH := JS.min (height lower) (height upper) in
  let maxH := JS.max (height lower) (height upper) in
  (targetHeight >=? minH)%js && (targetHeight <=? maxH)%js.

Fixpoint heightSearch (rows : list Level) (targetHeight : num)
  : option Level :=
  match rows with
  | lower :: ((upper :: _) as rest) =>
      if brackets lower upper targetHeight
      then Some (interpolate lower upper targetHeight)
      else heightSearch rest targetHeight
  | _ => None
  end.

(** The callback of the closest-point scan; the locals are [closest] and
    [minDistance]. *)
Definition closer (targetHeight : num) (s : option Level * num) (row : Level)
  : option Level * num :=
  let '(closest, minDistance) := s in
  let distance := JS.abs (height row - targetHeight) in
  if (distance <? minDistance)%js then (Some row, distance) else s.

Definition closestLevel (rows : list Level) (targetHeight : num)
  : option Level :=
  fst (fold_left (closer targetHeight) rows (None, PInf)).

(** [interpolateDataAtHeight(targetHeight)] on [this.currentSoundingData];
    [None] in the result is [null]. *)
Definition interpolateDataAtHeight (currentSoundingData : option SoundingData)
    (targetHeight : num) : Outcome (option Level) :=
  match currentSoundingData with
  | None => Throw TypeError
  | Some sd =>
      match data sd with
      | None => Throw TypeError
      | Some rows =>
          match heightSearch rows targetHeight with
          | Some level => Ok (Some level)
          | None => Ok (closestLevel rows targetHeight)
          end
      end
  end.

(** ** SoundingApp: zoom, hover and read-out helpers ([app.js]) *)

(** [Math.floor] and [Math.round]; [Math.round] rounds halves up. *)
Definition Math_floor (a : num) : num :=
  match a with
  | Fin x => Fin (IZR (Int_part x))
  | _ => a
  end.

Definition Math_round (a : num) : num :=
  match a with
  | Fin x => Fin (IZR (Int_part (x + 0.5)))
  | _ => a
  end.

(** [array[i]] for a number [i]: an element for an integer within the
    bounds, [undefined] ([None]) for every other number. *)
Definition element {A : Type} (items : list A) (i : num) : option A :=
  match i with
  | Fin x =>
      if JS.is_integer x && Rleb 0 x
      then nth_error items (Z.to_nat (Int_part x))
      else None
  | _ => None
  end.

(** The fields of [SoundingApp] the methods below use. *)
Record SoundingApp : Type := {
  diagram : SkewTDiagram;
  currentSoundingData : option SoundingData
}.

(** The scan of [resetZoomToDataRange] for the lowest height that is not
    [NaN]; the local is [minH], which starts at [Infinity]. *)
Definition lowestHeight (rows : list Level) : num :=
  fold_left
    (fun minH row =>
       if negb (JS.isNaN (height row)) then JS.min minH (height row) else minH)
    rows PInf.

(** [resetZoomToDataRange(result)], as the diagram sees it; the two height
    inputs of the page receive the same two numbers. *)
Definition resetZoomToDataRange (d : SkewTDiagram)
    (result : option SoundingData) : SkewTDiagram :=
  match profileRows result with
  | None => d
  | Some rows =>
      let minH := lowestHeight rows in
      let minH := (Math_floor (minH / 100) * 100)%js in
      let maxH : num := 4500 in
      setHeightRange d minH maxH
  end.

(** What a zoom command did: it showed an error and left the diagram alone,
    or it changed the view and drew. *)
Inductive ZoomOutcome : Type :=
| ZoomRejected (message : string)
| ZoomDone (app : SoundingApp) (drawing : M unit).

(** [applyZoom()]; [minH] and [maxH] are the two inputs after [parseFloat]. *)
Definition applyZoom (fuel : nat) (app : SoundingApp) (minH maxH : num)
  : ZoomOutcome :=
  match currentSoundingData app with
  | None => ZoomRejected "Please load sounding data first"
  | Some sd =>
      if JS.isNaN minH || JS.isNaN maxH
      then ZoomRejected "Please enter valid height values"
      else if (minH >=? maxH)%js
      then ZoomRejected "Minimum height must be less than maximum height"
      else
        let zoomed := setHeightRange (diagram app) minH maxH in
        let drawn := draw fuel zoomed (Some sd) in
        ZoomDone {| diagram := fst drawn; currentSoundingData := Some sd |}
                 (snd drawn)
  end.

(** [resetZoom()]; with no sounding loaded it does nothing. *)
Definition resetZoom (fuel : nat) (app : SoundingApp)
  : option (SoundingApp * M unit) :=
  match currentSoundingData app with
  | None => None
  | Some sd =>
      let zoomed := resetZoomToDataRange (diagram app) (Some sd) in
      let drawn := draw fuel zoomed (Some sd) in
      Some ({| diagram := fst drawn; currentSoundingData := Some sd |},
            snd drawn)
  end.

(** The canvas's bounding rectangle on the page. *)
Record ClientRect : Type := {
  rect_left : num;
  rect_top : num;
  rect_width : num;
  rect_height : num
}.

(** What a mouse move does to the tooltip. *)
Inductive CursorInfo : Type :=
| hideCursorInfo
| showCursorInfo (level : Level) (mouseX mouseY : num).

(** The height under the canvas ordinate [canvasY], as [handleCanvasHover]
    computes it. *)
Definition cursorHeight (d : SkewTDiagram) (canvasY : num) : num :=
  let relativeY := (canvasY - top (margin d))%js in
  let ratio := (1 - relativeY / plotHeight d)%js in
  (hMin d + ratio * (hMax d - hMin d))%js.

(** The test that hides the tooltip outside the plot rectangle. *)
Definition outsidePlot (d : SkewTDiagram) (canvasX canvasY : num) : bool :=
  (canvasX <? left (margin d))%js
  || (canvasX >? left (margin d) + width d)%js
  || (canvasY <? top (margin d))%js
  || (canvasY >? top (margin d) + plotHeight d)%js.

(** [handleCanvasHover(event)] for a mouse at [(clientX, clientY)]. *)
Definition handleCanvasHover (app : SoundingApp) (rect : ClientRect)
    (clientX clientY : num) : Outcome CursorInfo :=
  let d := diagram app in
  match currentSoundingData app with
  | None => Ok hideCursorInfo
  | Some sd =>
      match data sd with
      | None => Ok hideCursorInfo
      | Some _ =>
          let scaleX := (canvas_width d / rect_width rect)%js in
          let scaleY := (canvas_height d / rect_height rect)%js in
          let canvasX := ((clientX - rect_left rect) * scaleX)%js in
          let canvasY := ((clientY - rect_top rect) * scaleY)%js in
          if outsidePlot d canvasX canvasY then Ok hideCursorInfo else
          let height := cursorHeight d canvasY in
          match interpolateDataAtHeight (currentSoundingData app) height with
          | Ok (Some level) => Ok (showCursorInfo level clientX clientY)
          | Ok None => Ok hideCursorInfo
          | Throw e => Throw e
          | OutOfFuel => OutOfFuel
          end
      end
  end.

Definition directions : list string :=
  ["N"; "NNE"; "NE"; "ENE"; "E"; "ESE"; "SE"; "SSE";
   "S"; "SSW"; "SW"; "WSW"; "W"; "WNW"; "NW"; "NNW"]%string.

(** [getCardinalDirection(degrees)]; [None] is [undefined]. *)
Definition getCardinalDirection (degrees : num) : option string :=
  let index := JS.rem (Math_round (degrees / 22.5)) 16 in
  element directions index.

(** ** SoundingDataParser ([dataParser.js]) *)

(** A JavaScript string is a sequence of UTF-16 code units. *)
Definition CodeUnit : Type := N.
Definition JsString : Type := list CodeUnit.

(** A string literal of the source. *)
Definition lit (s : string) : JsString :=
  map Ascii.N_of_ascii (list_ascii_of_string s).

(** [\s] of a regular expression, which is also what [trim] strips: the
    white space and line terminator code points. *)
Definition isSpace (c : CodeUnit) : bool :=
  existsb (N.eqb c)
    [9; 10; 11; 12; 13; 32; 160; 5760; 8232; 8233; 8239; 8287; 12288;
     65279]%N
  || ((8192 <=? c) && (c <=? 8202))%N.

(** [\d] *)
Definition isDigit (c : CodeUnit) : bool := ((48 <=? c) && (c <=? 57))%N.

(** The canonical form of a code unit under the [i] flag, on the letters the
    patterns use: a lower-case ASCII letter becomes its capital. *)
Definition upper (c : CodeUnit) : CodeUnit :=
  if ((97 <=? c) && (c <=? 122))%N then (c - 32)%N else c.

Fixpoint dropWhile (p : CodeUnit -> bool) (s : JsString) : JsString :=
  match s with
  | [] => []
  | c :: rest => if p c then dropWhile p rest else s
  end.

(** [s.trim()] *)
Definition trim (s : JsString) : JsString :=
  rev (dropWhile isSpace (rev (dropWhile isSpace s))).

(** [text.split('\n')] *)
Fixpoint split_lines (text : JsString) : list JsString :=
  match text with
  | [] => [[]]
  | c :: rest =>
      if (c =? 10)%N then [] :: split_lines rest
      else
        match split_lines rest with
        | line :: lines => (c :: line) :: lines
        | [] => [[c]]
        end
  end.

(** [s.split(/\s+/)]; [gap] tells that the code unit before was white
    space. *)
Fixpoint split_spaces (s : JsString) (gap : bool) : list JsString :=
  match s with
  | [] => [[]]
  | c :: rest =>
      if isSpace c
      then (if gap then split_spaces rest true
            else [] :: split_spaces rest true)
      else
        match split_spaces rest false with
        | piece :: pieces => (c :: piece) :: pieces
        | [] => [[c]]
        end
  end.

(** [s] starts with [pattern]; with [fold], as under the [i] flag. *)
Fixpoint startsWith (fold : bool) (pattern s : JsString) : option JsString :=
  match pattern, s with
  | [], _ => Some s
  | p :: pattern', c :: rest =>
      if (if fold then (upper p =? upper c)%N else (p =? c)%N)
      then startsWith fold pattern' rest
      else None
  | _ :: _, [] => None
  end.

(** [s.includes(pattern)] *)
Fixpoint includes (s pattern : JsString) : bool :=
  match startsWith false pattern s with
  | Some _ => true
  | None =>
      match s with
      | [] => false
      | _ :: rest => includes rest pattern
      end
  end.

(** The header test of [extractDataRows]. *)
Definition isHeader (line : JsString) : bool :=
  includes line (lit "PRES") && includes line (lit "HGHT")
  && includes line (lit "TEMP").

(** [line.match(/^[-\s]+$/)] *)
Definition isRule (line : JsString) : bool :=
  match line with
  | [] => false
  | _ => forallb (fun c => (c =? 45)%N || isSpace c) line
  end.

(** [line.trim() === ''] *)
Definition isBlank (line : JsString) : bool :=
  match trim line with
  | [] => true
  | _ => false
  end.

(** [line.match(/^\s*\d+/)] *)
Definition startsNumeric (line : JsString) : bool :=
  match dropWhile isSpace line with
  | c :: _ => isDigit c
  | [] => false
  end.

(** [/Station\s+(information|identifier)/i] matched at the start of [s]. *)
Definition stationInfoAt (s : JsString) : bool :=
  match startsWith true (lit "Station") s with
  | Some (c :: rest) =>
      isSpace c
      && match startsWith true (lit "information") (dropWhile isSpace rest),
               startsWith true (lit "identifier") (dropWhile isSpace rest)
         with
         | None, None => false
         | _, _ => true
         end
  | _ => false
  end.

(** [line.match(/Station\s+(information|identifier)/i)] *)
Fixpoint mentionsStationInfo (line : JsString) : bool :=
  stationInfoAt line
  || match line with
     | [] => false
     | _ :: rest => mentionsStationInfo rest
     end.

(** The loop of [extractDataRows] over the remaining [lines]; the locals are
    [inDataSection] and [dataLines]. *)
Fixpoint scanLines (lines : list JsString) (inDataSection : bool)
    (dataLines : list JsString) : list JsString :=
  match lines with
  | [] => dataLines
  | line :: rest =>
      if isHeader line then scanLines rest true dataLines
      else if inDataSection then
        if (isRule line || isBlank line)
           && (0 <? List.length dataLines)%nat
        then scanLines rest inDataSection dataLines
        else
          let dataLines :=
            if startsNumeric line && (List.length dataLines <? 1000)%nat
            then dataLines ++ [line]
            else dataLines in
          if mentionsStationInfo line then dataLines
          else scanLines rest inDataSection dataLines
      else scanLines rest inDataSection dataLines
  end.

(** [extractDataRows(text)] *)
Definition extractDataRows (text : JsString) : list JsString :=
  scanLines (split_lines text) false [].

(** What [parse] returns. *)
Record ParseResult : Type := {
  sounding : SoundingData;
  valid : bool
}.

(** One entry of [getWindData]. *)
Record WindDatum : Type := {
  wind_pressure : num;
  direction : num;
  speed : num
}.

Section Parser.

(** The host's [parseFloat], and the header scan [extractMetadata], whose
    result only the title reads. *)
Variable parseFloat : JsString -> num.
Variable extractMetadata : JsString -> Metadata.

(** [parseRow(line)]; [None] is [null].  Of the eleven columns it converts,
    [Level] keeps the six the program reads. *)
Definition parseRow (line : JsString) : option Level :=
  let values := split_spaces (trim line) false in
  if (List.length values <? 11)%nat then None
  else
    Some {| pressure := parseFloat (nth 0 values []);
            height := parseFloat (nth 1 values []);
            temp := parseFloat (nth 2 values []);
            dewpoint := parseFloat (nth 3 values []);
            windDir := parseFloat (nth 6 values []);
            windSpeed := parseFloat (nth 7 values []) |}.

(** [rows.map(row => this.parseRow(row)).filter(row => row !== null)] *)
Fixpoint parseRows (rows : list JsString) : list Level :=
  match rows with
  | [] => []
  | row :: rest =>
      match parseRow row with
      | Some level => level :: parseRows rest
      | None => parseRows rest
      end
  end.

(** [parse(rawText)] for a string [rawText]. *)
Definition parse (rawText : JsString) : ParseResult :=
  let metadata := extractMetadata rawText in
  let rows := extractDataRows rawText in
  let data := parseRows rows in
  {| sounding := {| metadata := Some metadata; data := Some data |};
     valid := (0 <? List.length data)%nat |}.

End Parser.

(** The callback of the loop of [getWindData]; the locals are [windData]
    and [lastPressure]. *)
Definition keepWind (interval : num) (s : list WindDatum * num) (row : Level)
  : list WindDatum * num :=
  let '(windData, lastPressure) := s in
  if negb (JS.isNaN (windDir row)) && negb (JS.isNaN (windSpeed row)) then
    if (lastPressure - pressure row >=? interval)%js
       || (pressure row >=? 1000)%js
    then (windData ++ [{| wind_pressure := pressure row;
                          direction := windDir row;
                          speed := windSpeed row |}],
          pressure row)
    else s
  else s.

(** [getWindData(interval)] on [this.data]. *)
Definition getWindData (data : option (list Level)) (interval : num)
  : list WindDatum :=
  match data with
  | None => []
  | Some rows => fst (fold_left (keepWind interval) rows ([], Fin 10000))
  end.

(** ** Definitions used to state the properties *)

(** The plain linear temperature-to-x map: [tempToX] without its skew term. *)
Definition linearTempToX (d : SkewTDiagram) (t : num) : num :=
  (left (margin d) + width d * ((t - tMin d) / (tMax d - tMin d)))%js.

(** The skew term of [tempToX]. *)
Definition skewOffset (d : SkewTDiagram) (p : num) : num :=
  (skew d * (JS.log (pMax d) - JS.log p))%js.

(** [rows[i]] and [rows[i + 1]] are the adjacent pair [a], [b]. *)
Definition adjacentAt {A : Type} (rows : list A) (i : nat) (a b : A) : Prop :=
  nth_error rows i = Some a /\ nth_error rows (S i) = Some b.

(** The fields of the view other than the height range and the profile. *)
Definition sameLayout (d d' : SkewTDiagram) : Prop :=
  pMin d' = pMin d /\ pMax d' = pMax d /\ tMin d' = tMin d
  /\ tMax d' = tMax d /\ skew d' = skew d /\ margin d' = margin d
  /\ width d' = width d /\ plotHeight d' = plotHeight d
  /\ canvas_width d' = canvas_width d /\ canvas_height d' = canvas_height d.

(** What [SoundingDataParser.parse] returns when no row parses:
    [{ metadata: {}, data: [], valid: false }]. *)
Definition emptySounding : SoundingData :=
  {| metadata := Some {| stationName := None; observationTime := None;
                         latitude := None; longitude := None |};
     data := Some [] |}.

(** A computation that returns: it neither throws nor runs out of fuel. *)
Definition succeeds {A : Type} (m : M A) : Prop := exists a, outcome m = Ok a.

(** A pressure-descending profile: pressures and heights are finite, and
    every level's pressure is strictly below that of every earlier level. *)
Inductive Descending : list Level -> Prop :=
| Descending_nil : Descending []
| Descending_cons (l : Level) (rest : list Level) (p h : R) :
    pressure l = Fin p ->
    height l = Fin h ->
    (forall l', In l' rest -> exists p', pressure l' = Fin p' /\ p' < p) ->
    Descending rest ->
    Descending (l :: rest).

(** A level given by its pressure and height alone. *)
Definition levelAt (p h : R) : Level :=
  {| pressure := Fin p; height := Fin h; temp := NaN; dewpoint := NaN;
     windDir := NaN; windSpeed := NaN |}.

(** The three-level profile [(1000 hPa, 0 m), (850 hPa, 1500 m),
    (700 hPa, 3000 m)]. *)
Definition threeLevels : list Level :=
  [levelAt 1000 0; levelAt 850 1500; levelAt 700 3000].

(** The diagram after a draw of the profile [rows]. *)
Definition loaded (d : SkewTDiagram) (rows : list Level) : SkewTDiagram :=
  storeSounding d (Some {| metadata := None; data := Some rows |}).

(** The number of counter values [v], [v - step], [v - 2 step], ... that
    pass the test [>= thr] before the first that fails. *)
Definition stepsAbove (v thr step : R) : nat :=
  Z.to_nat (up ((v - thr) / step)).

(** The greedy decomposition of a speed in km/h: pennants of 50 while the
    remainder is at least 47.5, then full barbs of 10 while it is at least
    7.5, then a half barb if it is at least 2.5. *)
Definition decompose (speedKmh : R) : nat * nat * bool :=
  let pennants := stepsAbove speedKmh 47.5 50 in
  let afterPennants := speedKmh - 50 * INR pennants in
  let fullBarbs := stepsAbove afterPennants 7.5 10 in
  let afterBarbs := afterPennants - 10 * INR fullBarbs in
  (pennants, fullBarbs, Rleb 2.5 afterBarbs).

Definition barbStyle : list Cmd :=
  [set_strokeStyle "#000000"; set_fillStyle "#000000"; set_lineWidth 1.5].

Definition barbAngle (direction : num) : num :=
  (direction * JS.PI / 180)%js.

(** The marks a barb carries on its staff. *)
Inductive Mark : Type :=
| Pennant
| FullBarb
| HalfBarb.

(** The canvas calls that draw one mark attached to the staff at the
    distance [snd m] from the anchor [(x, y)].  A pennant is a filled
    triangle with its base on the staff, from the point of attachment to 8
    units nearer the anchor, and its tip 10 units to the side; a full barb
    is a stroke of 10 units to the side, a half barb one of 10 / 2. *)
Definition markGlyph (x y angle perpAngle : num) (m : Mark * R) : list Cmd :=
  let dist := Fin (snd m) in
  let x1 := (x + JS.sin angle * dist)%js in
  let y1 := (y - JS.cos angle * dist)%js in
  match fst m with
  | Pennant =>
      let x2 := (x + JS.sin angle * (dist - 8))%js in
      let y2 := (y - JS.cos angle * (dist - 8))%js in
      [beginPath; moveTo x1 y1;
       lineTo (x2 + JS.sin perpAngle * 10)%js (y2 - JS.cos perpAngle * 10)%js;
       lineTo x2 y2; closePath; fill]
  | FullBarb =>
      [beginPath; moveTo x1 y1;
       lineTo (x1 + JS.sin perpAngle * 10)%js (y1 - JS.cos perpAngle * 10)%js;
       stroke]
  | HalfBarb =>
      [beginPath; moveTo x1 y1;
       lineTo (x1 + JS.sin perpAngle * (10 / 2))%js
              (y1 - JS.cos perpAngle * (10 / 2))%js;
       stroke]
  end.

(** The marks of a speed in km/h, in the order drawn, each with the
    distance from the anchor at which it is attached: the pennants from 30
    in steps of 10, then the full barbs in steps of 6, then the half
    barb. *)
Definition barbMarks (speedKmh : R) : list (Mark * R) :=
  let '(pennants, fullBarbs, half) := decompose speedKmh in
  map (fun k => (Pennant, 30 - 10 * INR k)) (List.seq 0 pennants)
  ++ map (fun k => (FullBarb, 30 - 10 * INR pennants - 6 * INR k))
       (List.seq 0 fullBarbs)
  ++ (if half
      then [(HalfBarb, 30 - 10 * INR pennants - 6 * INR fullBarbs)]
      else []).

(** The glyph of a speed in km/h, call by call: the style, then the calm
    circle alone, or the staff of 30 units followed by the marks. *)
Definition barbGlyph (x y direction : num) (speedKmh : R) : list Cmd :=
  let angle := barbAngle direction in
  let perpAngle := (angle - JS.PI / 2)%js in
  barbStyle ++
  if Rltb speedKmh 2.5
  then [beginPath; arc x y 4 0 (2 * JS.PI)%js; stroke]
  else [beginPath; moveTo x y;
        lineTo (x + JS.sin angle * 30)%js (y - JS.cos angle * 30)%js;
        stroke]
       ++ flat_map (markGlyph x y angle perpAngle) (barbMarks speedKmh).

(** [Number.MAX_SAFE_INTEGER], 2^53 - 1: up to it a double holds every
    integer, and the loops' steps of 5, 10, 50 and of the axis intervals
    are not absorbed. *)
Definition MAX_SAFE_INTEGER : R := 9007199254740991.

(** A number that is neither [NaN] nor an infinity. *)
Definition finite (a : num) : bool :=
  match a with
  | Fin _ => true
  | _ => false
  end.

(** No adjacent pair of [rows] brackets [targetHeight]. *)
Definition noBracket (rows : list Level) (targetHeight : num) : Prop :=
  forall (i : nat) (lower upper : Level),
    adjacentAt rows i lower upper -> brackets lower upper targetHeight = false.

(** What the closest-point scan knows after the rows [seen]: nothing yet
    with a finite height, or a nearest level among those with one. *)
Definition nearestAmong (seen : list Level) (t : R) (s : option Level * num)
  : Prop :=
  match fst s with
  | None => snd s = PInf /\ forall l, In l seen -> finite (height l) = false
  | Some l =>
      In l seen
      /\ exists h, height l = Fin h /\ snd s = Fin (Rabs (h - t))
         /\ forall l' h', In l' seen -> height l' = Fin h' ->
                          Rabs (h - t) <= Rabs (h' - t)
  end.

(** A level whose height is missing. *)
Definition levelWithoutHeight : Level :=
  {| pressure := Fin 1000; height := NaN; temp := Fin 10; dewpoint := Fin 5;
     windDir := Fin 180; windSpeed := Fin 3 |}.

(** The parser's result for the rows [rows], without metadata. *)
Definition soundingOf (rows : list Level) : SoundingData :=
  {| metadata := None; data := Some rows |}.

(** [rows[i]], [rows[i + 1]] is the first adjacent pair that brackets
    [targetHeight]: the pair the search loop returns from. *)
Definition firstBracket (rows : list Level) (targetHeight : num) (i : nat)
    (lower upper : Level) : Prop :=
  adjacentAt rows i lower upper
  /\ brackets lower upper targetHeight = true
  /\ forall (j : nat) (a b : Level),
       (j < i)%nat -> adjacentAt rows j a b ->
       brackets a b targetHeight = false.

(** The attributes [interpolateDataAtHeight] interpolates. *)
Definition attributes : list (Level -> num) :=
  [pressure; temp; dewpoint; windSpeed; windDir].

(** Two adjacent levels at the same height, the first without a
    temperature. *)
Definition lowerDup : Level :=
  {| pressure := Fin 900; height := Fin 1000; temp := NaN; dewpoint := Fin 5;
     windDir := Fin 180; windSpeed := Fin 3 |}.

Definition upperDup : Level :=
  {| pressure := Fin 899; height := Fin 1000; temp := Fin 10;
     dewpoint := Fin 4; windDir := Fin 190; windSpeed := Fin 4 |}.

(** Two levels 1000 m apart, the first without a temperature. *)
Definition lowerGap : Level :=
  {| pressure := Fin 900; height := Fin 1000; temp := NaN; dewpoint := Fin 5;
     windDir := Fin 180; windSpeed := Fin 3 |}.

Definition upperGap : Level :=
  {| pressure := Fin 800; height := Fin 2000; temp := Fin 10;
     dewpoint := Fin 4; windDir := Fin 190; windSpeed := Fin 4 |}.

(** The potential temperatures of the dry adiabats: 200 to 500 K in steps
    of 10. *)
Definition thetaValues : list num :=
  map Fin [200; 210; 220; 230; 240; 250; 260; 270; 280; 290; 300; 310; 320;
           330; 340; 350; 360; 370; 380; 390; 400; 410; 420; 430; 440; 450;
           460; 470; 480; 490; 500].

(** The pressures of a sweep from [hi] down to [lo] in steps of [step]. *)
Definition pressureSweep (hi lo step : R) : list num :=
  map (fun k => Fin (hi - step * INR k)) (List.seq 0 (stepsAbove hi lo step)).

(** The dry-adiabat generator as the design describes it: one polyline per
    potential temperature, one candidate point per pressure of the sweep. *)
Definition dryAdiabatsSpec (d : SkewTDiagram) (hi lo : R) : M unit :=
  emit (set_strokeStyle "rgba(255, 140, 0, 0.4)") ;;
  emit (set_lineWidth 1) ;;
  forEach thetaValues
    (fun theta _ =>
       emit beginPath ;;
       forEach (pressureSweep hi lo 5)
         (fun p firstPoint =>
            adiabatPoint d (dryAdiabatTemp theta p) p firstPoint)
         true ;;
       emit stroke)
    tt.

(** The vertices of the paths in a sequence of canvas calls. *)
Fixpoint vertices (cmds : list Cmd) : list (num * num) :=
  match cmds with
  | [] => []
  | moveTo x y :: rest => (x, y) :: vertices rest
  | lineTo x y :: rest => (x, y) :: vertices rest
  | _ :: rest => vertices rest
  end.

(** The point a level gets on the temperature and on the dewpoint polyline. *)
Definition temperatureVertex (d : SkewTDiagram) (row : Level) : num * num :=
  (tempToX d (temp row) (pressure row), heightToY d (height row)).

Definition dewpointVertex (d : SkewTDiagram) (row : Level) : num * num :=
  (tempToX d (dewpoint row) (pressure row), heightToY d (height row)).

(** A level inside the window of heights [hlo..hhi] and pressures
    [plo..phi]: none of the four tests that skip a row holds. *)
Definition insideWindow (hlo hhi plo phi : num) (row : Level) : bool :=
  negb (height row <? hlo)%js && negb (height row >? hhi)%js
  && negb (pressure row <? plo)%js && negb (pressure row >? phi)%js.

(** [pressureToHeight] has rows to read: no profile, or one with a level. *)
Definition profileReadable (d : SkewTDiagram) : Prop :=
  match soundingData d with
  | Some sd => data sd <> Some []
  | None => True
  end.

(** A profile with temperatures: one level below the zoomed window, one
    inside it, one above it. *)
Definition lowLevel : Level :=
  {| pressure := Fin 1000; height := Fin 300; temp := Fin 15;
     dewpoint := Fin 10; windDir := Fin 180; windSpeed := Fin 3 |}.

Definition midLevel : Level :=
  {| pressure := Fin 850; height := Fin 1500; temp := Fin 5;
     dewpoint := NaN; windDir := Fin 200; windSpeed := Fin 8 |}.

Definition highLevel : Level :=
  {| pressure := Fin 500; height := Fin 5600; temp := Fin (-20);
     dewpoint := Fin (-30); windDir := Fin 250; windSpeed := Fin 20 |}.

Definition sampleLevels : list Level := [lowLevel; midLevel; highLevel].

(** A pressure-ascending profile: finite pressures and heights, each level's
    pressure strictly above that of the level before it. *)
Inductive Ascending : list Level -> Prop :=
| Ascending_nil : Ascending []
| Ascending_one (l : Level) (p h : R) :
    pressure l = Fin p -> height l = Fin h -> Ascending [l]
| Ascending_cons (l1 l2 : Level) (rest : list Level) (p1 h1 p2 : R) :
    pressure l1 = Fin p1 -> height l1 = Fin h1 ->
    pressure l2 = Fin p2 -> p1 < p2 ->
    Ascending (l2 :: rest) ->
    Ascending (l1 :: l2 :: rest).

(** The three-level profile in the opposite order. *)
Definition threeLevelsAscending : list Level :=
  [levelAt 700 3000; levelAt 850 1500; levelAt 1000 0].

(** The heights labelled on the axis: the numbers of the [h + ' m'] labels,
    in the order they are drawn. *)
Fixpoint axisTicks (cmds : list Cmd) : list num :=
  match cmds with
  | [] => []
  | fillText (TCat (TNum h) (TStr " m")) _ _ :: rest => h :: axisTicks rest
  | _ :: rest => axisTicks rest
  end.

(** The test of [drawWindBarbs] for a row that may carry a barb. *)
Definition windVisible (d : SkewTDiagram) (row : Level) : bool :=
  (pressure row >=? pMin d)%js && (pressure row <=? pMax d)%js
  && (height row >=? hMin d)%js && (height row <=? hMax d)%js
  && negb (JS.isNaN (windSpeed row)) && negb (JS.isNaN (windDir row)).

(** The height interval of [drawWindBarbs] and the rows it keeps. *)
Definition barbInterval (d : SkewTDiagram) : num :=
  if (hMax d - hMin d <? 5000)%js then 250 else 500.

Definition windRows (d : SkewTDiagram) (rows : list Level) : list Level :=
  fst (fold_left (selectWindRow d (barbInterval d)) rows ([], Fin (-10000))).

(** Every level of [l] is at least [interval] away in height from the one
    before it, the first from [prev]. *)
Fixpoint spacedFrom (interval prev : num) (l : list Level) : Prop :=
  match l with
  | [] => True
  | a :: rest =>
      (JS.abs (height a - prev) >=? interval)%js = true
      /\ spacedFrom interval (height a) rest
  end.

Definition spaced (interval : num) (l : list Level) : Prop :=
  match l with
  | [] => True
  | a :: rest => spacedFrom interval (height a) rest
  end.

(** The height of the last level of [l], or [init] for none. *)
Definition lastHeight (l : list Level) (init : num) : num :=
  fold_left (fun _ row => height row) l init.

(** A computation that does not throw: it returns, or it is still running
    when the fuel is spent. *)
Definition neverThrows {A : Type} (m : M A) : Prop :=
  forall e, outcome m <> Throw e.

(** The mouse position in canvas coordinates, as [handleCanvasHover]
    computes it from the bounding rectangle. *)
Definition canvasPoint (d : SkewTDiagram) (rect : ClientRect)
    (clientX clientY : num) : num * num :=
  (((clientX - rect_left rect) * (canvas_width d / rect_width rect))%js,
   ((clientY - rect_top rect) * (canvas_height d / rect_height rect))%js).

(** [level] is a level of [rows] with a finite height that is nearest to the
    height [t]. *)
Definition nearestLevel (rows : list Level) (t : R) (level : Level) : Prop :=
  In level rows
  /\ exists h, height level = Fin h
     /\ forall l' h', In l' rows -> height l' = Fin h' ->
                      Rabs (h - t) <= Rabs (h' - t).

(** What the scan for the lowest height knows after the rows [seen]:
    [Infinity] while every height was [NaN], otherwise the least height. *)
Definition lowestAmong (seen : list Level) (minH : num) : Prop :=
  (minH = PInf /\ forall l, In l seen -> height l = NaN)
  \/ exists m, minH = Fin m
       /\ (exists l, In l seen /\ height l = Fin m)
       /\ forall l h, In l seen -> height l = Fin h -> m <= h.

(** Every height of [rows] is a finite number or [NaN]. *)
Definition heightsReadable (rows : list Level) : Prop :=
  forall l, In l rows -> height l = NaN \/ exists h, height l = Fin h.

(** The lines after the first header line. *)
Fixpoint afterHeader (lines : list JsString) : list JsString :=
  match lines with
  | [] => []
  | line :: rest => if isHeader line then rest else afterHeader rest
  end.

(** The lines up to and including the first one that is no header line and
    mentions the station information. *)
Fixpoint upToStation (lines : list JsString) : list JsString :=
  match lines with
  | [] => []
  | line :: rest =>
      if negb (isHeader line) && mentionsStationInfo line
      then [line]
      else line :: upToStation rest
  end.

(** A line that starts with digits and is no header line. *)
Definition dataLine (line : JsString) : bool :=
  startsNumeric line && negb (isHeader line).

(** The code units a rule or a blank line is made of. *)
Definition dashOrSpace (c : CodeUnit) : bool := (c =? 45)%N || isSpace c.

(** The level [parseRow] builds from the pieces [values] of a line. *)
Definition levelOf (parseFloat : JsString -> num) (values : list JsString)
  : Level :=
  {| pressure := parseFloat (nth 0 values []);
     height := parseFloat (nth 1 values []);
     temp := parseFloat (nth 2 values []);
     dewpoint := parseFloat (nth 3 values []);
     windDir := parseFloat (nth 6 values []);
     windSpeed := parseFloat (nth 7 values []) |}.

(** The entry [getWindData] makes of a row, and its test for a row that
    has wind. *)
Definition windDatumOf (row : Level) : WindDatum :=
  {| wind_pressure := pressure row;
     direction := windDir row;
     speed := windSpeed row |}.

Definition hasWind (row : Level) : bool :=
  negb (JS.isNaN (windDir row)) && negb (JS.isNaN (windSpeed row)).

(** Every entry of [l] lies at least [interval] below the one before it in
    pressure, the first below [prev], or has a pressure of at least 1000. *)
Fixpoint steppedFrom (interval prev : num) (l : list WindDatum) : Prop :=
  match l with
  | [] => True
  | w :: rest =>
      (prev - wind_pressure w >=? interval)%js
      || (wind_pressure w >=? 1000)%js = true
      /\ steppedFrom interval (wind_pressure w) rest
  end.

(** A number of magnitude at most [Number.MAX_SAFE_INTEGER]. *)
Definition safe (x : R) : Prop :=
  - MAX_SAFE_INTEGER <= x <= MAX_SAFE_INTEGER.

(** * Properties *)

(** ** Numbers *)

Lemma Rleb_true (x y : R) : Rleb x y = true <-> x <= y.
Proof. unfold Rleb; destruct (Rle_dec x y); split; intros; try lra; congruence. Qed.

Lemma Rleb_false (x y : R) : Rleb x y = false <-> y < x.
Proof. unfold Rleb; destruct (Rle_dec x y); split; intros; try lra; congruence. Qed.

Lemma Rltb_true (x y : R) : Rltb x y = true <-> x < y.
Proof. unfold Rltb; destruct (Rlt_dec x y); split; intros; try lra; congruence. Qed.

Lemma Rltb_false (x y : R) : Rltb x y = false <-> y <= x.
Proof. unfold Rltb; destruct (Rlt_dec x y); split; intros; try lra; congruence. Qed.

Lemma Reqb_true (x y : R) : Reqb x y = true <-> x = y.
Proof. unfold Reqb; destruct (Req_dec_T x y); split; intros; try lra; congruence. Qed.

Lemma Reqb_false (x y : R) : Reqb x y = false <-> x <> y.
Proof. unfold Reqb; destruct (Req_dec_T x y); split; intros; try lra; congruence. Qed.

(** Decide every comparison of reals in the goal by linear arithmetic. *)
Ltac rcmp :=
  repeat match goal with
  | |- context [Rleb ?a ?b] =>
      first [ rewrite (proj2 (Rleb_true a b)) by lra
            | rewrite (proj2 (Rleb_false a b)) by lra ]
  | |- context [Rltb ?a ?b] =>
      first [ rewrite (proj2 (Rltb_true a b)) by lra
            | rewrite (proj2 (Rltb_false a b)) by lra ]
  | |- context [Reqb ?a ?b] =>
      first [ rewrite (proj2 (Reqb_true a b)) by lra
            | rewrite (proj2 (Reqb_false a b)) by lra ]
  end.

Lemma Fin_eq (x y : R) : x = y -> Fin x = Fin y.
Proof. intros ->; reflexivity. Qed.

Lemma add_zero_r (a : num) : (a + Fin 0)%js = a.
Proof. destruct a; simpl; try reflexivity. apply Fin_eq; lra. Qed.

Lemma sub_Fin (x y : R) : (Fin x - Fin y)%js = Fin (x - y).
Proof. reflexivity. Qed.

Lemma log_Fin (x : R) : 0 < x -> JS.log (Fin x) = Fin (ln x).
Proof. intros H; simpl; rcmp; reflexivity. Qed.

Lemma pow_Fin (x y : R) :
  0 < x -> y <> 0 -> JS.pow (Fin x) (Fin y) = Fin (Rpower x y).
Proof. intros Hx Hy; simpl; rcmp; reflexivity. Qed.

(** ** C9: the pressure-to-y map *)

Lemma prop_returns_or_throws {A B : Type} (rows : list A) (i : nat)
    (field : A -> B) :
  prop rows i field <> OutOfFuel.
Proof. unfold prop; destruct (nth_error rows i); discriminate. Qed.

Lemma pressureToHeight_returns_or_throws (d : SkewTDiagram) (p : num) :
  pressureToHeight d p <> OutOfFuel.
Proof.
  unfold pressureToHeight.
  destruct (soundingData d) as [sd|]; [|discriminate].
  destruct (data sd) as [rows|]; [|discriminate].
  destruct (pressureSearch rows p); [discriminate|].
  destruct (prop rows 0 pressure) eqn:E0; try discriminate.
  - destruct (p >=? a)%js; [apply prop_returns_or_throws|].
    destruct (prop rows (List.length rows - 1) pressure) eqn:E1;
      try discriminate.
    + destruct (p <=? a0)%js; [apply prop_returns_or_throws|discriminate].
    + exfalso; exact (prop_returns_or_throws _ _ _ E1).
  - exfalso; exact (prop_returns_or_throws _ _ _ E0).
Qed.

(** C9. For every pressure [p], and so for every pressure of a loaded
    profile, [pressureToY(p)] is exactly [heightToY] applied to the result
    of [pressureToHeight(p)]; where [pressureToHeight] throws, so does
    [pressureToY]. *)
Theorem pressureToY_composition (d : SkewTDiagram) (p : num) :
  pressureToY d p = omap (heightToY d) (pressureToHeight d p)
  /\ match pressureToHeight d p with
     | Ok h => pressureToY d p = Ok (heightToY d h)
     | Throw e => pressureToY d p = Throw e
     | OutOfFuel => False
     end.
Proof.
  split; [reflexivity|].
  unfold pressureToY.
  destruct (pressureToHeight d p) as [h|e|] eqn:E; try reflexivity.
  exact (pressureToHeight_returns_or_throws d p E).
Qed.

(** ** C10: what [setHeightRange] and [draw] assign *)

(** C10. [setHeightRange(min, max)] assigns [hMin] and [hMax] its arguments,
    whatever they are, and nothing else; [draw(soundingData)] assigns the
    stored [soundingData] and nothing else, whether the call returns or
    not.  [pMin], [pMax], [tMin], [tMax], [skew] and the margin layout are
    those of the diagram before the call. *)
Theorem setHeightRange_draw_frame (fuel : nat) (d : SkewTDiagram)
    (minHeight maxHeight : num) (sd : option SoundingData) :
  (hMin (setHeightRange d minHeight maxHeight) = minHeight
   /\ hMax (setHeightRange d minHeight maxHeight) = maxHeight
   /\ soundingData (setHeightRange d minHeight maxHeight) = soundingData d
   /\ sameLayout d (setHeightRange d minHeight maxHeight))
  /\ (soundingData (fst (draw fuel d sd)) = sd
      /\ hMin (fst (draw fuel d sd)) = hMin d
      /\ hMax (fst (draw fuel d sd)) = hMax d
      /\ sameLayout d (fst (draw fuel d sd))).
Proof. unfold sameLayout; simpl; repeat split; reflexivity. Qed.

(** ** C7: the skew term of [tempToX] *)

Lemma tempToX_split (d : SkewTDiagram) (t p : num) :
  tempToX d t p = (linearTempToX d t + skewOffset d p)%js.
Proof. reflexivity. Qed.

(** C7. In a view whose [pMax] is a positive pressure and whose [skew] is a
    number, [tempToX(t, pMax)] is the plain linear map of [t], the skew
    offset being [skew * (ln pMax - ln pMax) = 0]; and at every pressure
    [0 < p < pMax] the skew offset is [skew * (ln pMax - ln p)], which is
    strictly positive when [skew > 0]. *)
Theorem tempToX_skew (d : SkewTDiagram) (t : num) (pmax k : R) :
  pMax d = Fin pmax -> 0 < pmax -> skew d = Fin k ->
  skewOffset d (pMax d) = Fin 0
  /\ tempToX d t (pMax d) = linearTempToX d t
  /\ forall p : R, 0 < p < pmax -> 0 < k ->
       skewOffset d (Fin p) = Fin (k * (ln pmax - ln p))
       /\ 0 < k * (ln pmax - ln p)
       /\ tempToX d t (Fin p)
          = (linearTempToX d t + Fin (k * (ln pmax - ln p)))%js.
Proof.
  intros HpMax Hpos Hskew.
  assert (H0 : skewOffset d (pMax d) = Fin 0).
  { unfold skewOffset. rewrite HpMax, Hskew, log_Fin by assumption.
    simpl. apply Fin_eq. lra. }
  split; [exact H0|]. split.
  - rewrite tempToX_split, H0. apply add_zero_r.
  - intros p [Hp Hlt] Hk.
    assert (Hoff : skewOffset d (Fin p) = Fin (k * (ln pmax - ln p))).
    { unfold skewOffset. rewrite HpMax, Hskew, !log_Fin by assumption.
      reflexivity. }
    split; [exact Hoff|]. split.
    + pose proof (ln_increasing p pmax Hp Hlt). nra.
    + rewrite tempToX_split, Hoff. reflexivity.
Qed.

(** The default view of the constructor: [pMax = 1050], [skew = 35]; the
    offset at 500 hPa is positive. *)
Lemma tempToX_skew_witness :
  skewOffset (new_SkewTDiagram 1000 800) (Fin 1050) = Fin 0
  /\ tempToX (new_SkewTDiagram 1000 800) 20 (Fin 1050)
     = linearTempToX (new_SkewTDiagram 1000 800) 20
  /\ 0 < 35 * (ln 1050 - ln 500).
Proof.
  pose proof (tempToX_skew (new_SkewTDiagram 1000 800) 20 1050 35
                eq_refl ltac:(lra) eq_refl) as [H0 [H1 H2]].
  destruct (H2 500 ltac:(lra) ltac:(lra)) as [_ [Hpos _]].
  split; [exact H0 | split; [exact H1 | exact Hpos]].
Defined.

(** ** Computations that draw *)

Lemma outcome_bind {A B : Type} (m : M A) (f : A -> M B) :
  outcome (bind m f)
  = match outcome m with
    | Ok a => outcome (f a)
    | Throw e => Throw e
    | OutOfFuel => OutOfFuel
    end.
Proof.
  destruct m as [[a|e|] t]; simpl; try reflexivity.
  destruct (f a); reflexivity.
Qed.

Lemma trace_bind {A B : Type} (m : M A) (f : A -> M B) :
  trace (bind m f)
  = trace m ++ match outcome m with
               | Ok a => trace (f a)
               | _ => []
               end.
Proof.
  destruct m as [[a|e|] t]; simpl; try (rewrite app_nil_r; reflexivity).
  destruct (f a); reflexivity.
Qed.

Lemma M_eq {A : Type} (m m' : M A) :
  outcome m = outcome m' -> trace m = trace m' -> m = m'.
Proof. destruct m, m'; simpl; intros -> ->; reflexivity. Qed.

Lemma bind_ret_l {A B : Type} (a : A) (f : A -> M B) : bind (ret a) f = f a.
Proof. apply M_eq; [rewrite outcome_bind | rewrite trace_bind]; reflexivity. Qed.

Lemma bind_ext {A B : Type} (m : M A) (f g : A -> M B) :
  (forall a, f a = g a) -> bind m f = bind m g.
Proof.
  intros H; destruct m as [[a|e|] t]; simpl; try reflexivity.
  rewrite H; reflexivity.
Qed.

Lemma succeeds_bind {A B : Type} (m : M A) (f : A -> M B) :
  succeeds m -> (forall a, succeeds (f a)) -> succeeds (bind m f).
Proof.
  intros [a Ha] Hf. destruct (Hf a) as [b Hb].
  exists b. rewrite outcome_bind, Ha. exact Hb.
Qed.

Lemma succeeds_emit (c : Cmd) : succeeds (emit c).
Proof. exists tt; reflexivity. Qed.

Lemma succeeds_ret {A : Type} (a : A) : succeeds (ret a).
Proof. exists a; reflexivity. Qed.

Lemma succeeds_forEach {A S : Type} (rows : list A) (body : A -> S -> M S) :
  (forall row s, In row rows -> succeeds (body row s)) ->
  forall s, succeeds (forEach rows body s).
Proof.
  induction rows as [|row rest IH]; intros Hbody s; simpl.
  - apply succeeds_ret.
  - apply succeeds_bind.
    + apply Hbody; left; reflexivity.
    + intros s'. apply IH. intros r s0 Hin. apply Hbody; right; exact Hin.
Qed.

Lemma forEach_ext {A S : Type} (rows : list A) (f g : A -> S -> M S) :
  (forall row s, f row s = g row s) ->
  forall s, forEach rows f s = forEach rows g s.
Proof.
  intros H; induction rows as [|row rest IH]; intros s; simpl.
  - reflexivity.
  - rewrite H. apply bind_ext. exact IH.
Qed.

Lemma for_loop_S {S : Type} (n : nat) (cond : num -> bool)
    (next : num -> num) (body : num -> S -> M S) (i : num) (s : S) :
  for_loop (Datatypes.S n) cond next body i s
  = if cond i
    then s' <- body i s ;; for_loop n cond next body (next i) s'
    else ret s.
Proof. reflexivity. Qed.

(** A downward [for] loop over reals is a [forEach] over its counter
    values, given fuel for every test of its condition. *)
Lemma for_loop_down_forEach {S : Type} (body : num -> S -> M S) (lo c : R) :
  forall (n fuel : nat) (x : R) (s : S),
    (forall k, (k < n)%nat -> lo <= x - c * INR k) ->
    x - c * INR n < lo ->
    (n < fuel)%nat ->
    for_loop fuel (fun p => (p >=? Fin lo)%js) (fun p => (p - Fin c)%js)
      body (Fin x) s
    = forEach (map (fun k => Fin (x - c * INR k)) (List.seq 0 n)) body s.
Proof.
  induction n as [|n IH]; intros fuel x s Hin Hout Hfuel;
    (destruct fuel as [|fuel]; [lia|]); rewrite for_loop_S; cbv beta;
    change (Fin x >=? Fin lo)%js with (Rleb lo x).
  - simpl in Hout. rewrite (proj2 (Rleb_false lo x)) by lra.
    reflexivity.
  - pose proof (Hin 0%nat ltac:(lia)) as H0. simpl in H0.
    rewrite (proj2 (Rleb_true lo x)) by lra.
    cbn [List.seq map forEach].
    replace (x - c * INR 0) with x by (simpl; lra).
    apply bind_ext; intros s'.
    rewrite <- seq_shift, map_map.
    change (Fin x - Fin c)%js with (Fin (x - c)).
    rewrite (IH fuel (x - c) s').
    + f_equal. apply map_ext; intros k. apply Fin_eq. rewrite S_INR. lra.
    + intros k Hk. pose proof (Hin (Datatypes.S k) ltac:(lia)) as Hk'.
      rewrite S_INR in Hk'. lra.
    + rewrite S_INR in Hout. lra.
    + lia.
Qed.

(** The same for an upward loop. *)
Lemma for_loop_up_forEach {S : Type} (body : num -> S -> M S) (hi c : R) :
  forall (n fuel : nat) (x : R) (s : S),
    (forall k, (k < n)%nat -> x + c * INR k <= hi) ->
    hi < x + c * INR n ->
    (n < fuel)%nat ->
    for_loop fuel (fun p => (p <=? Fin hi)%js) (fun p => (p + Fin c)%js)
      body (Fin x) s
    = forEach (map (fun k => Fin (x + c * INR k)) (List.seq 0 n)) body s.
Proof.
  induction n as [|n IH]; intros fuel x s Hin Hout Hfuel;
    (destruct fuel as [|fuel]; [lia|]); rewrite for_loop_S; cbv beta;
    change (Fin x <=? Fin hi)%js with (Rleb x hi).
  - simpl in Hout. rewrite (proj2 (Rleb_false x hi)) by lra.
    reflexivity.
  - pose proof (Hin 0%nat ltac:(lia)) as H0. simpl in H0.
    rewrite (proj2 (Rleb_true x hi)) by lra.
    cbn [List.seq map forEach].
    replace (x + c * INR 0) with x by (simpl; lra).
    apply bind_ext; intros s'.
    rewrite <- seq_shift, map_map.
    change (Fin x + Fin c)%js with (Fin (x + c)).
    rewrite (IH fuel (x + c) s').
    + f_equal. apply map_ext; intros k. apply Fin_eq. rewrite S_INR. lra.
    + intros k Hk. pose proof (Hin (Datatypes.S k) ltac:(lia)) as Hk'.
      rewrite S_INR in Hk'. lra.
    + rewrite S_INR in Hout. lra.
    + lia.
Qed.

Lemma for_loop_up_succeeds {S : Type} (body : num -> S -> M S) (hi c : R) :
  (forall i s, succeeds (body i s)) ->
  forall (n fuel : nat) (x : R) (s : S),
    hi < x + c * INR n -> (n < fuel)%nat ->
    succeeds (for_loop fuel (fun p => (p <=? Fin hi)%js)
                (fun p => (p + Fin c)%js) body (Fin x) s).
Proof.
  intros Hbody.
  induction n as [|n IH]; intros fuel x s Hout Hfuel;
    (destruct fuel as [|fuel]; [lia|]); rewrite for_loop_S; cbv beta;
    change (Fin x <=? Fin hi)%js with (Rleb x hi).
  - simpl in Hout. rewrite (proj2 (Rleb_false x hi)) by lra.
    apply succeeds_ret.
  - destruct (Rleb x hi); [|apply succeeds_ret].
    apply succeeds_bind; [apply Hbody|]. intros s'.
    change (Fin x + Fin c)%js with (Fin (x + c)).
    apply IH; [rewrite S_INR in Hout; lra | lia].
Qed.

Lemma for_loop_down_succeeds {S : Type} (body : num -> S -> M S) (lo c : R) :
  (forall i s, succeeds (body i s)) ->
  forall (n fuel : nat) (x : R) (s : S),
    x - c * INR n < lo -> (n < fuel)%nat ->
    succeeds (for_loop fuel (fun p => (p >=? Fin lo)%js)
                (fun p => (p - Fin c)%js) body (Fin x) s).
Proof.
  intros Hbody.
  induction n as [|n IH]; intros fuel x s Hout Hfuel;
    (destruct fuel as [|fuel]; [lia|]); rewrite for_loop_S; cbv beta;
    change (Fin x >=? Fin lo)%js with (Rleb lo x).
  - simpl in Hout. rewrite (proj2 (Rleb_false lo x)) by lra.
    apply succeeds_ret.
  - destruct (Rleb lo x); [|apply succeeds_ret].
    apply succeeds_bind; [apply Hbody|]. intros s'.
    change (Fin x - Fin c)%js with (Fin (x - c)).
    apply IH; [rewrite S_INR in Hout; lra | lia].
Qed.

Lemma Int_part_IZR (r : R) (z : Z) : r = IZR z -> Int_part r = z.
Proof. intros ->. symmetry. apply Int_part_spec. lra. Qed.

(** ** C1: drawing an empty profile *)

(** The height axis of the default view: ticks at 0, 500, ..., 4500. *)
Lemma drawHeightAxis_default (cw ch : num) (sd : option SoundingData)
    (fuel : nat) :
  (10 < fuel)%nat ->
  succeeds (drawHeightAxis fuel (storeSounding (new_SkewTDiagram cw ch) sd)).
Proof.
  intros Hfuel. unfold drawHeightAxis.
  repeat (apply succeeds_bind; [apply succeeds_emit | intros _]).
  apply succeeds_bind; [|intros _; apply succeeds_emit].
  cbn [hMax hMin storeSounding new_SkewTDiagram].
  change (Fin 4500 - Fin 0)%js with (Fin (4500 - 0)).
  unfold heightInterval; simpl le; rcmp.
  simpl div; rcmp. unfold ceil.
  rewrite (Int_part_IZR (- (0 / 500)) 0) by lra.
  change (Fin (- 0) * Fin 500)%js with (Fin (- 0 * 500)).
  apply (for_loop_up_succeeds _ 4500 500) with (n := 10%nat).
  - intros i s. repeat (apply succeeds_bind; [apply succeeds_emit | intros _]).
    apply succeeds_emit.
  - simpl; lra.
  - exact Hfuel.
Qed.

Lemma pressureToHeight_empty (d : SkewTDiagram) (sd : SoundingData) (p : num) :
  soundingData d = Some sd -> data sd = Some [] ->
  pressureToHeight d p = Throw TypeError.
Proof. intros H1 H2; unfold pressureToHeight; rewrite H1, H2; reflexivity. Qed.

(** C1 (as the code has it).  On the parser's empty result
    [{ metadata: {}, data: [], valid: false }] and the constructor's view,
    the profile phases are skipped, as [draw] guards them with
    [data.length > 0]; but [draw] does not get that far: after the height
    axis, the first isobar (1000 hPa) asks [pressureToHeight], whose
    fallback test [!this.soundingData.data] lets the empty array through and
    whose boundary rule then reads [data[0].pressure] of [undefined].  The
    [TypeError] leaves [pressureToHeight], [pressureToY] and [draw]. *)
Theorem draw_empty_profile_throws (cw ch : num) (fuel : nat) :
  (10 < fuel)%nat ->
  let this := fst (draw fuel (new_SkewTDiagram cw ch) (Some emptySounding)) in
  drawProfile fuel this (Some emptySounding) = ret tt
  /\ pressureToHeight this (Fin 1000) = Throw TypeError
  /\ pressureToY this (Fin 1000) = Throw TypeError
  /\ outcome (snd (draw fuel (new_SkewTDiagram cw ch) (Some emptySounding)))
     = Throw TypeError.
Proof.
  intros Hfuel. cbv zeta.
  split; [reflexivity|]. split; [reflexivity|]. split; [reflexivity|].
  unfold draw, snd, drawFrame.
  rewrite !outcome_bind. cbn [outcome emit fst].
  destruct (drawHeightAxis_default cw ch (Some emptySounding) fuel Hfuel)
    as [[] ->].
  unfold drawPressureLines.
  rewrite !outcome_bind. cbn [outcome emit fst].
  unfold majorPressures. cbn [map forEach].
  rewrite outcome_bind.
  unfold drawIsobar at 1.
  cbn [pMin pMax storeSounding new_SkewTDiagram].
  simpl lt. simpl gt. unfold gt. simpl lt. rcmp. cbn [orb].
  rewrite outcome_bind. reflexivity.
Qed.

Lemma draw_empty_profile_throws_witness :
  outcome (snd (draw 11 (new_SkewTDiagram 1000 800) (Some emptySounding)))
  = Throw TypeError.
Proof.
  exact (proj2 (proj2 (proj2
           (draw_empty_profile_throws 1000 800 11 ltac:(lia))))).
Defined.


(** ** C2: [pressureToHeight] *)

Lemma pressureSearch_cons (l1 l2 : Level) (rest : list Level) (p : num) :
  pressureSearch (l1 :: l2 :: rest) p
  = if (pressure l1 >=? p)%js && (pressure l2 <=? p)%js
    then Some (height l1 + (p - pressure l1) / (pressure l2 - pressure l1)
                           * (height l2 - height l1))%js
    else pressureSearch (l2 :: rest) p.
Proof. reflexivity. Qed.

Lemma pressureSearch_all_below (rows : list Level) (p : R) :
  (forall l, In l rows -> exists q, pressure l = Fin q /\ q < p) ->
  pressureSearch rows (Fin p) = None.
Proof.
  induction rows as [|l1 [|l2 rest] IH]; intros H; try reflexivity.
  rewrite pressureSearch_cons.
  destruct (H l1 (or_introl eq_refl)) as [q [-> Hq]].
  change (Fin q >=? Fin p)%js with (Rleb p q).
  rewrite (proj2 (Rleb_false p q)) by lra. cbn [andb].
  apply IH. intros l Hl. apply H. right; exact Hl.
Qed.

Lemma pressureSearch_all_above (rows : list Level) (p : R) :
  (forall l, In l rows -> exists q, pressure l = Fin q /\ p < q) ->
  pressureSearch rows (Fin p) = None.
Proof.
  induction rows as [|l1 [|l2 rest] IH]; intros H; try reflexivity.
  rewrite pressureSearch_cons.
  destruct (H l2 (or_intror (or_introl eq_refl))) as [q [Hq2 Hq]].
  rewrite Hq2.
  change (Fin q <=? Fin p)%js with (Rleb q p).
  rewrite (proj2 (Rleb_false q p)) by lra. rewrite andb_false_r.
  apply IH. intros l Hl. apply H. right; exact Hl.
Qed.

Lemma Descending_head_max (l : Level) (rest : list Level) (p : R) :
  Descending (l :: rest) -> pressure l = Fin p ->
  forall l', In l' (l :: rest) -> exists q, pressure l' = Fin q /\ q <= p.
Proof.
  intros HD Hp l' [<-|Hin].
  - exists p; split; [exact Hp | lra].
  - inversion HD as [|? ? p0 h0 Hp0 _ Hlt _]; subst.
    rewrite Hp in Hp0; injection Hp0 as <-.
    destruct (Hlt l' Hin) as [q [Hq Hlt']]. exists q; split; [exact Hq | lra].
Qed.

Lemma Descending_last_min (rows : list Level) :
  Descending rows ->
  forall (lastL : Level) (p : R),
    nth_error rows (List.length rows - 1) = Some lastL ->
    pressure lastL = Fin p ->
    forall l', In l' rows -> exists q, pressure l' = Fin q /\ p <= q.
Proof.
  induction 1 as [|l rest p0 h0 Hp0 Hh0 Hlt HD IH];
    intros lastL p Hlast Hp l' Hin; [destruct Hin|].
  destruct rest as [|l2 rest'].
  - simpl in Hlast. injection Hlast as <-. destruct Hin as [<-|[]].
    exists p; split; [exact Hp | lra].
  - assert (Hlast' : nth_error (l2 :: rest') (List.length (l2 :: rest') - 1)
                     = Some lastL).
    { simpl in Hlast |- *. rewrite Nat.sub_0_r. exact Hlast. }
    destruct Hin as [<-|Hin].
    + exists p0; split; [exact Hp0|].
      apply nth_error_In in Hlast'.
      destruct (Hlt lastL Hlast') as [q [Hq Hlt']].
      rewrite Hp in Hq; injection Hq as <-. lra.
    + exact (IH lastL p Hlast' Hp l' Hin).
Qed.

Lemma pressureSearch_bracketed (rows : list Level) :
  Descending rows ->
  forall (i : nat) (l1 l2 : Level) (p1 h1 p2 h2 p : R),
    adjacentAt rows i l1 l2 ->
    pressure l1 = Fin p1 -> height l1 = Fin h1 ->
    pressure l2 = Fin p2 -> height l2 = Fin h2 ->
    p2 <= p <= p1 ->
    pressureSearch rows (Fin p)
    = Some (Fin (h1 + (p - p1) / (p2 - p1) * (h2 - h1))).
Proof.
  induction 1 as [|l rest p0 h0 Hp0 Hh0 Hlt HD IH];
    intros i l1 l2 p1 h1 p2 h2 p [Hi Hi'] Hp1 Hh1 Hp2 Hh2 Hp.
  { destruct i; discriminate. }
  destruct rest as [|l' rest']; [destruct i as [|[|i]]; discriminate|].
  inversion HD as [|? ? q0 k0 Hq0 Hk0 Hlt' HD']; subst.
  destruct (Hlt l' (or_introl eq_refl)) as [q0' [Hq0' Hlt0]].
  rewrite Hq0 in Hq0'; injection Hq0' as <-.
  rewrite pressureSearch_cons, Hp0, Hq0, Hh0, Hk0.
  change (Fin p0 >=? Fin p)%js with (Rleb p p0).
  change (Fin q0 <=? Fin p)%js with (Rleb q0 p).
  destruct i as [|i].
  - simpl in Hi, Hi'. injection Hi as <-. injection Hi' as <-.
    rewrite Hp0 in Hp1; injection Hp1 as <-.
    rewrite Hh0 in Hh1; injection Hh1 as <-.
    rewrite Hq0 in Hp2; injection Hp2 as <-.
    rewrite Hk0 in Hh2; injection Hh2 as <-.
    rewrite (proj2 (Rleb_true p p0)), (proj2 (Rleb_true q0 p)) by lra.
    cbn [andb]. simpl. rcmp. reflexivity.
  - assert (Hadj : adjacentAt (l' :: rest') i l1 l2) by (split; assumption).
    assert (Hle : p1 <= q0).
    { destruct (Descending_head_max l' rest' q0 HD Hq0 l1) as [q [Hq Hle]].
      - apply nth_error_In with (n := i). exact Hi.
      - rewrite Hp1 in Hq; injection Hq as <-. exact Hle. }
    destruct (Rleb p p0 && Rleb q0 p) eqn:Hb.
    + apply andb_prop in Hb as [_ Hb]. apply Rleb_true in Hb.
      assert (p = q0) by lra. assert (p1 = q0) by lra. subst p p1.
      assert (i = 0%nat).
      { destruct i as [|i]; [reflexivity|]. exfalso.
        simpl in Hi. apply nth_error_In in Hi.
        destruct (Hlt' l1 Hi) as [q [Hq Hlt1]].
        rewrite Hp1 in Hq; injection Hq as <-. lra. }
      subst i. simpl in Hi. injection Hi as <-.
      rewrite Hk0 in Hh1; injection Hh1 as <-.
      simpl. rcmp. f_equal. apply Fin_eq.
      replace (q0 - q0) with 0 by lra.
      unfold Rdiv at 2. rewrite Rmult_0_l, Rmult_0_l.
      field. lra.
    + exact (IH i l1 l2 p1 h1 p2 h2 p Hadj Hp1 Hh1 Hp2 Hh2 Hp).
Qed.

Lemma standardAtmosphere_Fin (r : R) :
  0 < r ->
  standardAtmosphere (Fin r)
  = Fin (44330 * (1 - Rpower (r / 1013.25) 0.1903)).
Proof.
  intros Hr. unfold standardAtmosphere.
  assert (Hdiv : (Fin r / Fin 1013.25)%js = Fin (r / 1013.25)).
  { simpl. rcmp. reflexivity. }
  rewrite Hdiv, pow_Fin; [reflexivity | | lra].
  apply Rdiv_lt_0_compat; lra.
Qed.

Lemma Descending_threeLevels : Descending threeLevels.
Proof.
  unfold threeLevels.
  apply (Descending_cons _ _ 1000 0); try reflexivity.
  - intros l' [<-|[<-|[]]]; [exists 850 | exists 700]; split;
      try reflexivity; lra.
  - apply (Descending_cons _ _ 850 1500); try reflexivity.
    + intros l' [<-|[]]. exists 700; split; [reflexivity | lra].
    + apply (Descending_cons _ _ 700 3000); try reflexivity.
      * intros l' [].
      * constructor.
Qed.

(** C2. With no profile loaded, [pressureToHeight(p)] is the barometric
    formula [44330 * (1 - (p / 1013.25)^0.1903)].  With a pressure-descending
    profile loaded, every [p] bracketed by an adjacent pair gets the height
    interpolated linearly in pressure between that pair, every [p] above the
    first level's pressure gets the first level's height, and every [p] below
    the last level's pressure gets the last level's height.  On the
    three-level profile, 925 hPa gives 750 m and 50 hPa gives 3000 m. *)
Theorem pressureToHeight_spec (d : SkewTDiagram) :
  (forall p : num,
      soundingData d = None
      \/ (exists sd, soundingData d = Some sd /\ data sd = None) ->
      pressureToHeight d p = Ok (standardAtmosphere p))
  /\ (forall r : R, 0 < r ->
        standardAtmosphere (Fin r)
        = Fin (44330 * (1 - Rpower (r / 1013.25) 0.1903)))
  /\ (forall (sd : SoundingData) (rows : list Level),
        soundingData d = Some sd -> data sd = Some rows -> Descending rows ->
        (forall (i : nat) (l1 l2 : Level) (p1 h1 p2 h2 p : R),
            adjacentAt rows i l1 l2 ->
            pressure l1 = Fin p1 -> height l1 = Fin h1 ->
            pressure l2 = Fin p2 -> height l2 = Fin h2 ->
            p2 <= p <= p1 ->
            pressureToHeight d (Fin p)
            = Ok (Fin (h1 + (p - p1) / (p2 - p1) * (h2 - h1))))
        /\ (forall (first : Level) (pf hf p : R),
              nth_error rows 0 = Some first ->
              pressure first = Fin pf -> height first = Fin hf ->
              pf < p ->
              pressureToHeight d (Fin p) = Ok (Fin hf))
        /\ (forall (lastL : Level) (pl hl p : R),
              nth_error rows (List.length rows - 1) = Some lastL ->
              pressure lastL = Fin pl -> height lastL = Fin hl ->
              p < pl ->
              pressureToHeight d (Fin p) = Ok (Fin hl)))
  /\ pressureToHeight (loaded d threeLevels) (Fin 925) = Ok (Fin 750)
  /\ pressureToHeight (loaded d threeLevels) (Fin 50) = Ok (Fin 3000).
Proof.
  assert (Hgen : forall (d : SkewTDiagram) (sd : SoundingData)
                        (rows : list Level),
             soundingData d = Some sd -> data sd = Some rows ->
             Descending rows ->
             (forall (i : nat) (l1 l2 : Level) (p1 h1 p2 h2 p : R),
                 adjacentAt rows i l1 l2 ->
                 pressure l1 = Fin p1 -> height l1 = Fin h1 ->
                 pressure l2 = Fin p2 -> height l2 = Fin h2 ->
                 p2 <= p <= p1 ->
                 pressureToHeight d (Fin p)
                 = Ok (Fin (h1 + (p - p1) / (p2 - p1) * (h2 - h1))))
             /\ (forall (first : Level) (pf hf p : R),
                   nth_error rows 0 = Some first ->
                   pressure first = Fin pf -> height first = Fin hf ->
                   pf < p ->
                   pressureToHeight d (Fin p) = Ok (Fin hf))
             /\ (forall (lastL : Level) (pl hl p : R),
                   nth_error rows (List.length rows - 1) = Some lastL ->
                   pressure lastL = Fin pl -> height lastL = Fin hl ->
                   p < pl ->
                   pressureToHeight d (Fin p) = Ok (Fin hl))).
  { clear d. intros d sd rows Hsd Hrows HD. repeat split.
    - intros i l1 l2 p1 h1 p2 h2 p Hadj Hp1 Hh1 Hp2 Hh2 Hp.
      unfold pressureToHeight. rewrite Hsd, Hrows.
      rewrite (pressureSearch_bracketed rows HD i l1 l2 p1 h1 p2 h2 p);
        auto.
    - intros first pf hf p Hfirst Hpf Hhf Hp.
      unfold pressureToHeight. rewrite Hsd, Hrows.
      destruct rows as [|l rest]; [discriminate|].
      simpl in Hfirst; injection Hfirst as ->.
      rewrite pressureSearch_all_below.
      + unfold prop; cbn [nth_error]. rewrite Hpf.
        change (Fin p >=? Fin pf)%js with (Rleb pf p).
        rewrite (proj2 (Rleb_true pf p)) by lra. rewrite Hhf. reflexivity.
      + intros l' Hin.
        destruct (Descending_head_max first rest pf HD Hpf l' Hin)
          as [q [Hq Hle]].
        exists q; split; [exact Hq | lra].
    - intros lastL pl hl p Hlast Hpl Hhl Hp.
      unfold pressureToHeight. rewrite Hsd, Hrows.
      pose proof (Descending_last_min rows HD lastL pl Hlast Hpl) as Hmin.
      rewrite pressureSearch_all_above.
      + destruct rows as [|l rest]; [discriminate|].
        destruct (Hmin l (or_introl eq_refl)) as [q [Hq Hle]].
        unfold prop at 1; cbn [nth_error]. rewrite Hq.
        change (Fin p >=? Fin q)%js with (Rleb q p).
        rewrite (proj2 (Rleb_false q p)) by lra.
        unfold prop. rewrite Hlast, Hpl.
        change (Fin p <=? Fin pl)%js with (Rleb p pl).
        rewrite (proj2 (Rleb_true p pl)) by lra. rewrite Hhl. reflexivity.
      + intros l' Hin. destruct (Hmin l' Hin) as [q [Hq Hle]].
        exists q; split; [exact Hq | lra]. }
  split; [|split; [|split; [|split]]].
  - intros p [Hnone | [sd [Hsd Hdata]]]; unfold pressureToHeight.
    + rewrite Hnone; reflexivity.
    + rewrite Hsd, Hdata; reflexivity.
  - exact standardAtmosphere_Fin.
  - exact (Hgen d).
  - destruct (Hgen (loaded d threeLevels) _ threeLevels eq_refl eq_refl
                Descending_threeLevels) as [Hmid _].
    rewrite (Hmid 0%nat (levelAt 1000 0) (levelAt 850 1500)
               1000 0 850 1500 925); try reflexivity.
    + f_equal. apply Fin_eq. lra.
    + split; reflexivity.
    + lra.
  - destruct (Hgen (loaded d threeLevels) _ threeLevels eq_refl eq_refl
                Descending_threeLevels) as [_ [_ Hlow]].
    apply (Hlow (levelAt 700 3000) 700 3000 50); try reflexivity. lra.
Qed.

(** The general statements of C2 at the constructor's diagram with the
    three-level profile loaded: 925 hPa is bracketed by the first pair,
    1040 hPa is above the first level, 50 hPa below the last. *)
Lemma pressureToHeight_spec_witness :
  pressureToHeight (new_SkewTDiagram 1000 800) (Fin 1013.25)
  = Ok (standardAtmosphere (Fin 1013.25))
  /\ pressureToHeight (loaded (new_SkewTDiagram 1000 800) threeLevels)
       (Fin 925)
     = Ok (Fin (0 + (925 - 1000) / (850 - 1000) * (1500 - 0)))
  /\ pressureToHeight (loaded (new_SkewTDiagram 1000 800) threeLevels)
       (Fin 1040)
     = Ok (Fin 0).
Proof.
  split; [|split].
  - apply (proj1 (pressureToHeight_spec (new_SkewTDiagram 1000 800))).
    left; reflexivity.
  - destruct (pressureToHeight_spec
                (loaded (new_SkewTDiagram 1000 800) threeLevels))
      as [_ [_ [H _]]].
    destruct (H _ threeLevels eq_refl eq_refl Descending_threeLevels)
      as [Hmid _].
    apply (Hmid 0%nat (levelAt 1000 0) (levelAt 850 1500)
             1000 0 850 1500 925); try reflexivity.
    + split; reflexivity.
    + lra.
  - destruct (pressureToHeight_spec
                (loaded (new_SkewTDiagram 1000 800) threeLevels))
      as [_ [_ [H _]]].
    destruct (H _ threeLevels eq_refl eq_refl Descending_threeLevels)
      as [_ [Hhigh _]].
    apply (Hhigh (levelAt 1000 0) 1000 0 1040); try reflexivity. lra.
Defined.

(** ** C3: the wind-barb encoder *)

Lemma stepsAbove_spec (v thr step : R) :
  0 < step ->
  (forall k, (k < stepsAbove v thr step)%nat -> thr <= v - step * INR k)
  /\ v - step * INR (stepsAbove v thr step) < thr.
Proof.
  intros Hstep. unfold stepsAbove.
  set (r := (v - thr) / step).
  assert (Hr : v - thr = step * r) by (unfold r; field; lra).
  destruct (archimed r) as [Hup1 Hup2].
  destruct (Z_lt_le_dec 0 (up r)) as [Hpos|Hneg].
  - assert (HINR : INR (Z.to_nat (up r)) = IZR (up r)).
    { rewrite INR_IZR_INZ, Z2Nat.id by lia. reflexivity. }
    split.
    + intros k Hk.
      assert (Hk' : INR k <= IZR (up r) - 1).
      { rewrite <- HINR. assert (Hk1 : (Datatypes.S k <= Z.to_nat (up r))%nat) by lia.
        apply le_INR in Hk1. rewrite S_INR in Hk1. lra. }
      assert (INR k <= r) by lra. nra.
    + rewrite HINR. nra.
  - assert (Hz : Z.to_nat (up r) = 0%nat) by lia.
    rewrite Hz. split; [intros k Hk; lia|].
    simpl. apply IZR_le in Hneg. nra.
Qed.

Lemma stepsAbove_unique (v thr step : R) (n : nat) :
  0 < step ->
  (forall k, (k < n)%nat -> thr <= v - step * INR k) ->
  v - step * INR n < thr ->
  stepsAbove v thr step = n.
Proof.
  intros Hstep Hin Hout.
  destruct (stepsAbove_spec v thr step Hstep) as [Hin' Hout'].
  destruct (Nat.lt_trichotomy (stepsAbove v thr step) n) as [Hlt|[Heq|Hgt]].
  - specialize (Hin _ Hlt). lra.
  - exact Heq.
  - specialize (Hin' _ Hgt). lra.
Qed.

Lemma flat_map_seq_shift {B : Type} (f : nat -> list B) (n : nat) :
  forall a, flat_map f (List.seq (Datatypes.S a) n)
            = flat_map (fun k => f (Datatypes.S k)) (List.seq a n).
Proof.
  induction n as [|n IH]; intros a; simpl; [reflexivity|].
  rewrite IH; reflexivity.
Qed.

Lemma while_loop_S {S : Type} (n : nat) (cond : S -> bool)
    (body : S -> M S) (s : S) :
  while_loop (Datatypes.S n) cond body s
  = if cond s then s' <- body s ;; while_loop n cond body s' else ret s.
Proof. reflexivity. Qed.

(** A [while] loop of [drawWindBarb]: [n] glyphs, each moving the locals by
    [a] km/h and [b] units of staff. *)
Lemma while_loop_steps (glyph : BarbState -> M BarbState) (thr a b : R) :
  (forall v dd, outcome (glyph (Fin v, Fin dd)) = Ok (Fin (v - a), Fin (dd - b))) ->
  forall (n fuel : nat) (v dd : R),
    (forall k, (k < n)%nat -> thr <= v - a * INR k) ->
    v - a * INR n < thr ->
    (n < fuel)%nat ->
    while_loop fuel (fun s => (fst s >=? Fin thr)%js) glyph (Fin v, Fin dd)
    = (Ok (Fin (v - a * INR n), Fin (dd - b * INR n)),
       flat_map (fun k => trace (glyph (Fin (v - a * INR k),
                                        Fin (dd - b * INR k))))
         (List.seq 0 n)).
Proof.
  intros Hglyph.
  induction n as [|n IH]; intros fuel v dd Hin Hout Hfuel;
    (destruct fuel as [|fuel]; [lia|]); rewrite while_loop_S; cbv beta;
    cbn [fst]; change (Fin v >=? Fin thr)%js with (Rleb thr v).
  - simpl in Hout. rewrite (proj2 (Rleb_false thr v)) by lra.
    unfold ret. cbn [List.seq flat_map]. f_equal. f_equal. f_equal; apply Fin_eq; simpl; lra.
  - pose proof (Hin 0%nat ltac:(lia)) as H0. simpl in H0.
    rewrite (proj2 (Rleb_true thr v)) by lra.
    apply M_eq.
    + rewrite outcome_bind, Hglyph, (IH fuel (v - a) (dd - b)).
      * cbn [outcome fst]. rewrite S_INR. f_equal. f_equal; apply Fin_eq; lra.
      * intros k Hk. pose proof (Hin (Datatypes.S k) ltac:(lia)) as Hk'.
        rewrite S_INR in Hk'. lra.
      * rewrite S_INR in Hout. lra.
      * lia.
    + rewrite trace_bind, Hglyph, (IH fuel (v - a) (dd - b)).
      * cbn [trace snd List.seq flat_map].
        replace (v - a * INR 0) with v by (simpl; lra).
        replace (dd - b * INR 0) with dd by (simpl; lra).
        f_equal. rewrite flat_map_seq_shift.
        apply flat_map_ext; intros k. rewrite S_INR.
        replace (v - a - a * INR k) with (v - a * (INR k + 1)) by lra.
        replace (dd - b - b * INR k) with (dd - b * (INR k + 1)) by lra.
        reflexivity.
      * intros k Hk. pose proof (Hin (Datatypes.S k) ltac:(lia)) as Hk'.
        rewrite S_INR in Hk'. lra.
      * rewrite S_INR in Hout. lra.
      * lia.
Qed.

Lemma bind_Ok {A B : Type} (a : A) (t : list Cmd) (f : A -> M B) :
  bind (Ok a, t) f = (outcome (f a), t ++ trace (f a)).
Proof. simpl. destruct (f a); reflexivity. Qed.

Lemma bind_emit {B : Type} (c : Cmd) (k : unit -> M B) :
  bind (emit c) k = (outcome (k tt), c :: trace (k tt)).
Proof. unfold emit. rewrite bind_Ok. reflexivity. Qed.

Lemma pennant_outcome (x y angle perpAngle : num) (v dd : R) :
  outcome (pennant x y angle perpAngle (Fin v, Fin dd))
  = Ok (Fin (v - 50), Fin (dd - 10)).
Proof. unfold pennant. rewrite !bind_emit. reflexivity. Qed.

Lemma fullBarb_outcome (x y angle perpAngle : num) (v dd : R) :
  outcome (fullBarb x y angle perpAngle (Fin v, Fin dd))
  = Ok (Fin (v - 10), Fin (dd - 6)).
Proof. unfold fullBarb. rewrite !bind_emit. reflexivity. Qed.

Lemma decompose_spec (v : R) :
  let '(pennants, fullBarbs, half) := decompose v in
  let afterPennants := v - 50 * INR pennants in
  let afterBarbs := afterPennants - 10 * INR fullBarbs in
  (forall k, (k < pennants)%nat -> 47.5 <= v - 50 * INR k)
  /\ afterPennants < 47.5
  /\ (forall k, (k < fullBarbs)%nat -> 7.5 <= afterPennants - 10 * INR k)
  /\ afterBarbs < 7.5
  /\ (half = true <-> 2.5 <= afterBarbs).
Proof.
  unfold decompose. cbv zeta.
  destruct (stepsAbove_spec v 47.5 50 ltac:(lra)) as [H1 H2].
  destruct (stepsAbove_spec (v - 50 * INR (stepsAbove v 47.5 50)) 7.5 10
              ltac:(lra)) as [H3 H4].
  repeat split; try assumption; apply Rleb_true.
Qed.

Lemma pennant_trace (x y angle perpAngle : num) (v dd : R) :
  trace (pennant x y angle perpAngle (Fin v, Fin dd))
  = markGlyph x y angle perpAngle (Pennant, dd).
Proof. unfold pennant. rewrite !bind_emit. reflexivity. Qed.

Lemma fullBarb_trace (x y angle perpAngle : num) (v dd : R) :
  trace (fullBarb x y angle perpAngle (Fin v, Fin dd))
  = markGlyph x y angle perpAngle (FullBarb, dd).
Proof. unfold fullBarb. rewrite !bind_emit. reflexivity. Qed.

Lemma halfBarb_run (x y angle perpAngle : num) (v dd : R) :
  halfBarb x y angle perpAngle (Fin v, Fin dd)
  = (Ok tt, markGlyph x y angle perpAngle (HalfBarb, dd)).
Proof. unfold halfBarb. rewrite !bind_emit. reflexivity. Qed.

Lemma flat_map_map {A B C : Type} (f : B -> list C) (g : A -> B)
    (l : list A) :
  flat_map f (map g l) = flat_map (fun a => f (g a)) l.
Proof.
  induction l as [|a l IH]; [reflexivity|]. simpl. rewrite IH. reflexivity.
Qed.

Lemma drawWindBarb_glyph (fuel : nat) (x y direction : num) (speedMS : R) :
  (fst (fst (decompose (speedMS * 3.6))) < fuel)%nat ->
  (snd (fst (decompose (speedMS * 3.6))) < fuel)%nat ->
  drawWindBarb fuel x y direction (Fin speedMS)
  = (Ok tt, barbGlyph x y direction (speedMS * 3.6)).
Proof.
  pose proof (decompose_spec (speedMS * 3.6)) as Hspec.
  unfold drawWindBarb, barbGlyph, barbMarks.
  change (Fin speedMS * Fin 3.6)%js with (Fin (speedMS * 3.6)).
  fold (barbAngle direction).
  set (v := speedMS * 3.6) in *.
  set (angle := barbAngle direction).
  set (perp := (angle - JS.PI / 2)%js).
  destruct (decompose v) as [[np nf] half]. cbn [fst snd].
  cbv zeta in Hspec. destruct Hspec as [Hp1 [Hp2 [Hf1 [Hf2 Hhalf]]]].
  intros Hnp Hnf.
  rewrite !bind_emit. unfold barbStyle. cbn [app].
  change (Fin v <? Fin 2.5)%js with (Rltb v 2.5).
  destruct (Rltb v 2.5) eqn:Hcalm.
  { unfold calmCircle. rewrite !bind_emit. reflexivity. }
  assert (Hstaff : staff x y angle
                   = (Ok tt,
                      [beginPath; moveTo x y;
                       lineTo (x + JS.sin angle * 30)%js
                              (y - JS.cos angle * 30)%js;
                       stroke])).
  { unfold staff, barbLength. rewrite !bind_emit. reflexivity. }
  rewrite Hstaff, bind_Ok. unfold barbLength.
  rewrite (while_loop_steps (pennant x y angle perp) 47.5 50 10
             (pennant_outcome x y angle perp) np fuel v 30 Hp1 Hp2 Hnp).
  rewrite bind_Ok.
  rewrite (while_loop_steps (fullBarb x y angle perp) 7.5 10 6
             (fullBarb_outcome x y angle perp) nf fuel _ _ Hf1 Hf2 Hnf).
  rewrite bind_Ok. cbn [fst].
  change (Fin ?a >=? Fin 2.5)%js with (Rleb 2.5 a).
  rewrite !flat_map_app, !flat_map_map.
  rewrite (flat_map_ext _ _
             (fun k => pennant_trace x y angle perp (v - 50 * INR k)
                         (30 - 10 * INR k))).
  rewrite (flat_map_ext _ _
             (fun k => fullBarb_trace x y angle perp
                         (v - 50 * INR np - 10 * INR k)
                         (30 - 10 * INR np - 6 * INR k))).
  cbn [outcome trace fst snd].
  destruct half.
  - rewrite (proj2 (Rleb_true _ _) (proj1 Hhalf eq_refl)).
    rewrite halfBarb_run. cbn [outcome trace fst snd flat_map].
    rewrite !app_nil_r. reflexivity.
  - assert (Hno : Rleb 2.5 (v - 50 * INR np - 10 * INR nf) = false).
    { destruct (Rleb 2.5 (v - 50 * INR np - 10 * INR nf)) eqn:E;
        [|reflexivity].
      apply Rleb_true in E. apply Hhalf in E. discriminate. }
    rewrite Hno. cbn [outcome trace ret fst snd flat_map].
    rewrite !app_nil_r. reflexivity.
Qed.

Lemma decompose_unique (v : R) (pennants fullBarbs : nat) :
  (forall k, (k < pennants)%nat -> 47.5 <= v - 50 * INR k) ->
  v - 50 * INR pennants < 47.5 ->
  (forall k, (k < fullBarbs)%nat ->
             7.5 <= v - 50 * INR pennants - 10 * INR k) ->
  v - 50 * INR pennants - 10 * INR fullBarbs < 7.5 ->
  decompose v
  = (pennants, fullBarbs,
     Rleb 2.5 (v - 50 * INR pennants - 10 * INR fullBarbs)).
Proof.
  intros H1 H2 H3 H4. unfold decompose.
  rewrite (stepsAbove_unique v 47.5 50 pennants) by (assumption || lra).
  rewrite (stepsAbove_unique _ 7.5 10 fullBarbs) by (assumption || lra).
  reflexivity.
Qed.

Lemma decompose_25 : decompose 25 = (0%nat, 2%nat, true).
Proof.
  rewrite (decompose_unique 25 0 2).
  - simpl INR. rcmp. reflexivity.
  - intros k Hk; lia.
  - simpl; lra.
  - intros [|[|k]] Hk; simpl; try lra. lia.
  - simpl; lra.
Qed.

Lemma decompose_52 : decompose 52 = (1%nat, 0%nat, false).
Proof.
  rewrite (decompose_unique 52 1 0).
  - simpl INR. rcmp. reflexivity.
  - intros [|k] Hk; simpl; try lra. lia.
  - simpl; lra.
  - intros k Hk; lia.
  - simpl; lra.
Qed.

Lemma decompose_18 : decompose 18 = (0%nat, 2%nat, false).
Proof.
  rewrite (decompose_unique 18 0 2).
  - simpl INR. rcmp. reflexivity.
  - intros k Hk; lia.
  - simpl; lra.
  - intros [|[|k]] Hk; simpl; try lra. lia.
  - simpl; lra.
Qed.

(** Marks of one kind at equal distances are equal. *)
Lemma mark_eq (m : Mark) (a b : R) : a = b -> (m, a) = (m, b).
Proof. intros ->. reflexivity. Qed.

(** The product the code forms with [speedMS * 3.6]. *)
Lemma speedKmh_product (speedMS speedKmh : R) :
  (Fin speedMS * 3.6)%js = Fin speedKmh -> speedKmh = speedMS * 3.6.
Proof. intros H. injection H as H. symmetry. exact H. Qed.

(** C3 (amended).  For every direction and every finite speed
    [speedMS >= 0] whose product [speedKmh = speedMS * 3.6] is at most
    [Number.MAX_SAFE_INTEGER]: below 2.5 km/h [drawWindBarb] makes the
    calls of the calm circle and no other; otherwise it makes those of the
    staff of 30 units, then those of one pennant for each remainder
    [speedKmh - 50 k >= 47.5], then those of one full barb for each
    remainder [>= 7.5] in steps of 10, then those of one half barb exactly
    when what is left is [>= 2.5], each mark attached where the ones before
    it left off.  The calls of every mark are spelled out in [markGlyph].
    The glyph is a function of the inputs: 25 km/h is no pennant, 2 full
    barbs and a half barb; 52 km/h is 1 pennant alone; 1 km/h is the calm
    circle. *)
Theorem windBarb_encoding (fuel : nat) (x y direction : num)
    (speedMS speedKmh : R) :
  0 <= speedMS ->
  (Fin speedMS * 3.6)%js = Fin speedKmh ->
  speedKmh <= MAX_SAFE_INTEGER ->
  (fst (fst (decompose speedKmh)) < fuel)%nat ->
  (snd (fst (decompose speedKmh)) < fuel)%nat ->
  let angle := barbAngle direction in
  let perpAngle := (angle - JS.PI / 2)%js in
  let pennants := fst (fst (decompose speedKmh)) in
  let fullBarbs := snd (fst (decompose speedKmh)) in
  let half := snd (decompose speedKmh) in
  let afterPennants := speedKmh - 50 * INR pennants in
  let afterBarbs := afterPennants - 10 * INR fullBarbs in
  drawWindBarb fuel x y direction (Fin speedMS)
  = (Ok tt, barbGlyph x y direction speedKmh)
  /\ (speedKmh < 2.5 ->
      barbGlyph x y direction speedKmh
      = barbStyle ++ [beginPath; arc x y 4 0 (2 * JS.PI)%js; stroke])
  /\ (2.5 <= speedKmh ->
      barbGlyph x y direction speedKmh
      = barbStyle
        ++ [beginPath; moveTo x y;
            lineTo (x + JS.sin angle * 30)%js (y - JS.cos angle * 30)%js;
            stroke]
        ++ flat_map (markGlyph x y angle perpAngle)
             (map (fun k => (Pennant, 30 - 10 * INR k)) (List.seq 0 pennants)
              ++ map (fun k => (FullBarb, 30 - 10 * INR pennants - 6 * INR k))
                   (List.seq 0 fullBarbs)
              ++ (if half
                  then [(HalfBarb,
                         30 - 10 * INR pennants - 6 * INR fullBarbs)]
                  else [])))
  /\ ((forall k, (k < pennants)%nat -> 47.5 <= speedKmh - 50 * INR k)
      /\ afterPennants < 47.5
      /\ (forall k, (k < fullBarbs)%nat -> 7.5 <= afterPennants - 10 * INR k)
      /\ afterBarbs < 7.5
      /\ (half = true <-> 2.5 <= afterBarbs))
  /\ barbMarks 25 = [(FullBarb, 30); (FullBarb, 24); (HalfBarb, 18)]
  /\ barbMarks 52 = [(Pennant, 30)]
  /\ barbGlyph x y direction 1
     = barbStyle ++ [beginPath; arc x y 4 0 (2 * JS.PI)%js; stroke].
Proof.
  intros Hs Hprod Hmax Hnp Hnf. cbv zeta.
  apply speedKmh_product in Hprod. subst speedKmh.
  split; [exact (drawWindBarb_glyph fuel x y direction speedMS Hnp Hnf)|].
  pose proof (decompose_spec (speedMS * 3.6)) as Hspec.
  unfold barbGlyph at 1 2. unfold barbMarks at 1 2.
  destruct (decompose (speedMS * 3.6)) as [[np nf] half]. cbn [fst snd].
  split; [|split; [|split; [exact Hspec|]]].
  - intros Hcalm. rewrite (proj2 (Rltb_true _ _) Hcalm). reflexivity.
  - intros Hwind. rewrite (proj2 (Rltb_false _ _) Hwind). reflexivity.
  - split; [|split].
    + unfold barbMarks. rewrite decompose_25. cbn [List.seq map app].
      f_equal; [apply mark_eq; simpl; lra|].
      f_equal; [apply mark_eq; simpl; lra|].
      f_equal. apply mark_eq. simpl. lra.
    + unfold barbMarks. rewrite decompose_52. cbn [List.seq map app].
      f_equal. apply mark_eq. simpl. lra.
    + unfold barbGlyph. rewrite (proj2 (Rltb_true 1 2.5)) by lra.
      reflexivity.
Qed.

(** A wind of 5 m/s, 18 km/h, from the east: two full barbs. *)
Lemma windBarb_encoding_witness :
  drawWindBarb 3 0 0 90 (Fin 5) = (Ok tt, barbGlyph 0 0 90 18).
Proof.
  apply (windBarb_encoding 3 0 0 90 5 18).
  - lra.
  - apply Fin_eq. lra.
  - unfold MAX_SAFE_INTEGER. lra.
  - rewrite decompose_18. simpl. lia.
  - rewrite decompose_18. simpl. lia.
Defined.

Lemma pennant_infinite (x y angle perpAngle dist : num) :
  outcome (pennant x y angle perpAngle (PInf, dist))
  = Ok (PInf, (dist - 10)%js).
Proof. unfold pennant. rewrite !bind_emit. reflexivity. Qed.

Lemma pennants_never_end (x y angle perpAngle : num) :
  forall (fuel : nat) (dist : num),
    outcome (while_loop fuel (fun s => (fst s >=? 47.5)%js)
               (pennant x y angle perpAngle) (PInf, dist))
    = OutOfFuel.
Proof.
  induction fuel as [|fuel IH]; intros dist; [reflexivity|].
  rewrite while_loop_S. cbn [fst].
  change (PInf >=? Fin 47.5)%js with true. cbv iota.
  rewrite outcome_bind, pennant_infinite. apply IH.
Qed.

(** C3 as stated fails at a speed the claim admits: [+Infinity] is [>= 0],
    its product with 3.6 is [+Infinity], which never drops below 47.5, so
    the pennant loop does not end and [drawWindBarb] does not return,
    whatever the number of iterations allowed. *)
Lemma windBarb_infinite_speed_never_returns :
  (PInf >=? 0)%js = true
  /\ forall (fuel : nat) (x y direction : num),
       outcome (drawWindBarb fuel x y direction PInf) = OutOfFuel.
Proof.
  split; [reflexivity|]. intros fuel x y direction. unfold drawWindBarb.
  assert (Hinf : (PInf * 3.6)%js = PInf) by (cbn [mul]; rcmp; reflexivity).
  rewrite Hinf. change (PInf <? Fin 2.5)%js with false. cbv iota.
  repeat (rewrite outcome_bind; cbn [outcome emit fst]).
  assert (Hstaff : outcome (staff x y (direction * JS.PI / 180)%js) = Ok tt).
  { unfold staff. rewrite !bind_emit. reflexivity. }
  rewrite Hstaff, pennants_never_end. reflexivity.
Qed.

(** ** C4: the closest-level fallback of [interpolateDataAtHeight] *)

Lemma heightSearch_cons (lower upper : Level) (rest : list Level)
    (t : num) :
  heightSearch (lower :: upper :: rest) t
  = if brackets lower upper t
    then Some (interpolate lower upper t)
    else heightSearch (upper :: rest) t.
Proof. reflexivity. Qed.

Lemma heightSearch_noBracket (rows : list Level) (t : num) :
  noBracket rows t -> heightSearch rows t = None.
Proof.
  induction rows as [|l1 [|l2 rest] IH]; intros H; try reflexivity.
  rewrite heightSearch_cons.
  rewrite (H 0%nat l1 l2) by (split; reflexivity).
  apply IH. intros i a b [Ha Hb]. apply (H (Datatypes.S i)). split; assumption.
Qed.

Lemma closer_step (seen : list Level) (t : R) (s : option Level * num)
    (row : Level) :
  nearestAmong seen t s ->
  nearestAmong (seen ++ [row]) t (closer (Fin t) s row).
Proof.
  destruct s as [c m]. unfold nearestAmong, closer. cbn [fst snd].
  destruct (height row) as [| | |h'] eqn:Hrow; cbn [sub neg add abs].
  - (* NaN: the distance is NaN, the row is passed over *)
    cbn [lt]. cbn [fst snd]. destruct c as [l|].
    + intros [Hin [h [Hh [Hm Hmin]]]]. split; [apply in_or_app; left; exact Hin|].
      exists h. repeat split; try assumption.
      intros l' k Hl' Hk. apply in_app_or in Hl' as [Hl'|[<-|[]]].
      * exact (Hmin l' k Hl' Hk).
      * rewrite Hrow in Hk; discriminate.
    + intros [Hm Hall]. split; [exact Hm|].
      intros l Hl. apply in_app_or in Hl as [Hl|[<-|[]]].
      * exact (Hall l Hl).
      * rewrite Hrow; reflexivity.
  - (* +Infinity: the distance is +Infinity, never below minDistance *)
    assert (Hlt : (PInf <? m)%js = false) by (destruct m; reflexivity).
    rewrite Hlt. cbn [fst snd]. destruct c as [l|].
    + intros [Hin [h [Hh [Hm Hmin]]]]. split; [apply in_or_app; left; exact Hin|].
      exists h. repeat split; try assumption.
      intros l' k Hl' Hk. apply in_app_or in Hl' as [Hl'|[<-|[]]].
      * exact (Hmin l' k Hl' Hk).
      * rewrite Hrow in Hk; discriminate.
    + intros [Hm Hall]. split; [exact Hm|].
      intros l Hl. apply in_app_or in Hl as [Hl|[<-|[]]].
      * exact (Hall l Hl).
      * rewrite Hrow; reflexivity.
  - (* -Infinity: likewise *)
    assert (Hlt : (PInf <? m)%js = false) by (destruct m; reflexivity).
    rewrite Hlt. cbn [fst snd]. destruct c as [l|].
    + intros [Hin [h [Hh [Hm Hmin]]]]. split; [apply in_or_app; left; exact Hin|].
      exists h. repeat split; try assumption.
      intros l' k Hl' Hk. apply in_app_or in Hl' as [Hl'|[<-|[]]].
      * exact (Hmin l' k Hl' Hk).
      * rewrite Hrow in Hk; discriminate.
    + intros [Hm Hall]. split; [exact Hm|].
      intros l Hl. apply in_app_or in Hl as [Hl|[<-|[]]].
      * exact (Hall l Hl).
      * rewrite Hrow; reflexivity.
  - (* a finite height *)
    destruct c as [l|].
    + intros [Hin [h [Hh [Hm Hmin]]]]. rewrite Hm.
      change (Fin (Rabs (h' + - t)) <? Fin (Rabs (h - t)))%js
        with (Rltb (Rabs (h' - t)) (Rabs (h - t))).
      destruct (Rltb (Rabs (h' - t)) (Rabs (h - t))) eqn:Hcmp; cbn [fst snd].
      * apply Rltb_true in Hcmp.
        split; [apply in_or_app; right; left; reflexivity|].
        exists h'. repeat split; try assumption.
        intros l' k Hl' Hk. apply in_app_or in Hl' as [Hl'|[<-|[]]].
        -- specialize (Hmin l' k Hl' Hk). lra.
        -- rewrite Hrow in Hk; injection Hk as <-. lra.
      * apply Rltb_false in Hcmp.
        split; [apply in_or_app; left; exact Hin|].
        exists h. repeat split; try assumption.
        intros l' k Hl' Hk. apply in_app_or in Hl' as [Hl'|[<-|[]]].
        -- exact (Hmin l' k Hl' Hk).
        -- rewrite Hrow in Hk; injection Hk as <-. exact Hcmp.
    + intros [Hm Hall]. rewrite Hm. cbn [lt fst snd].
      split; [apply in_or_app; right; left; reflexivity|].
      exists h'. repeat split; try assumption.
      intros l' k Hl' Hk. apply in_app_or in Hl' as [Hl'|[<-|[]]].
      * specialize (Hall l' Hl'). rewrite Hk in Hall. discriminate.
      * rewrite Hrow in Hk; injection Hk as <-. lra.
Qed.

Lemma closer_fold (t : R) (rows : list Level) :
  forall (seen : list Level) (s : option Level * num),
    nearestAmong seen t s ->
    nearestAmong (seen ++ rows) t (fold_left (closer (Fin t)) rows s).
Proof.
  induction rows as [|row rest IH]; intros seen s H; simpl.
  - rewrite app_nil_r. exact H.
  - change (seen ++ row :: rest) with (seen ++ [row] ++ rest).
    rewrite app_assoc. apply IH. apply closer_step. exact H.
Qed.

Lemma closer_nonfinite (target : num) (rows : list Level) :
  finite target = false ->
  fold_left (closer target) rows (None, PInf) = (None, PInf).
Proof.
  intros Ht. induction rows as [|row rest IH]; cbn [fold_left];
    [reflexivity|].
  assert (Hstep : closer target (None, PInf) row = (None, PInf)).
  { unfold closer. destruct target; try discriminate;
      destruct (height row); reflexivity. }
  rewrite Hstep. exact IH.
Qed.

Lemma closestLevel_finite (rows : list Level) (t : R) :
  nearestAmong rows t (fold_left (closer (Fin t)) rows (None, PInf)).
Proof.
  apply (closer_fold t rows [] (None, PInf)).
  split; [reflexivity | intros l []].
Qed.

(** C4 (amended).  When no adjacent pair brackets [targetHeight],
    [interpolateDataAtHeight] returns the result of the closest-point scan.
    That result is a level of the profile whose height is finite and whose
    absolute height distance to the (finite) target is least among the
    levels with a finite height; it is [null] exactly when the target is not
    finite or no level has a finite height, the empty profile included. *)
Theorem interpolateDataAtHeight_fallback (sd : SoundingData)
    (rows : list Level) (targetHeight : num) :
  data sd = Some rows ->
  noBracket rows targetHeight ->
  interpolateDataAtHeight (Some sd) targetHeight
  = Ok (closestLevel rows targetHeight)
  /\ (closestLevel rows targetHeight = None
      <-> finite targetHeight = false
          \/ forall l, In l rows -> finite (height l) = false)
  /\ (forall l, closestLevel rows targetHeight = Some l ->
        In l rows
        /\ exists h t,
             targetHeight = Fin t /\ height l = Fin h
             /\ forall l' h', In l' rows -> height l' = Fin h' ->
                              Rabs (h - t) <= Rabs (h' - t))
  /\ (rows = [] -> interpolateDataAtHeight (Some sd) targetHeight = Ok None).
Proof.
  intros Hdata Hno.
  assert (Hcall : interpolateDataAtHeight (Some sd) targetHeight
                  = Ok (closestLevel rows targetHeight)).
  { unfold interpolateDataAtHeight.
    rewrite Hdata, (heightSearch_noBracket rows targetHeight Hno).
    reflexivity. }
  split; [exact Hcall|].
  unfold closestLevel in *.
  destruct (finite targetHeight) eqn:Hfin.
  - destruct targetHeight as [| | |t]; try discriminate.
    pose proof (closestLevel_finite rows t) as Hnear.
    unfold nearestAmong in Hnear.
    destruct (fst (fold_left (closer (Fin t)) rows (None, PInf)))
      as [l|] eqn:Hres.
    + destruct Hnear as [Hin [h [Hh [_ Hmin]]]].
      split; [|split].
      * split; [discriminate|].
        intros [Hf|Hall]; [discriminate|].
        specialize (Hall l Hin). rewrite Hh in Hall. discriminate.
      * intros l0 Hl0. injection Hl0 as <-.
        split; [exact Hin|]. exists h, t. repeat split; assumption.
      * intros ->. simpl in Hres. discriminate.
    + destruct Hnear as [_ Hall].
      split; [|split].
      * split; [intros _; right; exact Hall | reflexivity].
      * intros l Hl; discriminate.
      * intros _. exact Hcall.
  - rewrite (closer_nonfinite targetHeight rows Hfin) in *. cbn [fst] in *.
    split; [|split].
    + split; [intros _; left; reflexivity | reflexivity].
    + intros l Hl; discriminate.
    + intros _. exact Hcall.
Qed.

Lemma noBracket_threeLevels_above : noBracket threeLevels (Fin 5000).
Proof.
  intros i lower upper [Hl Hu].
  destruct i as [|[|[|i]]]; simpl in Hl, Hu;
    try discriminate; try (destruct i; discriminate);
    injection Hl as <-; injection Hu as <-;
    unfold brackets, levelAt; cbn [height]; unfold JS.min, JS.max, ge;
    cbn [le]; rcmp; cbn [le]; rcmp; reflexivity.
Qed.

(** Above the three-level profile, at 5000 m. *)
Lemma interpolateDataAtHeight_fallback_witness :
  interpolateDataAtHeight (Some (soundingOf threeLevels)) (Fin 5000)
  = Ok (closestLevel threeLevels (Fin 5000)).
Proof.
  exact (proj1 (interpolateDataAtHeight_fallback (soundingOf threeLevels)
                  threeLevels (Fin 5000) eq_refl
                  noBracket_threeLevels_above)).
Defined.

(** C4 as stated fails: a profile of one level whose height is missing has
    no bracketing pair, is not empty, and yields [null]. *)
Lemma interpolateDataAtHeight_null_nonempty :
  noBracket [levelWithoutHeight] (Fin 0)
  /\ [levelWithoutHeight] <> []
  /\ interpolateDataAtHeight (Some (soundingOf [levelWithoutHeight])) (Fin 0)
     = Ok None.
Proof.
  split; [|split].
  - intros i lower upper [Hl Hu]. destruct i as [|[|i]]; discriminate.
  - discriminate.
  - reflexivity.
Qed.

(** ** C5: missing attributes in [interpolateDataAtHeight] *)

Lemma heightSearch_firstBracket (rows : list Level) (t : num) :
  forall (i : nat) (lower upper : Level),
    firstBracket rows t i lower upper ->
    heightSearch rows t = Some (interpolate lower upper t).
Proof.
  induction rows as [|l1 [|l2 rest] IH];
    intros i lower upper [[Hl Hu] [Hb Hfirst]].
  - destruct i; discriminate.
  - destruct i as [|[|i]]; discriminate.
  - rewrite heightSearch_cons. destruct i as [|i].
    + simpl in Hl, Hu. injection Hl as <-. injection Hu as <-.
      rewrite Hb. reflexivity.
    + rewrite (Hfirst 0%nat l1 l2) by (lia || (split; reflexivity)).
      apply (IH i lower upper). split; [split; assumption|].
      split; [exact Hb|].
      intros j a b Hj [Ha Hb']. apply (Hfirst (Datatypes.S j) a b); [lia|].
      split; assumption.
Qed.

Lemma add_NaN_r (a : num) : (a + NaN)%js = NaN.
Proof. destruct a; reflexivity. Qed.

Lemma mul_NaN_r (a : num) : (a * NaN)%js = NaN.
Proof. destruct a; reflexivity. Qed.

(** One attribute of the interpolated level, for a ratio that is a number. *)
Lemma interpolated_attribute (ratio : R) (a b : num) :
  let r := (a + Fin ratio * (b - a))%js in
  (JS.isNaN a = true \/ JS.isNaN b = true -> r = NaN)
  /\ (forall x y, a = Fin x -> b = Fin y -> r = Fin (x + ratio * (y - x))).
Proof.
  cbv zeta. split.
  - intros [Ha|Hb].
    + destruct a; try discriminate. reflexivity.
    + destruct b; try discriminate.
      change (NaN - a)%js with NaN. rewrite mul_NaN_r. apply add_NaN_r.
  - intros x y -> ->. reflexivity.
Qed.

(** C5 (amended).  When the bracketing pair the search returns from has two
    different finite heights, the call returns a level at [targetHeight]
    whose every attribute is [lower + ratio * (upper - lower)] for the one
    ratio [(targetHeight - lower.height) / (upper.height - lower.height)]:
    an attribute that is [NaN] in either level is [NaN] in the result, an
    attribute that is a number in both is the interpolated number, whatever
    the other attributes are; nothing is thrown. *)
Theorem interpolateDataAtHeight_per_attribute (sd : SoundingData)
    (rows : list Level) (i : nat) (lower upper : Level) (h1 h2 t : R) :
  data sd = Some rows ->
  firstBracket rows (Fin t) i lower upper ->
  height lower = Fin h1 -> height upper = Fin h2 -> h1 <> h2 ->
  let ratio := (t - h1) / (h2 - h1) in
  exists r,
    interpolateDataAtHeight (Some sd) (Fin t) = Ok (Some r)
    /\ height r = Fin t
    /\ forall f, In f attributes ->
         f r = (f lower + Fin ratio * (f upper - f lower))%js
         /\ (JS.isNaN (f lower) = true \/ JS.isNaN (f upper) = true ->
             f r = NaN)
         /\ (forall x y, f lower = Fin x -> f upper = Fin y ->
               f r = Fin (x + ratio * (y - x))).
Proof.
  intros Hdata Hfirst Hh1 Hh2 Hne. cbv zeta.
  exists (interpolate lower upper (Fin t)).
  split; [|split].
  - unfold interpolateDataAtHeight.
    rewrite Hdata, (heightSearch_firstBracket rows (Fin t) i lower upper Hfirst).
    reflexivity.
  - reflexivity.
  - assert (Hratio : ((Fin t - height lower) / (height upper - height lower))%js
                     = Fin ((t - h1) / (h2 - h1))).
    { rewrite Hh1, Hh2. simpl. rcmp. reflexivity. }
    intros f Hf.
    assert (Hfr : f (interpolate lower upper (Fin t))
                  = (f lower + Fin ((t - h1) / (h2 - h1))
                               * (f upper - f lower))%js).
    { unfold attributes in Hf. simpl in Hf.
      destruct Hf as [<-|[<-|[<-|[<-|[<-|[]]]]]];
        unfold interpolate; cbn [pressure temp dewpoint windSpeed windDir];
        rewrite Hratio; reflexivity. }
    rewrite Hfr. split; [reflexivity|].
    apply interpolated_attribute.
Qed.

Lemma firstBracket_gap : firstBracket [lowerGap; upperGap] (Fin 1500) 0
                           lowerGap upperGap.
Proof.
  split; [split; reflexivity|]. split.
  - unfold brackets, lowerGap, upperGap; cbn [height].
    unfold JS.min, JS.max, ge; cbn [le]; rcmp; cbn [le]; rcmp. reflexivity.
  - intros j a b Hj; lia.
Qed.

(** Halfway between two levels 1000 m apart, the first without a
    temperature: the temperature is [NaN], the pressure is interpolated. *)
Lemma interpolateDataAtHeight_per_attribute_witness :
  exists r,
    interpolateDataAtHeight (Some (soundingOf [lowerGap; upperGap])) (Fin 1500)
    = Ok (Some r)
    /\ temp r = NaN
    /\ pressure r
       = Fin (900 + (1500 - 1000) / (2000 - 1000) * (800 - 900)).
Proof.
  destruct (interpolateDataAtHeight_per_attribute
              (soundingOf [lowerGap; upperGap]) [lowerGap; upperGap] 0
              lowerGap upperGap 1000 2000 1500 eq_refl firstBracket_gap
              eq_refl eq_refl ltac:(lra)) as [r [Hcall [_ Hattr]]].
  exists r. split; [exact Hcall|]. split.
  - destruct (Hattr temp) as [_ [Hnan _]].
    + right; left; reflexivity.
    + apply Hnan. left; reflexivity.
  - destruct (Hattr pressure) as [_ [_ Hnum]].
    + left; reflexivity.
    + apply (Hnum 900 800); reflexivity.
Defined.

(** C5 as stated fails: between two adjacent levels of equal height the
    ratio is [0 / 0], and the missing temperature of one level is not the
    only [NaN] of the result: the pressure, a number in both levels, is
    [NaN] too. *)
Lemma interpolateDataAtHeight_equal_heights :
  firstBracket [lowerDup; upperDup] (Fin 1000) 0 lowerDup upperDup
  /\ JS.isNaN (pressure lowerDup) = false
  /\ JS.isNaN (pressure upperDup) = false
  /\ exists r,
       interpolateDataAtHeight (Some (soundingOf [lowerDup; upperDup]))
         (Fin 1000) = Ok (Some r)
       /\ pressure r = NaN.
Proof.
  assert (Hb : brackets lowerDup upperDup (Fin 1000) = true).
  { unfold brackets, lowerDup, upperDup; cbn [height].
    unfold JS.min, JS.max, ge; cbn [le]; rcmp; cbn [le]; rcmp. reflexivity. }
  split; [|split; [reflexivity|split; [reflexivity|]]].
  - split; [split; reflexivity|]. split; [exact Hb|].
    intros j a b Hj; lia.
  - exists (interpolate lowerDup upperDup (Fin 1000)). split.
    + unfold interpolateDataAtHeight, soundingOf; cbn [data heightSearch].
      rewrite Hb. reflexivity.
    + unfold interpolate, lowerDup, upperDup; cbn [pressure height].
      simpl. rcmp. reflexivity.
Qed.

(** ** C8: the dry-adiabat generator *)

Lemma INR_lt_bound (k n : nat) : (k < n)%nat -> INR k <= IZR (Z.of_nat n) - 1.
Proof.
  intros Hk. assert (Hk' : (Datatypes.S k <= n)%nat) by lia.
  apply le_INR in Hk'. rewrite S_INR, (INR_IZR_INZ n) in Hk'. lra.
Qed.

Lemma thetaValues_loop :
  map (fun k => Fin (200 + 10 * INR k)) (List.seq 0 31) = thetaValues.
Proof.
  unfold thetaValues. cbn [List.seq map].
  repeat (f_equal; [apply Fin_eq; simpl; lra|]).
  f_equal. apply Fin_eq; simpl; lra.
Qed.

Lemma dryAdiabatTemp_Fin (theta p : R) :
  0 < p ->
  dryAdiabatTemp (Fin theta) (Fin p)
  = Fin (theta * Rpower (p / 1000) 0.286 - 273.15).
Proof.
  intros Hp. unfold dryAdiabatTemp.
  assert (Hdiv : (Fin p / Fin 1000)%js = Fin (p / 1000)).
  { simpl. rcmp. reflexivity. }
  rewrite Hdiv, pow_Fin; [reflexivity | | lra].
  apply Rdiv_lt_0_compat; lra.
Qed.

Lemma Rpower_1_l (y : R) : Rpower 1 y = 1.
Proof. unfold Rpower. rewrite ln_1, Rmult_0_r. apply exp_0. Qed.

Lemma drawDryAdiabats_refines (fuel : nat) (d : SkewTDiagram) (hi lo : R) :
  pMax d = Fin hi -> pMin d = Fin lo ->
  (31 < fuel)%nat -> (stepsAbove hi lo 5 < fuel)%nat ->
  drawDryAdiabats fuel d = dryAdiabatsSpec d hi lo.
Proof.
  intros Hhi Hlo Hfuel Hsweep.
  unfold drawDryAdiabats, dryAdiabatsSpec.
  apply bind_ext; intros _. apply bind_ext; intros _.
  rewrite (for_loop_up_forEach _ 500 10 31 fuel 200 tt).
  - rewrite thetaValues_loop. apply forEach_ext; intros theta [].
    unfold dryAdiabat. apply bind_ext; intros _.
    rewrite Hhi, Hlo.
    destruct (stepsAbove_spec hi lo 5 ltac:(lra)) as [Hin Hout].
    rewrite (for_loop_down_forEach _ lo 5 (stepsAbove hi lo 5) fuel hi true
               Hin Hout Hsweep).
    reflexivity.
  - intros k Hk. apply INR_lt_bound in Hk. simpl Z.of_nat in Hk. lra.
  - rewrite INR_IZR_INZ. simpl Z.of_nat. lra.
  - exact Hfuel.
Qed.

(** C8. Given fuel for its loops, [drawDryAdiabats] is the generator of
    the design: for each potential temperature 200, 210, ..., 500 K it
    sweeps the pressures [pMax - 5 k], from [pMax] down for as long as they
    are [>= pMin], computes [T = theta * (p / 1000)^0.286 - 273.15], passes
    over the pressure when [T < tMin - 20] or [T > tMax + 40], and otherwise
    plots one point at [(tempToX(T, p), pressureToY(p))]; at 300 K and
    1000 hPa, [T] is 26.85. *)
Theorem dryAdiabats_generator (fuel : nat) (d : SkewTDiagram) (hi lo : R) :
  pMax d = Fin hi -> pMin d = Fin lo ->
  (31 < fuel)%nat -> (stepsAbove hi lo 5 < fuel)%nat ->
  drawDryAdiabats fuel d = dryAdiabatsSpec d hi lo
  /\ ((forall k, (k < stepsAbove hi lo 5)%nat -> lo <= hi - 5 * INR k)
      /\ hi - 5 * INR (stepsAbove hi lo 5) < lo)
  /\ (forall theta p : R, 0 < p ->
        dryAdiabatTemp (Fin theta) (Fin p)
        = Fin (theta * Rpower (p / 1000) 0.286 - 273.15))
  /\ (forall (t p : num) (firstPoint : bool),
        (t <? tMin d - 20)%js = true \/ (t >? tMax d + 40)%js = true ->
        adiabatPoint d t p firstPoint = (Ok firstPoint, []))
  /\ (forall (t p y : num) (firstPoint : bool),
        (t <? tMin d - 20)%js = false -> (t >? tMax d + 40)%js = false ->
        pressureToY d p = Ok y ->
        adiabatPoint d t p firstPoint
        = (Ok false,
           [if firstPoint then moveTo (tempToX d t p) y
            else lineTo (tempToX d t p) y]))
  /\ dryAdiabatTemp (Fin 300) (Fin 1000) = Fin 26.85.
Proof.
  intros Hhi Hlo Hfuel Hsweep.
  split; [exact (drawDryAdiabats_refines fuel d hi lo Hhi Hlo Hfuel Hsweep)|].
  split; [exact (stepsAbove_spec hi lo 5 ltac:(lra))|].
  split; [exact dryAdiabatTemp_Fin|].
  split; [|split].
  - intros t p firstPoint Hskip. unfold adiabatPoint.
    destruct Hskip as [-> | ->]; [|rewrite orb_true_r]; reflexivity.
  - intros t p y firstPoint Hlow Hhigh Hy. unfold adiabatPoint.
    rewrite Hlow, Hhigh, Hy. cbn [orb]. unfold lift. rewrite bind_Ok.
    unfold plotPoint. destruct firstPoint; rewrite bind_emit; reflexivity.
  - rewrite dryAdiabatTemp_Fin by lra. apply Fin_eq.
    replace (1000 / 1000) with 1 by lra. rewrite Rpower_1_l. lra.
Qed.

Lemma stepsAbove_default_sweep : stepsAbove 1050 100 5 = 191%nat.
Proof.
  apply stepsAbove_unique; [lra| |].
  - intros k Hk. apply INR_lt_bound in Hk. simpl Z.of_nat in Hk. lra.
  - rewrite INR_IZR_INZ. simpl Z.of_nat. lra.
Qed.

(** The constructor's view: 191 pressures from 1050 down to 100 hPa. *)
Lemma dryAdiabats_generator_witness :
  drawDryAdiabats 192 (new_SkewTDiagram 1000 800)
  = dryAdiabatsSpec (new_SkewTDiagram 1000 800) 1050 100.
Proof.
  apply (dryAdiabats_generator 192 (new_SkewTDiagram 1000 800) 1050 100).
  - reflexivity.
  - reflexivity.
  - lia.
  - rewrite stepsAbove_default_sweep. lia.
Defined.

(** ** The frame is drawn whenever [pressureToHeight] has rows to read *)

Lemma pressureToHeight_readable (d : SkewTDiagram) (p : num) :
  profileReadable d -> exists h, pressureToHeight d p = Ok h.
Proof.
  unfold profileReadable, pressureToHeight.
  destruct (soundingData d) as [sd|]; [|intros _; eexists; reflexivity].
  destruct (data sd) as [rows|]; [|intros _; eexists; reflexivity].
  intros Hne. destruct rows as [|row rest]; [congruence|].
  destruct (pressureSearch (row :: rest) p) as [h|]; [eexists; reflexivity|].
  unfold prop at 1. cbn [nth_error].
  destruct (p >=? pressure row)%js; [eexists; reflexivity|].
  unfold prop.
  destruct (nth_error (row :: rest) (List.length (row :: rest) - 1))
    as [lastL|] eqn:Hlast.
  - destruct (p <=? pressure lastL)%js; eexists; reflexivity.
  - apply nth_error_None in Hlast. simpl in Hlast. lia.
Qed.

Lemma succeeds_lift_pressureToHeight (d : SkewTDiagram) (p : num) :
  profileReadable d -> succeeds (lift (pressureToHeight d p)).
Proof.
  intros H. destruct (pressureToHeight_readable d p H) as [h Hh].
  exists h. unfold lift, outcome. simpl. exact Hh.
Qed.

Lemma succeeds_lift_pressureToY (d : SkewTDiagram) (p : num) :
  profileReadable d -> succeeds (lift (pressureToY d p)).
Proof.
  intros H. destruct (pressureToHeight_readable d p H) as [h Hh].
  exists (heightToY d h). unfold lift, outcome, pressureToY. simpl.
  rewrite Hh. reflexivity.
Qed.

Lemma succeeds_plotPoint (firstPoint : bool) (x y : num) :
  succeeds (plotPoint firstPoint x y).
Proof.
  unfold plotPoint. destruct firstPoint;
    (apply succeeds_bind; [apply succeeds_emit | intros _; apply succeeds_ret]).
Qed.

(** Discharge [succeeds] for straight-line drawing code. *)
Ltac succeeds_steps :=
  repeat first
    [ apply succeeds_emit
    | apply succeeds_ret
    | apply succeeds_plotPoint
    | apply succeeds_bind; [|intros ?]
    | match goal with
      | |- succeeds (if ?b then _ else _) => destruct b
      end ].

Lemma succeeds_drawIsobar (d : SkewTDiagram) (labelled : bool) (p : num)
    (u : unit) :
  profileReadable d -> succeeds (drawIsobar d labelled p u).
Proof.
  intros H. unfold drawIsobar.
  destruct ((p <? pMin d)%js || (p >? pMax d)%js); [apply succeeds_ret|].
  apply succeeds_bind; [apply succeeds_lift_pressureToHeight; exact H|].
  intros h. succeeds_steps.
Qed.

Lemma succeeds_drawPressureLines (d : SkewTDiagram) :
  profileReadable d -> succeeds (drawPressureLines d).
Proof.
  intros H. unfold drawPressureLines.
  repeat (apply succeeds_bind; [apply succeeds_emit | intros _]).
  apply succeeds_bind.
  - apply succeeds_forEach. intros; apply succeeds_drawIsobar; exact H.
  - intros _. apply succeeds_bind; [apply succeeds_emit | intros _].
    apply succeeds_forEach. intros; apply succeeds_drawIsobar; exact H.
Qed.

Lemma succeeds_drawIsotherms (fuel : nat) (d : SkewTDiagram) :
  profileReadable d -> (16 < fuel)%nat -> succeeds (drawIsotherms fuel d).
Proof.
  intros H Hfuel. unfold drawIsotherms.
  repeat (apply succeeds_bind; [apply succeeds_emit | intros _]).
  apply (for_loop_up_succeeds _ 50 10) with (n := 16%nat).
  - intros t []. destruct ((t <? tMin d - 20)%js || (t >? tMax d + 20)%js);
      [apply succeeds_ret|].
    repeat (apply succeeds_bind; [apply succeeds_emit | intros _]).
    apply succeeds_bind; [apply succeeds_lift_pressureToY; exact H|].
    intros y1.
    apply succeeds_bind; [apply succeeds_lift_pressureToY; exact H|].
    intros y2. succeeds_steps.
  - rewrite INR_IZR_INZ. simpl Z.of_nat. lra.
  - exact Hfuel.
Qed.

Lemma succeeds_adiabatPoint (d : SkewTDiagram) (t p : num) (fp : bool) :
  profileReadable d -> succeeds (adiabatPoint d t p fp).
Proof.
  intros H. unfold adiabatPoint.
  destruct ((t <? tMin d - 20)%js || (t >? tMax d + 40)%js);
    [apply succeeds_ret|].
  apply succeeds_bind; [apply succeeds_lift_pressureToY; exact H|].
  intros y. apply succeeds_plotPoint.
Qed.

Lemma succeeds_pressure_sweep (fuel : nat) (d : SkewTDiagram) (hi lo : R)
    (body : num -> bool -> M bool) :
  pMax d = Fin hi -> pMin d = Fin lo ->
  (stepsAbove hi lo 5 < fuel)%nat ->
  (forall p fp, succeeds (body p fp)) ->
  succeeds (for_loop fuel (fun p => (p >=? pMin d)%js)
              (fun p => (p - 5)%js) body (pMax d) true).
Proof.
  intros Hhi Hlo Hfuel Hbody. rewrite Hhi, Hlo.
  apply (for_loop_down_succeeds _ lo 5 Hbody (stepsAbove hi lo 5)).
  - apply (stepsAbove_spec hi lo 5). lra.
  - exact Hfuel.
Qed.

Lemma succeeds_drawDryAdiabats (fuel : nat) (d : SkewTDiagram) (hi lo : R) :
  profileReadable d -> pMax d = Fin hi -> pMin d = Fin lo ->
  (31 < fuel)%nat -> (stepsAbove hi lo 5 < fuel)%nat ->
  succeeds (drawDryAdiabats fuel d).
Proof.
  intros H Hhi Hlo Hfuel Hsweep. unfold drawDryAdiabats.
  repeat (apply succeeds_bind; [apply succeeds_emit | intros _]).
  apply (for_loop_up_succeeds _ 500 10) with (n := 31%nat).
  - intros theta []. unfold dryAdiabat.
    apply succeeds_bind; [apply succeeds_emit | intros _].
    apply succeeds_bind; [|intros _; apply succeeds_emit].
    apply (succeeds_pressure_sweep fuel d hi lo); try assumption.
    intros p fp. apply succeeds_adiabatPoint; exact H.
  - rewrite INR_IZR_INZ. simpl Z.of_nat. lra.
  - exact Hfuel.
Qed.

Lemma succeeds_drawMoistAdiabats (fuel : nat) (d : SkewTDiagram) (hi lo : R) :
  profileReadable d -> pMax d = Fin hi -> pMin d = Fin lo ->
  (31 < fuel)%nat -> (stepsAbove hi lo 5 < fuel)%nat ->
  succeeds (drawMoistAdiabats fuel d).
Proof.
  intros H Hhi Hlo Hfuel Hsweep. unfold drawMoistAdiabats.
  repeat (apply succeeds_bind; [apply succeeds_emit | intros _]).
  apply (for_loop_up_succeeds _ 380 10) with (n := 11%nat).
  - intros theta []. unfold moistAdiabat.
    apply succeeds_bind; [apply succeeds_emit | intros _].
    apply succeeds_bind; [|intros _; apply succeeds_emit].
    apply (succeeds_pressure_sweep fuel d hi lo); try assumption.
    intros p fp. apply succeeds_adiabatPoint; exact H.
  - rewrite INR_IZR_INZ. simpl Z.of_nat. lra.
  - lia.
Qed.

Lemma succeeds_drawMixingRatioLines (fuel : nat) (d : SkewTDiagram) (hi : R) :
  profileReadable d -> pMax d = Fin hi ->
  (stepsAbove hi 600 10 < fuel)%nat ->
  succeeds (drawMixingRatioLines fuel d).
Proof.
  intros H Hhi Hsweep. unfold drawMixingRatioLines.
  repeat (apply succeeds_bind; [apply succeeds_emit | intros _]).
  apply succeeds_forEach. intros w [] _. unfold mixingRatioLine.
  apply succeeds_bind; [apply succeeds_emit | intros _].
  apply succeeds_bind; [|intros _; apply succeeds_emit].
  rewrite Hhi.
  apply (for_loop_down_succeeds _ 600 10) with (n := stepsAbove hi 600 10).
  - intros p fp. unfold mixingRatioPoint. cbv zeta.
    match goal with
    | |- succeeds (if ?b then _ else _) => destruct b; [apply succeeds_ret|]
    end.
    apply succeeds_bind; [apply succeeds_lift_pressureToY; exact H|].
    intros y. succeeds_steps.
  - apply (stepsAbove_spec hi 600 10). lra.
  - exact Hsweep.
Qed.

Lemma succeeds_drawFrame (fuel : nat) (d : SkewTDiagram) (hi lo : R) :
  profileReadable d -> pMax d = Fin hi -> pMin d = Fin lo ->
  (31 < fuel)%nat -> (stepsAbove hi lo 5 < fuel)%nat ->
  (stepsAbove hi 600 10 < fuel)%nat ->
  succeeds (drawHeightAxis fuel d) ->
  succeeds (drawFrame fuel d).
Proof.
  intros H Hhi Hlo Hfuel Hsweep Hmix Haxis. unfold drawFrame.
  repeat (apply succeeds_bind; [apply succeeds_emit | intros _]).
  apply succeeds_bind; [exact Haxis | intros _].
  apply succeeds_bind; [apply succeeds_drawPressureLines; exact H | intros _].
  apply succeeds_bind;
    [apply succeeds_drawIsotherms; [exact H | lia] | intros _].
  apply succeeds_bind;
    [apply (succeeds_drawDryAdiabats fuel d hi lo); assumption | intros _].
  apply succeeds_bind;
    [apply (succeeds_drawMoistAdiabats fuel d hi lo); assumption | intros _].
  apply succeeds_bind;
    [apply (succeeds_drawMixingRatioLines fuel d hi); assumption | intros _].
  unfold drawBorder. succeeds_steps.
Qed.

(** ** C6: the profile polylines in a zoomed view *)

Lemma vertices_app (a b : list Cmd) :
  vertices (a ++ b) = vertices a ++ vertices b.
Proof.
  induction a as [|c a IH]; [reflexivity|].
  destruct c; simpl; rewrite IH; reflexivity.
Qed.

(** The height axis after [setHeightRange(500, 4500)]: ticks at 500, 1000,
    ..., 4500. *)
Lemma drawHeightAxis_zoomed (d : SkewTDiagram) (sd : option SoundingData)
    (fuel : nat) :
  (9 < fuel)%nat ->
  succeeds (drawHeightAxis fuel
              (storeSounding (setHeightRange d (Fin 500) (Fin 4500)) sd)).
Proof.
  intros Hfuel. unfold drawHeightAxis.
  repeat (apply succeeds_bind; [apply succeeds_emit | intros _]).
  apply succeeds_bind; [|intros _; apply succeeds_emit].
  cbn [hMax hMin storeSounding setHeightRange].
  change (Fin 4500 - Fin 500)%js with (Fin (4500 - 500)).
  unfold heightInterval; simpl le; rcmp.
  simpl div; rcmp. unfold ceil.
  rewrite (Int_part_IZR (- (500 / 500)) (-1)) by lra.
  change (Fin (- -1) * Fin 500)%js with (Fin (- -1 * 500)).
  apply (for_loop_up_succeeds _ 4500 500) with (n := 9%nat).
  - intros i s. repeat (apply succeeds_bind; [apply succeeds_emit | intros _]).
    apply succeeds_emit.
  - simpl; lra.
  - exact Hfuel.
Qed.

Lemma temperaturePoint_run (d : SkewTDiagram) (row : Level) (fp : bool) :
  temperaturePoint d row fp
  = if JS.isNaN (temp row)
       || negb (insideWindow (hMin d) (hMax d) (pMin d) (pMax d) row)
    then (Ok fp, [])
    else (Ok false,
          [if fp
           then moveTo (fst (temperatureVertex d row))
                  (snd (temperatureVertex d row))
           else lineTo (fst (temperatureVertex d row))
                  (snd (temperatureVertex d row))]).
Proof.
  unfold temperaturePoint, insideWindow, temperatureVertex, plotPoint.
  destruct (JS.isNaN (temp row)); [reflexivity|].
  destruct (pressure row <? pMin d)%js;
    [cbn [orb andb negb]; rewrite !andb_false_r; reflexivity|].
  destruct (pressure row >? pMax d)%js;
    [cbn [orb andb negb]; rewrite !andb_false_r; reflexivity|].
  destruct (height row <? hMin d)%js; [reflexivity|].
  destruct (height row >? hMax d)%js; [reflexivity|].
  cbn [orb andb negb fst snd].
  destruct fp; rewrite bind_emit; reflexivity.
Qed.

Lemma dewpointPoint_run (d : SkewTDiagram) (row : Level) (fp : bool) :
  dewpointPoint d row fp
  = if JS.isNaN (dewpoint row)
       || negb (insideWindow (hMin d) (hMax d) (pMin d) (pMax d) row)
    then (Ok fp, [])
    else (Ok false,
          [if fp
           then moveTo (fst (dewpointVertex d row))
                  (snd (dewpointVertex d row))
           else lineTo (fst (dewpointVertex d row))
                  (snd (dewpointVertex d row))]).
Proof.
  unfold dewpointPoint, insideWindow, dewpointVertex, plotPoint.
  destruct (JS.isNaN (dewpoint row)); [reflexivity|].
  destruct (pressure row <? pMin d)%js;
    [cbn [orb andb negb]; rewrite !andb_false_r; reflexivity|].
  destruct (pressure row >? pMax d)%js;
    [cbn [orb andb negb]; rewrite !andb_false_r; reflexivity|].
  destruct (height row <? hMin d)%js; [reflexivity|].
  destruct (height row >? hMax d)%js; [reflexivity|].
  cbn [orb andb negb fst snd].
  destruct fp; rewrite bind_emit; reflexivity.
Qed.

(** A polyline loop whose callback either passes over the row or plots its
    vertex: it returns, and its vertices are those of the rows kept. *)
Lemma polyline_vertices (point : Level -> bool -> M bool)
    (skip : Level -> bool) (vertex : Level -> num * num) :
  (forall row fp,
      point row fp
      = if skip row then (Ok fp, [])
        else (Ok false,
              [if fp then moveTo (fst (vertex row)) (snd (vertex row))
               else lineTo (fst (vertex row)) (snd (vertex row))])) ->
  forall (rows : list Level) (fp : bool),
    succeeds (forEach rows point fp)
    /\ vertices (trace (forEach rows point fp))
       = map vertex (filter (fun row => negb (skip row)) rows).
Proof.
  intros Hpoint. induction rows as [|row rest IH]; intros fp.
  - split; [apply succeeds_ret | reflexivity].
  - cbn [forEach filter]. rewrite Hpoint.
    destruct (skip row); cbn [negb]; rewrite bind_Ok.
    + destruct (IH fp) as [[fp' Hok] Hv]. split.
      * exists fp'. exact Hok.
      * cbn [trace snd app]. exact Hv.
    + destruct (IH false) as [[fp' Hok] Hv]. split.
      * exists fp'. exact Hok.
      * cbn [trace snd app map]. destruct fp; cbn [vertices];
          rewrite Hv; destruct (vertex row); reflexivity.
Qed.

Lemma drawTemperatureProfile_vertices (d : SkewTDiagram) (rows : list Level) :
  succeeds (drawTemperatureProfile d rows)
  /\ vertices (trace (drawTemperatureProfile d rows))
     = map (temperatureVertex d)
         (filter (fun row =>
                    negb (JS.isNaN (temp row))
                    && insideWindow (hMin d) (hMax d) (pMin d) (pMax d) row)
            rows).
Proof.
  destruct (polyline_vertices (temperaturePoint d) _ (temperatureVertex d)
              (temperaturePoint_run d) rows true) as [[fp Hok] Hv].
  unfold drawTemperatureProfile. split.
  - repeat (apply succeeds_bind; [apply succeeds_emit | intros _]).
    apply succeeds_bind; [exists fp; exact Hok | intros _; apply succeeds_emit].
  - rewrite !bind_emit. cbn [trace snd vertices].
    rewrite trace_bind, Hok, vertices_app, Hv. cbn [trace emit snd vertices].
    rewrite app_nil_r. f_equal. apply filter_ext. intros row.
    rewrite negb_orb, negb_involutive. reflexivity.
Qed.

Lemma drawDewpointProfile_vertices (d : SkewTDiagram) (rows : list Level) :
  succeeds (drawDewpointProfile d rows)
  /\ vertices (trace (drawDewpointProfile d rows))
     = map (dewpointVertex d)
         (filter (fun row =>
                    negb (JS.isNaN (dewpoint row))
                    && insideWindow (hMin d) (hMax d) (pMin d) (pMax d) row)
            rows).
Proof.
  destruct (polyline_vertices (dewpointPoint d) _ (dewpointVertex d)
              (dewpointPoint_run d) rows true) as [[fp Hok] Hv].
  unfold drawDewpointProfile. split.
  - repeat (apply succeeds_bind; [apply succeeds_emit | intros _]).
    apply succeeds_bind; [exists fp; exact Hok | intros _; apply succeeds_emit].
  - rewrite !bind_emit. cbn [trace snd vertices].
    rewrite trace_bind, Hok, vertices_app, Hv. cbn [trace emit snd vertices].
    rewrite app_nil_r. f_equal. apply filter_ext. intros row.
    rewrite negb_orb, negb_involutive. reflexivity.
Qed.

Lemma tempToX_NaN_pressure (d : SkewTDiagram) (t : num) :
  tempToX d t NaN = NaN.
Proof.
  unfold tempToX. cbn [JS.log].
  change (JS.log (pMax d) - NaN)%js with (JS.log (pMax d) + NaN)%js.
  rewrite add_NaN_r, mul_NaN_r. apply add_NaN_r.
Qed.

Lemma heightToY_NaN (d : SkewTDiagram) : heightToY d NaN = NaN.
Proof.
  unfold heightToY. cbn [sub add neg div]. rewrite mul_NaN_r. apply add_NaN_r.
Qed.

Lemma insideWindow_iff (hlo hhi plo phi : num) (row : Level) :
  insideWindow hlo hhi plo phi row = true
  <-> (height row <? hlo)%js = false /\ (height row >? hhi)%js = false
      /\ (pressure row <? plo)%js = false /\ (pressure row >? phi)%js = false.
Proof.
  unfold insideWindow. rewrite !andb_true_iff, !negb_true_iff. tauto.
Qed.

(** C6 (amended).  After [setHeightRange(500, 4500)], [draw] of a profile
    with at least one level draws the frame, then the temperature polyline,
    then the dewpoint polyline.  The [moveTo] and [lineTo] calls of each
    polyline are those of the levels it keeps, in the order of the profile,
    and a level is kept exactly when its temperature (dewpoint) is not
    [NaN] and none of the four comparisons [height < 500], [height > 4500],
    [pressure < pMin], [pressure > pMax] holds.  So a level with height
    below 500 or above 4500, or with pressure below [pMin] or above
    [pMax], gives no vertex to either polyline (it is passed over, no vertex
    is put on a bound in its place), and a level whose temperature
    (dewpoint) is [NaN] gives none to the temperature (dewpoint) polyline.
    A level whose height or pressure is [NaN] is not passed over on that
    account: the comparisons are false, and it gets a vertex with a [NaN]
    coordinate.  After the draw the diagram holds the sounding it was
    given, and a second draw of that sounding makes the same calls as the
    first.  The pressure bounds of the view are at most
    [Number.MAX_SAFE_INTEGER] in magnitude. *)
Theorem zoomed_profile_polylines (fuel : nat) (d : SkewTDiagram)
    (sd : SoundingData) (rows : list Level) (hi lo : R) :
  pMax d = Fin hi -> pMin d = Fin lo -> safe hi -> safe lo ->
  data sd = Some rows -> rows <> [] ->
  (31 < fuel)%nat -> (stepsAbove hi lo 5 < fuel)%nat ->
  (stepsAbove hi 600 10 < fuel)%nat ->
  let zoomed := setHeightRange d (Fin 500) (Fin 4500) in
  let this := fst (draw fuel zoomed (Some sd)) in
  let drawn := trace (snd (draw fuel zoomed (Some sd))) in
  let keptT :=
    filter (fun row => negb (JS.isNaN (temp row))
                       && insideWindow (Fin 500) (Fin 4500) (Fin lo) (Fin hi) row)
      rows in
  let keptD :=
    filter (fun row => negb (JS.isNaN (dewpoint row))
                       && insideWindow (Fin 500) (Fin 4500) (Fin lo) (Fin hi) row)
      rows in
  (exists frame rest,
      drawn = frame ++ trace (drawTemperatureProfile this rows)
                    ++ trace (drawDewpointProfile this rows) ++ rest)
  /\ vertices (trace (drawTemperatureProfile this rows))
     = map (temperatureVertex this) keptT
  /\ vertices (trace (drawDewpointProfile this rows))
     = map (dewpointVertex this) keptD
  /\ (forall row,
        In row keptT
        <-> In row rows /\ JS.isNaN (temp row) = false
            /\ (height row <? Fin 500)%js = false
            /\ (height row >? Fin 4500)%js = false
            /\ (pressure row <? Fin lo)%js = false
            /\ (pressure row >? Fin hi)%js = false)
  /\ (forall row,
        In row keptD
        <-> In row rows /\ JS.isNaN (dewpoint row) = false
            /\ (height row <? Fin 500)%js = false
            /\ (height row >? Fin 4500)%js = false
            /\ (pressure row <? Fin lo)%js = false
            /\ (pressure row >? Fin hi)%js = false)
  /\ (forall row,
        (height row <? Fin 500)%js = true \/ (height row >? Fin 4500)%js = true
        \/ (pressure row <? Fin lo)%js = true
        \/ (pressure row >? Fin hi)%js = true ->
        ~ In row keptT /\ ~ In row keptD)
  /\ (forall row, JS.isNaN (temp row) = true -> ~ In row keptT)
  /\ (forall row, JS.isNaN (dewpoint row) = true -> ~ In row keptD)
  /\ (forall row,
        In row rows -> JS.isNaN (height row) = true ->
        (pressure row <? Fin lo)%js = false ->
        (pressure row >? Fin hi)%js = false ->
        (JS.isNaN (temp row) = false -> In row keptT)
        /\ (JS.isNaN (dewpoint row) = false -> In row keptD)
        /\ snd (temperatureVertex this row) = NaN
        /\ snd (dewpointVertex this row) = NaN)
  /\ (forall row,
        In row rows -> JS.isNaN (pressure row) = true ->
        (height row <? Fin 500)%js = false ->
        (height row >? Fin 4500)%js = false ->
        (JS.isNaN (temp row) = false -> In row keptT)
        /\ (JS.isNaN (dewpoint row) = false -> In row keptD)
        /\ fst (temperatureVertex this row) = NaN
        /\ fst (dewpointVertex this row) = NaN)
  /\ soundingData this = Some sd
  /\ draw fuel this (Some sd) = draw fuel zoomed (Some sd).
Proof.
  intros Hhi Hlo _ _ Hdata Hne Hfuel Hsweep Hmix. cbv zeta.
  set (this := fst (draw fuel (setHeightRange d (Fin 500) (Fin 4500)) (Some sd))).
  assert (Hthis : this = storeSounding (setHeightRange d (Fin 500) (Fin 4500))
                           (Some sd)) by reflexivity.
  assert (HhMin : hMin this = Fin 500) by reflexivity.
  assert (HhMax : hMax this = Fin 4500) by reflexivity.
  assert (HpMin : pMin this = Fin lo) by exact Hlo.
  assert (HpMax : pMax this = Fin hi) by exact Hhi.
  destruct (drawTemperatureProfile_vertices this rows) as [[uT HokT] HvT].
  destruct (drawDewpointProfile_vertices this rows) as [[uD HokD] HvD].
  rewrite HhMin, HhMax, HpMin, HpMax in HvT, HvD.
  assert (HkeptT : forall row,
             In row (filter
                       (fun row => negb (JS.isNaN (temp row))
                                   && insideWindow (Fin 500) (Fin 4500)
                                        (Fin lo) (Fin hi) row) rows)
             <-> In row rows /\ JS.isNaN (temp row) = false
                 /\ (height row <? Fin 500)%js = false
                 /\ (height row >? Fin 4500)%js = false
                 /\ (pressure row <? Fin lo)%js = false
                 /\ (pressure row >? Fin hi)%js = false).
  { intros row.
    rewrite filter_In, andb_true_iff, negb_true_iff, insideWindow_iff.
    tauto. }
  assert (HkeptD : forall row,
             In row (filter
                       (fun row => negb (JS.isNaN (dewpoint row))
                                   && insideWindow (Fin 500) (Fin 4500)
                                        (Fin lo) (Fin hi) row) rows)
             <-> In row rows /\ JS.isNaN (dewpoint row) = false
                 /\ (height row <? Fin 500)%js = false
                 /\ (height row >? Fin 4500)%js = false
                 /\ (pressure row <? Fin lo)%js = false
                 /\ (pressure row >? Fin hi)%js = false).
  { intros row.
    rewrite filter_In, andb_true_iff, negb_true_iff, insideWindow_iff.
    tauto. }
  split; [|split; [exact HvT|split; [exact HvD|]]].
  - assert (Hread : profileReadable this).
    { unfold profileReadable. rewrite Hthis. cbn [soundingData storeSounding].
      rewrite Hdata. intros E; injection E as E; contradiction. }
    assert (Hframe : succeeds (drawFrame fuel this)).
    { apply (succeeds_drawFrame fuel this hi lo); try assumption.
      rewrite Hthis. apply drawHeightAxis_zoomed. lia. }
    destruct Hframe as [u Hframe].
    exists (trace (drawFrame fuel this)).
    change (snd (draw fuel (setHeightRange d (Fin 500) (Fin 4500)) (Some sd)))
      with (drawFrame fuel this ;; drawProfile fuel this (Some sd) ;;
            drawTitle this (metadata sd)).
    rewrite trace_bind, Hframe, trace_bind.
    assert (Hprofile : drawProfile fuel this (Some sd)
                       = (drawTemperatureProfile this rows ;;
                          drawDewpointProfile this rows ;;
                          drawWindBarbs fuel this rows)).
    { unfold drawProfile, profileRows. rewrite Hdata.
      destruct rows as [|row rest]; [contradiction|reflexivity]. }
    rewrite Hprofile, !trace_bind, HokT, HokD.
    eexists. rewrite <- !app_assoc. reflexivity.
  - split; [exact HkeptT|]. split; [exact HkeptD|].
    split; [|split; [|split; [|split; [|split; [|split; reflexivity]]]]].
    + intros row Hout. split; intros Hin.
      * apply HkeptT in Hin as [_ [_ [H1 [H2 [H3 H4]]]]].
        destruct Hout as [E|[E|[E|E]]]; congruence.
      * apply HkeptD in Hin as [_ [_ [H1 [H2 [H3 H4]]]]].
        destruct Hout as [E|[E|[E|E]]]; congruence.
    + intros row Hnan Hin. apply HkeptT in Hin as [_ [Hin _]]. congruence.
    + intros row Hnan Hin. apply HkeptD in Hin as [_ [Hin _]]. congruence.
    + intros row Hin Hnan Hp1 Hp2.
      assert (Hh : height row = NaN)
        by (destruct (height row); try discriminate; reflexivity).
      split; [|split; [|split]].
      * intros Ht. apply HkeptT. rewrite Hh. repeat split; assumption.
      * intros Ht. apply HkeptD. rewrite Hh. repeat split; assumption.
      * unfold temperatureVertex. cbn [snd]. rewrite Hh. apply heightToY_NaN.
      * unfold dewpointVertex. cbn [snd]. rewrite Hh. apply heightToY_NaN.
    + intros row Hin Hnan Hh1 Hh2.
      assert (Hp : pressure row = NaN)
        by (destruct (pressure row); try discriminate; reflexivity).
      split; [|split; [|split]].
      * intros Ht. apply HkeptT. rewrite Hp. repeat split; assumption.
      * intros Ht. apply HkeptD. rewrite Hp. repeat split; assumption.
      * unfold temperatureVertex. cbn [fst]. rewrite Hp.
        apply tempToX_NaN_pressure.
      * unfold dewpointVertex. cbn [fst]. rewrite Hp.
        apply tempToX_NaN_pressure.
Qed.

Lemma stepsAbove_default_mixing : stepsAbove 1050 600 10 = 46%nat.
Proof.
  apply stepsAbove_unique; [lra| |].
  - intros k Hk. apply INR_lt_bound in Hk. simpl Z.of_nat in Hk. lra.
  - rewrite INR_IZR_INZ. simpl Z.of_nat. lra.
Qed.

(** The constructor's diagram, zoomed, drawing a profile of three levels at
    300 m, 1500 m and 5600 m: the temperature polyline has the vertex of the
    middle level alone, and the dewpoint polyline, whose value is missing
    there, has none. *)
Lemma zoomed_profile_polylines_witness :
  let this := fst (draw 192 (setHeightRange (new_SkewTDiagram 1000 800)
                               (Fin 500) (Fin 4500))
                     (Some (soundingOf sampleLevels))) in
  vertices (trace (drawTemperatureProfile this sampleLevels))
  = [temperatureVertex this midLevel]
  /\ vertices (trace (drawDewpointProfile this sampleLevels)) = []
  /\ soundingData this = Some (soundingOf sampleLevels).
Proof.
  cbv zeta.
  destruct (zoomed_profile_polylines 192 (new_SkewTDiagram 1000 800)
              (soundingOf sampleLevels) sampleLevels 1050 100
              eq_refl eq_refl
              ltac:(unfold safe, MAX_SAFE_INTEGER; lra)
              ltac:(unfold safe, MAX_SAFE_INTEGER; lra)
              eq_refl ltac:(discriminate) ltac:(lia)
              ltac:(rewrite stepsAbove_default_sweep; lia)
              ltac:(rewrite stepsAbove_default_mixing; lia))
    as [_ [HT [HD [_ [_ [_ [_ [_ [_ [_ [Hsd _]]]]]]]]]]].
  split; [|split; [|exact Hsd]].
  - rewrite HT. unfold sampleLevels, insideWindow, lowLevel, midLevel, highLevel.
    cbn [filter temp height pressure JS.isNaN negb andb].
    unfold gt. cbn [lt]. rcmp. cbn [filter negb andb map]. reflexivity.
  - rewrite HD. unfold sampleLevels, insideWindow, lowLevel, midLevel, highLevel.
    cbn [filter dewpoint height pressure JS.isNaN negb andb].
    unfold gt. cbn [lt]. rcmp. cbn [filter negb andb map]. reflexivity.
Defined.

(** C6 as stated fails for a level with a [NaN] value that is not the
    plotted one: in the zoomed view, a level whose height is [NaN], with a
    temperature and a pressure in range, is not skipped.  The temperature
    polyline gets its vertex, the one call [moveTo] of the polyline, with
    the ordinate [NaN]. *)
Lemma zoomed_profile_nan_height_not_skipped :
  let this := fst (draw 192 (setHeightRange (new_SkewTDiagram 1000 800)
                               (Fin 500) (Fin 4500))
                     (Some (soundingOf [levelWithoutHeight]))) in
  JS.isNaN (height levelWithoutHeight) = true
  /\ vertices (trace (drawTemperatureProfile this [levelWithoutHeight]))
     = [temperatureVertex this levelWithoutHeight]
  /\ snd (temperatureVertex this levelWithoutHeight) = NaN
  /\ In (moveTo (fst (temperatureVertex this levelWithoutHeight)) NaN)
       (trace (drawTemperatureProfile this [levelWithoutHeight])).
Proof.
  cbv zeta.
  set (this := fst (draw 192 (setHeightRange (new_SkewTDiagram 1000 800)
                                (Fin 500) (Fin 4500))
                      (Some (soundingOf [levelWithoutHeight])))).
  assert (Hpoint : temperaturePoint this levelWithoutHeight true
                   = (Ok false,
                      [moveTo (fst (temperatureVertex this levelWithoutHeight))
                         (snd (temperatureVertex this levelWithoutHeight))])).
  { rewrite temperaturePoint_run.
    unfold insideWindow, levelWithoutHeight.
    cbn [temp height pressure JS.isNaN negb andb orb pMin pMax hMin hMax
         this draw fst storeSounding setHeightRange new_SkewTDiagram].
    unfold gt. cbn [lt]. rcmp. reflexivity. }
  assert (Hy : snd (temperatureVertex this levelWithoutHeight) = NaN)
    by (unfold temperatureVertex; cbn [snd]; apply heightToY_NaN).
  split; [reflexivity|].
  unfold drawTemperatureProfile. cbn [forEach].
  rewrite !bind_emit, trace_bind. cbn [trace snd].
  rewrite trace_bind, Hpoint. cbn [outcome trace fst snd ret emit app vertices].
  split; [destruct (temperatureVertex this levelWithoutHeight); reflexivity|].
  split; [exact Hy|].
  rewrite Hy. right; right; right. left. reflexivity.
Qed.

(** ** The frame without a profile *)

Lemma succeeds_drawTitle (d : SkewTDiagram) (metadata : option Metadata) :
  succeeds (drawTitle d metadata).
Proof.
  unfold drawTitle.
  repeat (apply succeeds_bind; [apply succeeds_emit | intros _]).
  apply succeeds_bind.
  - destruct metadata; [|apply succeeds_ret].
    apply succeeds_bind; apply succeeds_emit || (intros _; apply succeeds_emit).
  - intros _. succeeds_steps.
Qed.

(** With no profile at all the same call returns: the frame uses the
    standard atmosphere. *)
Lemma draw_without_profile_returns (cw ch : num) (fuel : nat) :
  (191 < fuel)%nat ->
  succeeds (snd (draw fuel (new_SkewTDiagram cw ch) None)).
Proof.
  intros Hfuel. unfold draw, snd.
  apply succeeds_bind; [|intros _; apply succeeds_bind].
  - apply (succeeds_drawFrame fuel _ 1050 100).
    + exact I.
    + reflexivity.
    + reflexivity.
    + lia.
    + rewrite stepsAbove_default_sweep. lia.
    + rewrite stepsAbove_default_mixing. lia.
    + apply drawHeightAxis_default. lia.
  - apply succeeds_ret.
  - intros _. apply succeeds_drawTitle.
Qed.

(** * Further properties of the code *)

(** ** The height axis: [heightToY] *)

Lemma heightToY_Fin (d : SkewTDiagram) (a b t0 H h : R) :
  hMin d = Fin a -> hMax d = Fin b -> a <> b ->
  top (margin d) = Fin t0 -> plotHeight d = Fin H ->
  heightToY d (Fin h) = Fin (t0 + H * (1 - (h - a) / (b - a))).
Proof.
  intros Ha Hb Hne Ht HH. unfold heightToY. rewrite Ha, Hb, Ht, HH.
  simpl. rcmp. reflexivity.
Qed.

(** X1.  [heightToY] puts [hMin] on the bottom edge of the plot and [hMax] on its
    top edge, never puts the higher of two heights below the lower, and
    keeps every height of the range inside the plot. *)
Theorem heightToY_axis (d : SkewTDiagram) (a b t0 H : R) :
  hMin d = Fin a -> hMax d = Fin b -> a < b ->
  top (margin d) = Fin t0 -> plotHeight d = Fin H -> 0 < H ->
  heightToY d (Fin a) = Fin (t0 + H)
  /\ heightToY d (Fin b) = Fin t0
  /\ (forall h1 h2 : R, h1 <= h2 ->
        exists y1 y2, heightToY d (Fin h1) = Fin y1
                      /\ heightToY d (Fin h2) = Fin y2 /\ y2 <= y1)
  /\ (forall h : R, a <= h <= b ->
        exists y, heightToY d (Fin h) = Fin y /\ t0 <= y <= t0 + H).
Proof.
  intros Ha Hb Hlt Ht HH Hpos.
  assert (Hne : a <> b) by lra.
  assert (Hy : forall h, heightToY d (Fin h)
                         = Fin (t0 + H * (1 - (h - a) / (b - a))))
    by (intros h; apply heightToY_Fin; assumption).
  assert (Hinv : 0 < / (b - a)) by (apply Rinv_0_lt_compat; lra).
  split; [|split; [|split]].
  - rewrite Hy. apply Fin_eq. field. lra.
  - rewrite Hy. apply Fin_eq. field. lra.
  - intros h1 h2 Hh. eexists; eexists. split; [apply Hy|]. split; [apply Hy|].
    assert ((h1 - a) / (b - a) <= (h2 - a) / (b - a)) by (unfold Rdiv; nra).
    nra.
  - intros h [Hl Hu]. eexists. split; [apply Hy|].
    assert (0 <= (h - a) / (b - a) <= 1).
    { unfold Rdiv. split; [nra|].
      assert ((h - a) * / (b - a) <= (b - a) * / (b - a)) by nra.
      rewrite Rinv_r in H0 by lra. exact H0. }
    nra.
Qed.

Lemma heightToY_axis_witness :
  heightToY (new_SkewTDiagram 1000 800) (Fin 0) = Fin (50 + (800 - 50 - 50))
  /\ heightToY (new_SkewTDiagram 1000 800) (Fin 4500) = Fin 50.
Proof.
  destruct (heightToY_axis (new_SkewTDiagram 1000 800) 0 4500 50
              (800 - 50 - 50) eq_refl eq_refl ltac:(lra) eq_refl eq_refl
              ltac:(lra)) as [H0 [H1 _]].
  split; [exact H0 | exact H1].
Defined.

(** ** [tempToX] orders temperatures *)

Lemma tempToX_Fin (d : SkewTDiagram) (a b l w pm k t p : R) :
  tMin d = Fin a -> tMax d = Fin b -> a <> b ->
  left (margin d) = Fin l -> width d = Fin w ->
  pMax d = Fin pm -> 0 < pm -> skew d = Fin k -> 0 < p ->
  tempToX d (Fin t) (Fin p)
  = Fin (l + w * ((t - a) / (b - a)) + k * (ln pm - ln p)).
Proof.
  intros Ha Hb Hne Hl Hw Hpm Hpos Hk Hp. unfold tempToX.
  rewrite Ha, Hb, Hl, Hw, Hpm, Hk, !log_Fin by assumption.
  simpl. rcmp. reflexivity.
Qed.

(** X3.  At one pressure [tempToX] never puts the higher of two temperatures
    left of the lower, so the temperature curve is never left of the
    dewpoint curve where the temperature is the higher. *)
Theorem tempToX_monotone (d : SkewTDiagram) (a b l w pm k : R) :
  tMin d = Fin a -> tMax d = Fin b -> a < b ->
  left (margin d) = Fin l -> width d = Fin w -> 0 < w ->
  pMax d = Fin pm -> 0 < pm -> skew d = Fin k ->
  forall t1 t2 p : R, 0 < p -> t1 <= t2 ->
    exists x1 x2, tempToX d (Fin t1) (Fin p) = Fin x1
                  /\ tempToX d (Fin t2) (Fin p) = Fin x2 /\ x1 <= x2.
Proof.
  intros Ha Hb Hlt Hl Hw Hwpos Hpm Hpos Hk.
  assert (Hne : a <> b) by lra.
  assert (Hx : forall t p, 0 < p ->
             tempToX d (Fin t) (Fin p)
             = Fin (l + w * ((t - a) / (b - a)) + k * (ln pm - ln p)))
    by (intros t p Hp; apply tempToX_Fin; assumption).
  assert (Hinv : 0 < / (b - a)) by (apply Rinv_0_lt_compat; lra).
  intros t1 t2 p Hp Ht. eexists; eexists.
  split; [apply Hx; exact Hp|]. split; [apply Hx; exact Hp|].
  assert ((t1 - a) / (b - a) <= (t2 - a) / (b - a)) by (unfold Rdiv; nra).
  nra.
Qed.

Lemma tempToX_monotone_witness :
  exists x1 x2,
    tempToX (new_SkewTDiagram 1000 800) (Fin 0) (Fin 850) = Fin x1
    /\ tempToX (new_SkewTDiagram 1000 800) (Fin 10) (Fin 850) = Fin x2
    /\ x1 <= x2.
Proof.
  apply (tempToX_monotone (new_SkewTDiagram 1000 800) (-60) 50 100
           (1000 - 100 - 150) 1050 35 eq_refl eq_refl ltac:(lra)
           eq_refl eq_refl ltac:(lra) eq_refl ltac:(lra) eq_refl).
  - lra.
  - lra.
Defined.

(** ** [pressureToHeight]: when it throws, and a profile in ascending
    order *)

(** X4.  [pressureToHeight] and [pressureToY] throw for one input only, a
    [data] array that is empty, and then at every pressure. *)
Theorem pressureToHeight_throws_iff_empty (d : SkewTDiagram) (p : num) :
  ((exists e, pressureToHeight d p = Throw e)
   <-> exists sd, soundingData d = Some sd /\ data sd = Some [])
  /\ ((exists e, pressureToY d p = Throw e)
      <-> exists sd, soundingData d = Some sd /\ data sd = Some []).
Proof.
  assert (H : (exists e, pressureToHeight d p = Throw e)
              <-> exists sd, soundingData d = Some sd /\ data sd = Some []).
  { split.
    - intros [e He].
      destruct (soundingData d) as [sd|] eqn:Hsd.
      + exists sd. split; [reflexivity|].
        destruct (data sd) as [[|row rest]|] eqn:Hdata; [reflexivity| |].
        * assert (Hread : profileReadable d).
          { unfold profileReadable. rewrite Hsd, Hdata. discriminate. }
          destruct (pressureToHeight_readable d p Hread) as [h Hh].
          rewrite Hh in He. discriminate.
        * unfold pressureToHeight in He. rewrite Hsd, Hdata in He.
          discriminate.
      + unfold pressureToHeight in He. rewrite Hsd in He. discriminate.
    - intros [sd [Hsd Hdata]]. exists TypeError.
      apply (pressureToHeight_empty d sd p Hsd Hdata). }
  split; [exact H|].
  rewrite <- H. unfold pressureToY. split; intros [e He].
  - destruct (pressureToHeight d p) as [h|e'|]; try discriminate.
    exists e'. reflexivity.
  - exists e. rewrite He. reflexivity.
Qed.

Lemma pressureSearch_ascending (rows : list Level) (p : num) :
  Ascending rows -> pressureSearch rows p = None.
Proof.
  induction 1 as [|l q h Hq Hh|l1 l2 rest p1 h1 p2 Hp1 Hh1 Hp2 Hlt HA IH];
    try reflexivity.
  rewrite pressureSearch_cons, Hp1, Hp2.
  destruct p as [| | |x]; try (cbn; exact IH); try reflexivity.
  change (Fin p1 >=? Fin x)%js with (Rleb x p1).
  change (Fin p2 <=? Fin x)%js with (Rleb p2 x).
  destruct (Rleb x p1) eqn:E1; [|exact IH].
  apply Rleb_true in E1. rewrite (proj2 (Rleb_false p2 x)) by lra. exact IH.
Qed.

Lemma Ascending_first_le_last (rows : list Level) :
  Ascending rows ->
  forall first lastL pf pl,
    nth_error rows 0 = Some first ->
    nth_error rows (List.length rows - 1) = Some lastL ->
    pressure first = Fin pf -> pressure lastL = Fin pl -> pf <= pl.
Proof.
  induction 1 as [|l q h Hq Hh|l1 l2 rest p1 h1 p2 Hp1 Hh1 Hp2 Hlt HA IH];
    intros first lastL pf pl Hfirst Hlast Hpf Hpl.
  - discriminate.
  - simpl in Hfirst, Hlast. injection Hfirst as <-. injection Hlast as <-.
    rewrite Hpf in Hpl; injection Hpl as <-. lra.
  - simpl in Hfirst. injection Hfirst as <-.
    rewrite Hp1 in Hpf; injection Hpf as <-.
    assert (Hlast' : nth_error (l2 :: rest) (List.length (l2 :: rest) - 1)
                     = Some lastL).
    { simpl in Hlast |- *. rewrite Nat.sub_0_r. exact Hlast. }
    pose proof (IH l2 lastL p2 pl eq_refl Hlast' Hp2 Hpl). lra.
Qed.

(** X6.  With a pressure-ascending profile loaded the search never finds a
    bracketing pair, so [pressureToHeight] never interpolates: it returns
    the first level's height at or above the first level's pressure and the
    last level's height below it. *)
Theorem pressureToHeight_ascending (d : SkewTDiagram) (sd : SoundingData)
    (rows : list Level) (first lastL : Level) (pf hf hl : R) :
  soundingData d = Some sd -> data sd = Some rows -> Ascending rows ->
  nth_error rows 0 = Some first ->
  nth_error rows (List.length rows - 1) = Some lastL ->
  pressure first = Fin pf -> height first = Fin hf -> height lastL = Fin hl ->
  forall p : R,
    pressureToHeight d (Fin p) = Ok (Fin (if Rle_dec pf p then hf else hl)).
Proof.
  intros Hsd Hdata HA Hfirst Hlast Hpf Hhf Hhl p.
  unfold pressureToHeight. rewrite Hsd, Hdata.
  rewrite (pressureSearch_ascending rows (Fin p) HA).
  unfold prop at 1. rewrite Hfirst, Hpf.
  change (Fin p >=? Fin pf)%js with (Rleb pf p).
  unfold Rleb. destruct (Rle_dec pf p) as [Hge|Hlt].
  - unfold prop. rewrite Hfirst, Hhf. reflexivity.
  - assert (Hpl : exists pl, pressure lastL = Fin pl).
    { clear - HA Hlast. apply nth_error_In in Hlast.
      induction HA as [|l q h Hq Hh|l1 l2 rest p1 h1 p2 Hp1 Hh1 Hp2 Hlt HA IH].
      - destruct Hlast.
      - destruct Hlast as [<-|[]]. exists q; exact Hq.
      - destruct Hlast as [<-|Hin]; [exists p1; exact Hp1 | exact (IH Hin)]. }
    destruct Hpl as [pl Hpl].
    pose proof (Ascending_first_le_last rows HA first lastL pf pl Hfirst Hlast
                  Hpf Hpl) as Hle.
    unfold prop at 1. rewrite Hlast, Hpl.
    change (Fin p <=? Fin pl)%js with (Rleb p pl).
    rewrite (proj2 (Rleb_true p pl)) by lra.
    unfold prop. rewrite Hlast, Hhl. reflexivity.
Qed.

Lemma Ascending_threeLevels : Ascending threeLevelsAscending.
Proof.
  unfold threeLevelsAscending.
  apply (Ascending_cons _ _ _ 700 3000 850); try reflexivity; [lra|].
  apply (Ascending_cons _ _ _ 850 1500 1000); try reflexivity; [lra|].
  apply (Ascending_one _ 1000 0); reflexivity.
Qed.

(** The three-level profile in ascending order: 925 hPa, which the
    descending order interpolates to 750 m, gets the first level's 3000 m. *)
Lemma pressureToHeight_ascending_witness :
  pressureToHeight (loaded (new_SkewTDiagram 1000 800) threeLevelsAscending)
    (Fin 925)
  = Ok (Fin (if Rle_dec 700 925 then 3000 else 0)).
Proof.
  apply (pressureToHeight_ascending
           (loaded (new_SkewTDiagram 1000 800) threeLevelsAscending)
           (soundingOf threeLevelsAscending) threeLevelsAscending
           (levelAt 700 3000) (levelAt 1000 0) 700 3000 0
           eq_refl eq_refl Ascending_threeLevels eq_refl eq_refl
           eq_refl eq_refl eq_refl).
Defined.

(** ** The ticks of the height axis *)

Lemma heightInterval_cases (r : R) :
  r <= 20000 ->
  exists c, heightInterval (Fin r) = Fin c
            /\ (c = 200 \/ c = 500 \/ c = 1000 \/ c = 2000)
            /\ r <= 10 * c.
Proof.
  intros Hr. unfold heightInterval. cbn [le].
  destruct (Rleb r 2000) eqn:E1.
  { apply Rleb_true in E1. exists 200. split; [reflexivity|]. split; lra. }
  apply Rleb_false in E1.
  destruct (Rleb r 5000) eqn:E2.
  { apply Rleb_true in E2. exists 500. split; [reflexivity|]. split; lra. }
  apply Rleb_false in E2.
  destruct (Rleb r 10000) eqn:E3.
  { apply Rleb_true in E3. exists 1000. split; [reflexivity|]. split; lra. }
  apply Rleb_false in E3.
  rewrite (proj2 (Rleb_true r 20000)) by lra.
  exists 2000. split; [reflexivity|]. split; lra.
Qed.

(** [Math.ceil(x)] as an integer: the least one that is not below [x]. *)
Lemma ceil_spec (x : R) :
  exists m : Z, JS.ceil (Fin x) = Fin (IZR m) /\ x <= IZR m < x + 1.
Proof.
  exists (- Int_part (- x))%Z. split.
  - simpl. rewrite opp_IZR. reflexivity.
  - destruct (base_Int_part (- x)) as [H1 H2]. rewrite opp_IZR. lra.
Qed.

Lemma axisTicks_app (a b : list Cmd) :
  axisTicks (a ++ b) = axisTicks a ++ axisTicks b.
Proof.
  induction a as [|c a IH]; [reflexivity|].
  destruct c; simpl; try exact IH.
  destruct t; try exact IH. destruct t1; try exact IH.
  destruct t2; try exact IH.
  repeat match goal with
         | |- context [match ?s with EmptyString => _ | String _ _ => _ end] =>
             destruct s; try exact IH
         | |- context [match ?a with Ascii.Ascii _ _ _ _ _ _ _ _ => _ end] =>
             destruct a
         | |- context [if ?b then _ else _] => destruct b; try exact IH
         end.
  rewrite IH. reflexivity.
Qed.

Lemma heightAxis_forEach (d : SkewTDiagram) (ticks : list num) :
  let body := fun (h : num) (_ : unit) =>
    let y := heightToY d h in
    let x := left (margin d) in
    emit beginPath ;;
    emit (moveTo x y) ;;
    emit (lineTo (x + 10)%js y) ;;
    emit stroke ;;
    emit (set_textAlign "right") ;;
    emit (fillText (TCat (TNum h) (TStr " m")) (x - 5)%js (y + 4)%js) in
  outcome (forEach ticks body tt) = Ok tt
  /\ axisTicks (trace (forEach ticks body tt)) = ticks.
Proof.
  cbv zeta. induction ticks as [|h ticks [IHo IHt]]; [split; reflexivity|].
  cbn [forEach]. split.
  - rewrite outcome_bind, !bind_emit. cbn [outcome fst emit]. exact IHo.
  - rewrite trace_bind, !bind_emit. cbn [outcome trace fst snd emit].
    rewrite axisTicks_app. cbn [axisTicks]. rewrite IHt. reflexivity.
Qed.

(** The run of [drawHeightAxis] in a view at most 20000 m high. *)
Lemma drawHeightAxis_run (fuel : nat) (d : SkewTDiagram) (a b : R) :
  hMin d = Fin a -> hMax d = Fin b -> b - a <= 20000 -> (11 < fuel)%nat ->
  exists (c : R) (m : Z) (n : nat),
    heightInterval (hMax d - hMin d)%js = Fin c
    /\ (c = 200 \/ c = 500 \/ c = 1000 \/ c = 2000)
    /\ outcome (drawHeightAxis fuel d) = Ok tt
    /\ axisTicks (trace (drawHeightAxis fuel d))
       = map (fun k => Fin (c * (IZR m + INR k))) (List.seq 0 n)
    /\ (n <= 11)%nat
    /\ (forall k, (k < n)%nat -> a <= c * (IZR m + INR k) <= b)
    /\ c * (IZR m - 1) < a
    /\ b < c * (IZR m + INR n).
Proof.
  intros Ha Hb Hrange Hfuel.
  destruct (heightInterval_cases (b - a) Hrange) as [c [Hc [Hcases Hten]]].
  assert (Hcpos : 0 < c) by (destruct Hcases as [ -> | [ -> | [ -> | -> ] ] ]; lra).
  destruct (ceil_spec (a / c)) as [m [Hceil [Hm1 Hm2]]].
  assert (Hac : a / c * c = a) by (field; lra).
  assert (Hlow : a <= IZR m * c) by nra.
  assert (Hlow' : IZR m * c < a + c) by nra.
  set (n := stepsAbove b (IZR m * c) c).
  destruct (stepsAbove_spec b (IZR m * c) c Hcpos) as [Hin Hout].
  fold n in Hin, Hout.
  assert (Hn : (n <= 11)%nat).
  { destruct (Nat.le_gt_cases n 11) as [H|H]; [exact H|]. exfalso.
    pose proof (Hin 11%nat H) as H11.
    rewrite INR_IZR_INZ in H11. simpl Z.of_nat in H11. lra. }
  assert (Hrun : drawHeightAxis fuel d
                 = (emit (set_lineWidth 1) ;;
                    emit (set_font "bold 11px Arial") ;;
                    emit (set_fillStyle "#1a202c") ;;
                    emit (set_strokeStyle "#cbd5e0") ;;
                    forEach (map (fun k => Fin (IZR m * c + c * INR k))
                               (List.seq 0 n))
                      (fun (h : num) (_ : unit) =>
                         let y := heightToY d h in
                         let x := left (margin d) in
                         emit beginPath ;;
                         emit (moveTo x y) ;;
                         emit (lineTo (x + 10)%js y) ;;
                         emit stroke ;;
                         emit (set_textAlign "right") ;;
                         emit (fillText (TCat (TNum h) (TStr " m"))
                                 (x - 5)%js (y + 4)%js)) tt ;;
                    emit (set_textAlign "left"))).
  { unfold drawHeightAxis. rewrite Ha, Hb.
    change (Fin b - Fin a)%js with (Fin (b - a)). rewrite Hc.
    assert (Hdiv : (Fin a / Fin c)%js = Fin (a / c)).
    { simpl. rcmp. reflexivity. }
    rewrite Hdiv, Hceil.
    change (Fin (IZR m) * Fin c)%js with (Fin (IZR m * c)).
    rewrite (for_loop_up_forEach _ b c n fuel (IZR m * c) tt).
    - reflexivity.
    - intros k Hk. specialize (Hin k Hk). lra.
    - lra.
    - lia. }
  destruct (heightAxis_forEach d
              (map (fun k => Fin (IZR m * c + c * INR k)) (List.seq 0 n)))
    as [Hok Hticks].
  cbv zeta in Hok, Hticks.
  exists c, m, n.
  split; [rewrite Ha, Hb; exact Hc|]. split; [exact Hcases|].
  split; [|split; [|split; [exact Hn|split; [|split]]]].
  - rewrite Hrun.
    repeat (rewrite outcome_bind; cbn [outcome emit fst]).
    rewrite Hok. reflexivity.
  - rewrite Hrun.
    repeat (rewrite trace_bind; cbn [outcome trace emit fst snd app axisTicks]).
    rewrite Hok, axisTicks_app, Hticks.
    cbn [axisTicks]. rewrite app_nil_r.
    apply map_ext. intros k. apply Fin_eq. ring.
  - intros k Hk. specialize (Hin k Hk).
    pose proof (pos_INR k). split; nra.
  - nra.
  - nra.
Qed.

(** X7.  For a view whose bounds are at most [Number.MAX_SAFE_INTEGER] in
    magnitude and at most 20000 m apart, [drawHeightAxis] returns within 12
    tests of its loop, and the heights it labels are exactly the multiples
    of the interval (200, 500, 1000 or 2000 m) that lie in
    [[hMin, hMax]], lowest first: at most 11 of them. *)
Theorem drawHeightAxis_ticks (fuel : nat) (d : SkewTDiagram) (a b : R) :
  hMin d = Fin a -> hMax d = Fin b -> safe a -> safe b ->
  b - a <= 20000 -> (11 < fuel)%nat ->
  exists (c : R) (m : Z) (n : nat),
    heightInterval (hMax d - hMin d)%js = Fin c
    /\ (c = 200 \/ c = 500 \/ c = 1000 \/ c = 2000)
    /\ outcome (drawHeightAxis fuel d) = Ok tt
    /\ axisTicks (trace (drawHeightAxis fuel d))
       = map (fun k => Fin (c * (IZR m + INR k))) (List.seq 0 n)
    /\ (n <= 11)%nat
    /\ (forall k, (k < n)%nat -> a <= c * (IZR m + INR k) <= b)
    /\ c * (IZR m - 1) < a
    /\ b < c * (IZR m + INR n).
Proof.
  intros Ha Hb _ _. exact (drawHeightAxis_run fuel d a b Ha Hb).
Qed.

(** The constructor's view, 0 to 4500 m: ten labels, 500 m apart. *)
Lemma drawHeightAxis_ticks_witness :
  exists (c : R) (m : Z) (n : nat),
    axisTicks (trace (drawHeightAxis 12 (new_SkewTDiagram 1000 800)))
    = map (fun k => Fin (c * (IZR m + INR k))) (List.seq 0 n)
    /\ (n <= 11)%nat.
Proof.
  destruct (drawHeightAxis_ticks 12 (new_SkewTDiagram 1000 800) 0 4500
              eq_refl eq_refl
              ltac:(unfold safe, MAX_SAFE_INTEGER; lra)
              ltac:(unfold safe, MAX_SAFE_INTEGER; lra)
              ltac:(lra) ltac:(lia))
    as [c [m [n [_ [_ [_ [Hticks [Hn _]]]]]]]].
  exists c, m, n. split; [exact Hticks | exact Hn].
Defined.

(** ** The decimation of the wind barbs *)

Lemma lastHeight_snoc (l : list Level) (row : Level) (init : num) :
  lastHeight (l ++ [row]) init = height row.
Proof. unfold lastHeight. rewrite fold_left_app. reflexivity. Qed.

Lemma spacedFrom_snoc (interval : num) (l : list Level) (row : Level) :
  forall prev,
    spacedFrom interval prev l ->
    (JS.abs (height row - lastHeight l prev) >=? interval)%js = true ->
    spacedFrom interval prev (l ++ [row]).
Proof.
  induction l as [|a l IH]; intros prev Hs Hrow; simpl.
  - split; [exact Hrow | exact I].
  - destruct Hs as [Ha Hs]. split; [exact Ha|]. apply IH; assumption.
Qed.

Lemma spaced_snoc (interval : num) (l : list Level) (row : Level) (init : num) :
  spaced interval l ->
  (JS.abs (height row - lastHeight l init) >=? interval)%js = true
  \/ l = [] ->
  spaced interval (l ++ [row]).
Proof.
  destruct l as [|a l]; intros Hs Hrow; [exact I|].
  destruct Hrow as [Hrow|Hnil]; [|discriminate].
  simpl. apply spacedFrom_snoc; assumption.
Qed.

Lemma spacedFrom_adjacent (interval : num) (l : list Level) :
  forall prev, spacedFrom interval prev l ->
  forall i a b, adjacentAt l i a b ->
                (JS.abs (height b - height a) >=? interval)%js = true.
Proof.
  induction l as [|x l IH]; intros prev Hs i a b [Ha Hb];
    [destruct i; discriminate|].
  destruct Hs as [_ Hs]. destruct i as [|i].
  - simpl in Ha. injection Ha as <-.
    change (nth_error l 0 = Some b) in Hb.
    destruct l as [|y l]; [discriminate|]. simpl in Hb. injection Hb as <-.
    exact (proj1 Hs).
  - apply (IH (height x) Hs i a b). split; assumption.
Qed.

Lemma spaced_adjacent (interval : num) (l : list Level) :
  spaced interval l ->
  forall i a b, adjacentAt l i a b ->
                (JS.abs (height b - height a) >=? interval)%js = true.
Proof.
  destruct l as [|x l]; intros Hs i a b [Ha Hb]; [destruct i; discriminate|].
  destruct i as [|i].
  - simpl in Ha. injection Ha as <-.
    change (nth_error l 0 = Some b) in Hb.
    destruct l as [|y l]; [discriminate|]. simpl in Hb. injection Hb as <-.
    exact (proj1 Hs).
  - apply (spacedFrom_adjacent interval l (height x) Hs i a b).
    split; assumption.
Qed.

Lemma selectWindRow_cases (d : SkewTDiagram) (interval : num)
    (windData : list Level) (lastH : num) (row : Level) :
  selectWindRow d interval (windData, lastH) row
  = if windVisible d row
       && ((JS.abs (height row - lastH) >=? interval)%js
           || Nat.eqb (List.length windData) 0)
    then (windData ++ [row], height row)
    else (windData, lastH).
Proof.
  unfold selectWindRow, windVisible.
  destruct (_ && _ && _ && _ && _ && _); [|reflexivity].
  cbn [andb]. reflexivity.
Qed.

Lemma selectWindRow_prefix (d : SkewTDiagram) (interval : num)
    (rows : list Level) :
  forall (windData : list Level) (lastH : num),
    exists added,
      fst (fold_left (selectWindRow d interval) rows (windData, lastH))
      = windData ++ added.
Proof.
  induction rows as [|row rows IH]; intros windData lastH; cbn [fold_left].
  - exists []. rewrite app_nil_r. reflexivity.
  - rewrite selectWindRow_cases. destruct (_ && _).
    + destruct (IH (windData ++ [row]) (height row)) as [added Hadded].
      exists (row :: added). rewrite Hadded, <- app_assoc. reflexivity.
    + apply IH.
Qed.

Lemma selectWindRow_invisible (d : SkewTDiagram) (interval : num)
    (rows : list Level) (s : list Level * num) :
  (forall row, In row rows -> windVisible d row = false) ->
  fold_left (selectWindRow d interval) rows s = s.
Proof.
  revert s. induction rows as [|row rows IH]; intros [windData lastH] Hall;
    cbn [fold_left]; [reflexivity|].
  rewrite selectWindRow_cases, (Hall row (or_introl eq_refl)). cbn [andb].
  apply IH. intros r Hr. apply Hall. right; exact Hr.
Qed.

(** What the decimation loop keeps true of its locals. *)
Lemma selectWindRow_fold (d : SkewTDiagram) (interval : num)
    (rows : list Level) :
  forall (windData : list Level) (lastH : num),
    lastH = lastHeight windData (Fin (-10000)) ->
    spaced interval windData ->
    (forall row, In row windData -> windVisible d row = true) ->
    spaced interval
      (fst (fold_left (selectWindRow d interval) rows (windData, lastH)))
    /\ forall row,
         In row (fst (fold_left (selectWindRow d interval) rows
                        (windData, lastH))) ->
         windVisible d row = true /\ (In row windData \/ In row rows).
Proof.
  induction rows as [|row rows IH]; intros windData lastH Hlast Hsp Hvis.
  - cbn [fold_left fst]. split; [exact Hsp|].
    intros r Hr. split; [apply Hvis; exact Hr | left; exact Hr].
  - cbn [fold_left]. rewrite selectWindRow_cases.
    destruct (windVisible d row
              && ((JS.abs (height row - lastH) >=? interval)%js
                  || Nat.eqb (List.length windData) 0)) eqn:Hsel.
    + apply andb_prop in Hsel as [Hrow Hsel].
      destruct (IH (windData ++ [row]) (height row)) as [IH1 IH2].
      * symmetry. apply lastHeight_snoc.
      * apply (spaced_snoc interval windData row (Fin (-10000)) Hsp).
        apply orb_prop in Hsel as [Hsel|Hsel].
        -- left. rewrite <- Hlast. exact Hsel.
        -- right. apply Nat.eqb_eq in Hsel.
           destruct windData; [reflexivity | discriminate].
      * intros r Hr. apply in_app_or in Hr as [Hr|[<-|[]]];
          [apply Hvis; exact Hr | exact Hrow].
      * split; [exact IH1|].
        intros r Hr. destruct (IH2 r Hr) as [Hv [Hin|Hin]].
        -- split; [exact Hv|].
           apply in_app_or in Hin as [Hin|[<-|[]]];
             [left; exact Hin | right; left; reflexivity].
        -- split; [exact Hv | right; right; exact Hin].
    + destruct (IH windData lastH Hlast Hsp Hvis) as [IH1 IH2].
      split; [exact IH1|].
      intros r Hr. destruct (IH2 r Hr) as [Hv [Hin|Hin]];
        (split; [exact Hv|]); [left; exact Hin | right; right; exact Hin].
Qed.

(** X8.  [drawWindBarbs] draws one barb for each row it keeps, and the rows it
    keeps are rows of the profile that pass its visibility test, each at
    least the interval (250 m in a view less than 5000 m high, else 500 m)
    away in height from the one kept before it; the first row that passes
    the test is always kept, so barbs are drawn whenever any row passes. *)
Theorem drawWindBarbs_decimation (fuel : nat) (d : SkewTDiagram)
    (rows : list Level) :
  drawWindBarbs fuel d rows
  = forEach (windRows d rows)
      (fun row _ =>
         drawWindBarb fuel (left (margin d) + width d + 20)%js
           (heightToY d (height row)) (windDir row) (windSpeed row))
      tt
  /\ (forall row, In row (windRows d rows) ->
        In row rows /\ windVisible d row = true)
  /\ (forall i a b, adjacentAt (windRows d rows) i a b ->
        (JS.abs (height b - height a) >=? barbInterval d)%js = true)
  /\ (forall before first after,
        rows = before ++ first :: after ->
        (forall row, In row before -> windVisible d row = false) ->
        windVisible d first = true ->
        exists rest, windRows d rows = first :: rest)
  /\ (windRows d rows = []
      <-> forall row, In row rows -> windVisible d row = false).
Proof.
  destruct (selectWindRow_fold d (barbInterval d) rows [] (Fin (-10000))
              eq_refl I ltac:(intros r [])) as [Hsp Hin].
  fold (windRows d rows) in Hsp, Hin.
  assert (Hfirst : forall before first after,
             rows = before ++ first :: after ->
             (forall row, In row before -> windVisible d row = false) ->
             windVisible d first = true ->
             exists rest, windRows d rows = first :: rest).
  { intros before first after -> Hbefore Hvis. unfold windRows.
    rewrite fold_left_app,
      (selectWindRow_invisible d (barbInterval d) before _ Hbefore).
    cbn [fold_left]. rewrite selectWindRow_cases, Hvis.
    cbn [List.length Nat.eqb andb]. rewrite orb_true_r.
    destruct (selectWindRow_prefix d (barbInterval d) after ([] ++ [first])
                (height first)) as [added Hadded].
    exists added. rewrite Hadded. reflexivity. }
  split; [reflexivity|]. split; [|split; [|split; [exact Hfirst|]]].
  - intros row Hrow. destruct (Hin row Hrow) as [Hv [[]|Hr]].
    split; assumption.
  - exact (spaced_adjacent (barbInterval d) (windRows d rows) Hsp).
  - split.
    + intros Hnil row Hrow.
      destruct (windVisible d row) eqn:Hv; [|reflexivity]. exfalso.
      (* the first visible row would have been kept *)
      assert (Hex : exists before first after,
                 rows = before ++ first :: after
                 /\ (forall r, In r before -> windVisible d r = false)
                 /\ windVisible d first = true).
      { clear - Hrow Hv. induction rows as [|r rows IH]; [destruct Hrow|].
        destruct (windVisible d r) eqn:Hr.
        - exists [], r, rows. split; [reflexivity|].
          split; [intros x []|exact Hr].
        - destruct Hrow as [->|Hrow]; [congruence|].
          destruct (IH Hrow) as [before [first [after [-> [Hb Hf]]]]].
          exists (r :: before), first, after. split; [reflexivity|].
          split; [|exact Hf].
          intros x [<-|Hx]; [exact Hr | exact (Hb x Hx)]. }
      destruct Hex as [before [first [after [Hrows [Hb Hf]]]]].
      destruct (Hfirst before first after Hrows Hb Hf) as [rest Hrest].
      rewrite Hnil in Hrest. discriminate.
    + intros Hall. unfold windRows.
      rewrite (selectWindRow_invisible d (barbInterval d) rows _ Hall).
      reflexivity.
Qed.

(** ** When [draw] throws, and when it returns *)

Lemma neverThrows_bind {A B : Type} (m : M A) (f : A -> M B) :
  neverThrows m -> (forall a, neverThrows (f a)) -> neverThrows (bind m f).
Proof.
  intros Hm Hf e. rewrite outcome_bind.
  destruct (outcome m) as [a|e'|] eqn:E; [apply Hf | | discriminate].
  intros _. exact (Hm e' E).
Qed.

Lemma neverThrows_emit (c : Cmd) : neverThrows (emit c).
Proof. intros e; discriminate. Qed.

Lemma neverThrows_ret {A : Type} (a : A) : neverThrows (ret a).
Proof. intros e; discriminate. Qed.

Lemma neverThrows_forEach {A S : Type} (rows : list A)
    (body : A -> S -> M S) :
  (forall row s, neverThrows (body row s)) ->
  forall s, neverThrows (forEach rows body s).
Proof.
  intros Hbody. induction rows as [|row rest IH]; intros s; simpl.
  - apply neverThrows_ret.
  - apply neverThrows_bind; [apply Hbody | exact IH].
Qed.

Lemma neverThrows_for_loop {S : Type} (cond : num -> bool)
    (next : num -> num) (body : num -> S -> M S) :
  (forall i s, neverThrows (body i s)) ->
  forall fuel i s, neverThrows (for_loop fuel cond next body i s).
Proof.
  intros Hbody. induction fuel as [|fuel IH]; intros i s.
  - intros e; discriminate.
  - rewrite for_loop_S. destruct (cond i); [|apply neverThrows_ret].
    apply neverThrows_bind; [apply Hbody | intros s'; apply IH].
Qed.

Lemma neverThrows_while_loop {S : Type} (cond : S -> bool) (body : S -> M S) :
  (forall s, neverThrows (body s)) ->
  forall fuel s, neverThrows (while_loop fuel cond body s).
Proof.
  intros Hbody. induction fuel as [|fuel IH]; intros s.
  - intros e; discriminate.
  - rewrite while_loop_S. destruct (cond s); [|apply neverThrows_ret].
    apply neverThrows_bind; [apply Hbody | intros s'; apply IH].
Qed.

Lemma succeeds_neverThrows {A : Type} (m : M A) : succeeds m -> neverThrows m.
Proof. intros [a Ha] e. rewrite Ha. discriminate. Qed.

(** Discharge [neverThrows] for straight-line drawing code. *)
Ltac never_throws_steps :=
  repeat first
    [ apply neverThrows_emit
    | apply neverThrows_ret
    | apply neverThrows_bind; [|intros ?]
    | match goal with
      | |- neverThrows (if ?b then _ else _) => destruct b
      | |- neverThrows (let '(_, _) := ?s in _) => destruct s
      end ].

Lemma neverThrows_drawWindBarb (fuel : nat) (x y direction speedMS : num) :
  neverThrows (drawWindBarb fuel x y direction speedMS).
Proof.
  unfold drawWindBarb.
  repeat (apply neverThrows_bind; [apply neverThrows_emit | intros _]).
  destruct (speedMS * 3.6 <? 2.5)%js.
  - unfold calmCircle. never_throws_steps.
  - apply neverThrows_bind; [unfold staff; never_throws_steps | intros _].
    apply neverThrows_bind.
    { apply neverThrows_while_loop. intros [v dd]. unfold pennant.
      never_throws_steps. }
    intros s1. apply neverThrows_bind.
    { apply neverThrows_while_loop. intros [v dd]. unfold fullBarb.
      never_throws_steps. }
    intros [v dd]. destruct (fst (v, dd) >=? 2.5)%js;
      [unfold halfBarb; never_throws_steps | apply neverThrows_ret].
Qed.

Lemma neverThrows_drawProfile (fuel : nat) (d : SkewTDiagram)
    (sd : option SoundingData) :
  neverThrows (drawProfile fuel d sd).
Proof.
  unfold drawProfile. destruct (profileRows sd) as [rows|];
    [|apply neverThrows_ret].
  apply neverThrows_bind;
    [apply succeeds_neverThrows, drawTemperatureProfile_vertices | intros _].
  apply neverThrows_bind;
    [apply succeeds_neverThrows, drawDewpointProfile_vertices | intros _].
  unfold drawWindBarbs. apply neverThrows_forEach.
  intros row []. apply neverThrows_drawWindBarb.
Qed.

Lemma neverThrows_drawFrame (fuel : nat) (d : SkewTDiagram) :
  profileReadable d -> neverThrows (drawFrame fuel d).
Proof.
  intros H.
  assert (HY : forall p, neverThrows (lift (pressureToY d p)))
    by (intros p; apply succeeds_neverThrows, succeeds_lift_pressureToY, H).
  assert (Hadiabat : forall t p fp, neverThrows (adiabatPoint d t p fp))
    by (intros; apply succeeds_neverThrows, succeeds_adiabatPoint, H).
  unfold drawFrame.
  repeat (apply neverThrows_bind; [apply neverThrows_emit | intros _]).
  apply neverThrows_bind; [|intros _].
  { unfold drawHeightAxis.
    repeat (apply neverThrows_bind; [apply neverThrows_emit | intros _]).
    apply neverThrows_bind; [|intros _; apply neverThrows_emit].
    apply neverThrows_for_loop. intros h []. never_throws_steps. }
  apply neverThrows_bind;
    [apply succeeds_neverThrows, succeeds_drawPressureLines, H | intros _].
  apply neverThrows_bind; [|intros _].
  { unfold drawIsotherms.
    repeat (apply neverThrows_bind; [apply neverThrows_emit | intros _]).
    apply neverThrows_for_loop. intros t [].
    destruct ((t <? tMin d - 20)%js || (t >? tMax d + 20)%js);
      [apply neverThrows_ret|].
    repeat (apply neverThrows_bind; [apply neverThrows_emit | intros _]).
    apply neverThrows_bind; [apply HY | intros y1].
    apply neverThrows_bind; [apply HY | intros y2].
    never_throws_steps. }
  apply neverThrows_bind; [|intros _].
  { unfold drawDryAdiabats.
    repeat (apply neverThrows_bind; [apply neverThrows_emit | intros _]).
    apply neverThrows_for_loop. intros theta []. unfold dryAdiabat.
    apply neverThrows_bind; [apply neverThrows_emit | intros _].
    apply neverThrows_bind; [|intros _; apply neverThrows_emit].
    apply neverThrows_for_loop. intros p fp. apply Hadiabat. }
  apply neverThrows_bind; [|intros _].
  { unfold drawMoistAdiabats.
    repeat (apply neverThrows_bind; [apply neverThrows_emit | intros _]).
    apply neverThrows_for_loop. intros theta []. unfold moistAdiabat.
    apply neverThrows_bind; [apply neverThrows_emit | intros _].
    apply neverThrows_bind; [|intros _; apply neverThrows_emit].
    apply neverThrows_for_loop. intros p fp. apply Hadiabat. }
  apply neverThrows_bind; [|intros _].
  { unfold drawMixingRatioLines.
    repeat (apply neverThrows_bind; [apply neverThrows_emit | intros _]).
    apply neverThrows_forEach. intros w []. unfold mixingRatioLine.
    apply neverThrows_bind; [apply neverThrows_emit | intros _].
    apply neverThrows_bind; [|intros _; apply neverThrows_emit].
    apply neverThrows_for_loop. intros p fp. unfold mixingRatioPoint.
    cbv zeta.
    match goal with
    | |- neverThrows (if ?b then _ else _) =>
        destruct b; [apply neverThrows_ret|]
    end.
    apply neverThrows_bind; [apply HY | intros y]. never_throws_steps.
    apply succeeds_neverThrows, succeeds_plotPoint. }
  unfold drawBorder. never_throws_steps.
Qed.

(** X9.  [draw] throws on one kind of input only: a sounding whose [data] is an
    empty array.  Given [null], a sounding without [data], or a profile of
    at least one level, it never throws, whatever the view and the values
    in the profile; given the empty array and a view with 1000 hPa in its
    pressure range, it never returns. *)
Theorem draw_throws_only_on_empty_data (fuel : nat) (d : SkewTDiagram)
    (sd : option SoundingData) :
  ((forall s, sd = Some s -> data s <> Some []) ->
   neverThrows (snd (draw fuel d sd)))
  /\ (forall s lo hi,
        sd = Some s -> data s = Some [] ->
        pMin d = Fin lo -> pMax d = Fin hi -> lo <= 1000 <= hi ->
        ~ succeeds (snd (draw fuel d sd))).
Proof.
  split.
  - intros Hdata.
    assert (Hread : profileReadable (storeSounding d sd)).
    { unfold profileReadable. cbn [soundingData storeSounding].
      destruct sd as [s|]; [exact (Hdata s eq_refl) | exact I]. }
    unfold draw, snd.
    apply neverThrows_bind; [apply neverThrows_drawFrame; exact Hread|].
    intros _. apply neverThrows_bind; [apply neverThrows_drawProfile|].
    intros _. apply succeeds_neverThrows, succeeds_drawTitle.
  - intros s lo hi -> Hdata Hlo Hhi Hrange [u Hok].
    unfold draw, snd, drawFrame in Hok.
    rewrite !outcome_bind in Hok. cbn [outcome emit fst] in Hok.
    destruct (outcome (drawHeightAxis fuel (storeSounding d (Some s))))
      as [[]|e|]; try discriminate.
    unfold drawPressureLines in Hok.
    rewrite !outcome_bind in Hok. cbn [outcome emit fst] in Hok.
    unfold majorPressures in Hok. cbn [map forEach] in Hok.
    rewrite outcome_bind in Hok.
    unfold drawIsobar at 1 in Hok.
    cbn [pMin pMax storeSounding] in Hok. rewrite Hlo, Hhi in Hok.
    change (Fin 1000 <? Fin lo)%js with (Rltb 1000 lo) in Hok.
    change (Fin 1000 >? Fin hi)%js with (Rltb hi 1000) in Hok.
    rewrite (proj2 (Rltb_false 1000 lo)), (proj2 (Rltb_false hi 1000)) in Hok
      by lra.
    cbn [orb] in Hok. rewrite outcome_bind in Hok.
    rewrite (pressureToHeight_empty (storeSounding d (Some s)) s 1000
               eq_refl Hdata) in Hok.
    discriminate.
Qed.

Lemma draw_throws_only_on_empty_data_witness :
  neverThrows (snd (draw 5 (new_SkewTDiagram 1000 800)
                      (Some (soundingOf threeLevels))))
  /\ ~ succeeds (snd (draw 200 (new_SkewTDiagram 1000 800)
                        (Some emptySounding))).
Proof.
  split.
  - apply (proj1 (draw_throws_only_on_empty_data 5 (new_SkewTDiagram 1000 800)
                    (Some (soundingOf threeLevels)))).
    intros s Hs. injection Hs as <-. discriminate.
  - apply (proj2 (draw_throws_only_on_empty_data 200
                    (new_SkewTDiagram 1000 800) (Some emptySounding))
             emptySounding 100 1050 eq_refl eq_refl eq_refl eq_refl).
    lra.
Defined.

Lemma decompose_bounds (v : R) (fuel : nat) :
  v < 50 * INR fuel - 2.5 -> (4 < fuel)%nat ->
  (fst (fst (decompose v)) < fuel)%nat
  /\ (snd (fst (decompose v)) <= 4)%nat.
Proof.
  intros Hv Hfuel. pose proof (decompose_spec v) as Hspec.
  destruct (decompose v) as [[np nf] half]. cbv zeta in Hspec. cbn [fst snd].
  destruct Hspec as [Hp1 [Hp2 [Hf1 [Hf2 _]]]]. split.
  - destruct (Nat.lt_ge_cases np fuel) as [H|H]; [exact H|]. exfalso.
    assert (Hk : (fuel - 1 < np)%nat) by lia.
    specialize (Hp1 _ Hk). rewrite minus_INR in Hp1 by lia.
    simpl INR in Hp1. lra.
  - destruct (Nat.le_gt_cases nf 4) as [H|H]; [exact H|]. exfalso.
    specialize (Hf1 4%nat H). simpl INR in Hf1. lra.
Qed.

Lemma succeeds_drawWindBarb (fuel : nat) (x y direction speedMS : num) :
  (4 < fuel)%nat ->
  speedMS = NaN
  \/ (exists v, speedMS = Fin v /\ v * 3.6 < 50 * INR fuel - 2.5) ->
  succeeds (drawWindBarb fuel x y direction speedMS).
Proof.
  intros Hfuel [-> | [v [-> Hv]]].
  - unfold drawWindBarb. cbn [mul lt].
    repeat (apply succeeds_bind; [apply succeeds_emit | intros _]).
    apply succeeds_bind; [unfold staff; succeeds_steps | intros _].
    destruct fuel as [|fuel]; [lia|]. rewrite while_loop_S.
    unfold ge. cbn [fst le]. rewrite bind_ret_l, while_loop_S.
    cbn [fst le]. rewrite bind_ret_l. cbn [fst le].
    apply succeeds_ret.
  - destruct (decompose_bounds (v * 3.6) fuel Hv Hfuel) as [Hnp Hnf].
    exists tt. rewrite (drawWindBarb_glyph fuel x y direction v Hnp);
      [reflexivity | lia].
Qed.

(** X10.  With [null] or a profile of at least one level, a view whose
    pressure and height bounds are at most [Number.MAX_SAFE_INTEGER] in
    magnitude, with the height bounds at most 20000 m apart, and wind
    speeds that are [NaN] or at most that magnitude in km/h, [draw]
    returns: its loops end, and nothing is thrown. *)
Theorem draw_returns (fuel : nat) (d : SkewTDiagram)
    (sd : option SoundingData) (lo hi a b : R) :
  (forall s, sd = Some s -> data s <> Some []) ->
  pMin d = Fin lo -> pMax d = Fin hi -> safe lo -> safe hi ->
  hMin d = Fin a -> hMax d = Fin b -> safe a -> safe b ->
  b - a <= 20000 ->
  (forall s rows row,
      sd = Some s -> data s = Some rows -> In row rows ->
      windSpeed row = NaN
      \/ exists v, windSpeed row = Fin v /\ safe (v * 3.6)
                   /\ v * 3.6 < 50 * INR fuel - 2.5) ->
  (31 < fuel)%nat -> (stepsAbove hi lo 5 < fuel)%nat ->
  (stepsAbove hi 600 10 < fuel)%nat ->
  outcome (snd (draw fuel d sd)) = Ok tt.
Proof.
  intros Hdata Hlo Hhi _ _ Ha Hb _ _ Hrange Hwind Hfuel Hsweep Hmix.
  assert (Hok : succeeds (snd (draw fuel d sd))).
  { assert (Hread : profileReadable (storeSounding d sd)).
    { unfold profileReadable. cbn [soundingData storeSounding].
      destruct sd as [s|]; [exact (Hdata s eq_refl) | exact I]. }
    unfold draw, snd.
    apply succeeds_bind; [|intros _; apply succeeds_bind].
    - apply (succeeds_drawFrame fuel _ hi lo); try assumption.
      destruct (drawHeightAxis_run fuel (storeSounding d sd) a b Ha Hb Hrange
                  ltac:(lia)) as [c [m [n [_ [_ [Hax _]]]]]].
      exists tt. exact Hax.
    - unfold drawProfile.
      destruct (profileRows sd) as [rows|] eqn:Hrows; [|apply succeeds_ret].
      assert (Hsd : exists s, sd = Some s /\ data s = Some rows).
      { unfold profileRows in Hrows. destruct sd as [s|]; [|discriminate].
        exists s. split; [reflexivity|].
        destruct (data s) as [[|r rs]|]; try discriminate.
        injection Hrows as <-. reflexivity. }
      destruct Hsd as [s [-> Hs]].
      apply succeeds_bind; [apply drawTemperatureProfile_vertices | intros _].
      apply succeeds_bind; [apply drawDewpointProfile_vertices | intros _].
      destruct (selectWindRow_fold (storeSounding d (Some s))
                  (barbInterval (storeSounding d (Some s))) rows []
                  (Fin (-10000)) eq_refl I ltac:(intros r [])) as [_ Hin].
      unfold drawWindBarbs. apply succeeds_forEach. intros row [] Hrow.
      apply succeeds_drawWindBarb; [lia|].
      assert (Hr : In row rows)
        by (destruct (Hin row Hrow) as [_ [[]|Hr]]; exact Hr).
      destruct (Hwind s rows row eq_refl Hs Hr) as [Hnan | [v [Hv [_ Hb']]]];
        [left; exact Hnan | right; exists v; split; assumption].
    - intros _. apply succeeds_drawTitle. }
  destruct Hok as [[] Hok]. exact Hok.
Qed.

(** The constructor's view and the sample profile. *)
Lemma draw_returns_witness :
  outcome (snd (draw 192 (new_SkewTDiagram 1000 800)
                  (Some (soundingOf sampleLevels)))) = Ok tt.
Proof.
  apply (draw_returns 192 (new_SkewTDiagram 1000 800)
           (Some (soundingOf sampleLevels)) 100 1050 0 4500).
  - intros s Hs. injection Hs as <-. discriminate.
  - reflexivity.
  - reflexivity.
  - unfold safe, MAX_SAFE_INTEGER. lra.
  - unfold safe, MAX_SAFE_INTEGER. lra.
  - reflexivity.
  - reflexivity.
  - unfold safe, MAX_SAFE_INTEGER. lra.
  - unfold safe, MAX_SAFE_INTEGER. lra.
  - lra.
  - intros s rows row Hs Hrows Hrow. injection Hs as <-.
    injection Hrows as <-. right.
    rewrite INR_IZR_INZ. simpl Z.of_nat. unfold safe, MAX_SAFE_INTEGER.
    destruct Hrow as [<-|[<-|[<-|[]]]]; eexists; (split; [reflexivity|]);
      lra.
  - lia.
  - rewrite stepsAbove_default_sweep. lia.
  - rewrite stepsAbove_default_mixing. lia.
Defined.

(** ** The room on the staff of a wind barb *)

(** X11.  Below 92.5 km/h every mark of a wind barb is attached to the staff,
    at a distance between 0 and 30 from the anchor; from 92.5 km/h up to
    97.5 km/h the barb carries one pennant, four full barbs and a half
    barb, and the half barb is attached 4 units past the anchor.  The
    speed in km/h is the product [speedMS * 3.6] the code forms, and the
    calls of each mark are those of [markGlyph]. *)
Theorem windBarb_staff_room (fuel : nat) (x y direction : num)
    (speedMS speedKmh : R) :
  (Fin speedMS * 3.6)%js = Fin speedKmh ->
  speedKmh < 97.5 -> (4 < fuel)%nat ->
  let angle := barbAngle direction in
  let perpAngle := (angle - JS.PI / 2)%js in
  drawWindBarb fuel x y direction (Fin speedMS)
  = (Ok tt,
     barbStyle ++
     if Rltb speedKmh 2.5
     then [beginPath; arc x y 4 0 (2 * JS.PI)%js; stroke]
     else [beginPath; moveTo x y;
           lineTo (x + JS.sin angle * 30)%js (y - JS.cos angle * 30)%js;
           stroke]
          ++ flat_map (markGlyph x y angle perpAngle) (barbMarks speedKmh))
  /\ (speedKmh < 92.5 ->
      Forall (fun m => 0 <= snd m <= 30) (barbMarks speedKmh))
  /\ (92.5 <= speedKmh ->
      barbMarks speedKmh
      = [(Pennant, 30); (FullBarb, 20); (FullBarb, 14); (FullBarb, 8);
         (FullBarb, 2); (HalfBarb, -4)]).
Proof.
  intros Hprod Hv Hfuel. cbv zeta.
  apply speedKmh_product in Hprod. subst speedKmh.
  assert (Hv' : speedMS * 3.6 < 50 * INR fuel - 2.5).
  { assert (5 <= INR fuel).
    { replace 5 with (INR 5) by (simpl; lra). apply le_INR. lia. }
    lra. }
  destruct (decompose_bounds (speedMS * 3.6) fuel Hv' Hfuel) as [Hnp Hnf].
  split; [apply drawWindBarb_glyph; [exact Hnp | lia]|].
  split.
  - intros Hlow. unfold barbMarks.
    pose proof (decompose_spec (speedMS * 3.6)) as Hspec.
    destruct (decompose (speedMS * 3.6)) as [[np nf] half].
    cbn [fst snd] in *.
    cbv zeta in Hspec. destruct Hspec as [Hp1 [Hp2 [Hf1 [Hf2 Hhalf]]]].
    assert (Hnp1 : (np <= 1)%nat).
    { destruct (Nat.le_gt_cases np 1) as [H|H]; [exact H|]. exfalso.
      specialize (Hp1 1%nat H). simpl INR in Hp1. lra. }
    assert (HINRnp : INR np = 0 \/ INR np = 1).
    { destruct np as [|[|np]]; [left | right | lia]; reflexivity. }
    apply Forall_app. split; [|apply Forall_app; split].
    + apply Forall_forall. intros m Hm. apply in_map_iff in Hm as [k [<- Hk]].
      apply in_seq in Hk. assert (k = 0%nat) by lia. subst k.
      cbn [snd]. simpl. lra.
    + apply Forall_forall. intros m Hm. apply in_map_iff in Hm as [k [<- Hk]].
      apply in_seq in Hk. assert (Hk' : (k < nf)%nat) by lia.
      specialize (Hf1 k Hk'). cbn [snd].
      destruct HINRnp as [E|E]; rewrite E in *;
        destruct k as [|[|[|[|[|k]]]]]; try lia; simpl INR in *; lra.
    + destruct half; [|constructor].
      constructor; [|constructor]. cbn [snd].
      pose proof (proj1 Hhalf eq_refl) as Hh. clear Hf1 Hp1.
      destruct HINRnp as [E|E]; rewrite E in *;
        destruct nf as [|[|[|[|[|nf]]]]]; try lia; simpl INR in *; lra.
  - intros Hhigh. unfold barbMarks.
    rewrite (decompose_unique (speedMS * 3.6) 1 4).
    + simpl INR. rewrite (proj2 (Rleb_true _ _)) by lra.
      cbn [List.seq map app].
      f_equal; [apply mark_eq; simpl; lra|].
      f_equal; [apply mark_eq; simpl; lra|].
      f_equal; [apply mark_eq; simpl; lra|].
      f_equal; [apply mark_eq; simpl; lra|].
      f_equal; [apply mark_eq; simpl; lra|].
      f_equal. apply mark_eq. simpl. lra.
    + intros [|k] Hk; simpl; try lra. lia.
    + simpl; lra.
    + intros [|[|[|[|k]]]] Hk; simpl; try lra. lia.
    + simpl; lra.
Qed.

(** A wind of 20 m/s, 72 km/h: one pennant, two full barbs, all on the
    staff. *)
Lemma windBarb_staff_room_witness :
  Forall (fun m => 0 <= snd m <= 30) (barbMarks 72).
Proof.
  destruct (windBarb_staff_room 5 0 0 270 20 72) as [_ [Hroom _]].
  - apply Fin_eq. lra.
  - lra.
  - lia.
  - apply Hroom. lra.
Defined.

(** ** The isobars *)

Lemma Forall_vertices_bind {A B : Type} (P : num * num -> Prop) (m : M A)
    (f : A -> M B) :
  Forall P (vertices (trace m)) ->
  (forall a, Forall P (vertices (trace (f a)))) ->
  Forall P (vertices (trace (bind m f))).
Proof.
  intros Hm Hf. rewrite trace_bind, vertices_app. apply Forall_app. split.
  - exact Hm.
  - destruct (outcome m); [apply Hf | constructor | constructor].
Qed.

Lemma Forall_vertices_forEach {A S : Type} (P : num * num -> Prop)
    (rows : list A) (body : A -> S -> M S) :
  (forall row s, Forall P (vertices (trace (body row s)))) ->
  forall s, Forall P (vertices (trace (forEach rows body s))).
Proof.
  intros Hbody. induction rows as [|row rest IH]; intros s; simpl.
  - constructor.
  - apply Forall_vertices_bind; [apply Hbody | exact IH].
Qed.

(** X12.  Whatever the view and the profile, every point [drawPressureLines]
    hands to the canvas lies on the left or the right edge of the plot, at
    an ordinate that is neither above its top nor below its bottom. *)
Theorem isobars_inside_plot (d : SkewTDiagram) :
  Forall
    (fun v =>
       (fst v = left (margin d) \/ fst v = (left (margin d) + width d)%js)
       /\ (snd v <? top (margin d))%js = false
       /\ (snd v >? top (margin d) + plotHeight d)%js = false)
    (vertices (trace (drawPressureLines d))).
Proof.
  set (P := fun v : num * num =>
       (fst v = left (margin d) \/ fst v = (left (margin d) + width d)%js)
       /\ (snd v <? top (margin d))%js = false
       /\ (snd v >? top (margin d) + plotHeight d)%js = false).
  assert (Hisobar : forall labelled p u,
             Forall P (vertices (trace (drawIsobar d labelled p u)))).
  { intros labelled p u. unfold drawIsobar.
    destruct ((p <? pMin d)%js || (p >? pMax d)%js); [constructor|].
    apply Forall_vertices_bind; [constructor|]. intros h.
    destruct ((h <? hMin d)%js || (h >? hMax d)%js); [constructor|].
    cbv zeta.
    destruct (heightToY d h <? top (margin d))%js eqn:E1; [constructor|].
    destruct (heightToY d h >? top (margin d) + plotHeight d)%js eqn:E2;
      [constructor|].
    cbn [orb].
    destruct labelled;
      repeat (rewrite trace_bind; cbn [outcome trace emit ret fst snd app]);
      cbn [vertices];
      (constructor; [|constructor; [|constructor]]);
      (split; [cbn [fst]; tauto | split; assumption]). }
  unfold drawPressureLines.
  repeat (apply Forall_vertices_bind; [constructor | intros _]).
  apply Forall_vertices_bind; [apply Forall_vertices_forEach; intros; apply Hisobar|].
  intros _. apply Forall_vertices_bind; [constructor | intros _].
  apply Forall_vertices_forEach; intros; apply Hisobar.
Qed.

(** X13.  In a view with [hMin < hMax] and a plot of positive height, an isobar
    whose height is known is drawn exactly when its pressure is in the
    pressure range and its height in the height range, as one horizontal
    line across the plot at [heightToY] of that height; the third test of
    the code, on the ordinate, never rejects one. *)
Theorem isobar_drawn_iff (d : SkewTDiagram) (labelled : bool)
    (lo hi a b t0 H p h : R) :
  pMin d = Fin lo -> pMax d = Fin hi ->
  hMin d = Fin a -> hMax d = Fin b -> a < b ->
  top (margin d) = Fin t0 -> plotHeight d = Fin H -> 0 < H ->
  pressureToHeight d (Fin p) = Ok (Fin h) ->
  vertices (trace (drawIsobar d labelled (Fin p) tt))
  = if Rleb lo p && Rleb p hi && Rleb a h && Rleb h b
    then [(left (margin d), heightToY d (Fin h));
          ((left (margin d) + width d)%js, heightToY d (Fin h))]
    else [].
Proof.
  intros Hlo Hhi Ha Hb Hlt Ht HH Hpos Hh.
  unfold drawIsobar. rewrite Hlo, Hhi, Hh.
  change (Fin p <? Fin lo)%js with (Rltb p lo).
  change (Fin p >? Fin hi)%js with (Rltb hi p).
  destruct (Rleb lo p) eqn:E1.
  2:{ apply Rleb_false in E1. rewrite (proj2 (Rltb_true p lo)) by lra.
      reflexivity. }
  apply Rleb_true in E1. rewrite (proj2 (Rltb_false p lo)) by lra.
  destruct (Rleb p hi) eqn:E2.
  2:{ apply Rleb_false in E2. rewrite (proj2 (Rltb_true hi p)) by lra.
      reflexivity. }
  apply Rleb_true in E2. rewrite (proj2 (Rltb_false hi p)) by lra.
  cbn [orb andb]. unfold lift. rewrite bind_Ok. rewrite Ha, Hb.
  change (Fin h <? Fin a)%js with (Rltb h a).
  change (Fin h >? Fin b)%js with (Rltb b h).
  destruct (Rleb a h) eqn:E3.
  2:{ apply Rleb_false in E3. rewrite (proj2 (Rltb_true h a)) by lra.
      reflexivity. }
  apply Rleb_true in E3. rewrite (proj2 (Rltb_false h a)) by lra.
  destruct (Rleb h b) eqn:E4.
  2:{ apply Rleb_false in E4. rewrite (proj2 (Rltb_true b h)) by lra.
      reflexivity. }
  apply Rleb_true in E4. rewrite (proj2 (Rltb_false b h)) by lra.
  cbn [orb andb]. cbv zeta.
  assert (Hy : exists y, heightToY d (Fin h) = Fin y /\ t0 <= y <= t0 + H).
  { assert (Hne : a <> b) by lra.
    rewrite (heightToY_Fin d a b t0 H h Ha Hb Hne Ht HH).
    eexists. split; [reflexivity|].
    assert (Hinv : 0 < / (b - a)) by (apply Rinv_0_lt_compat; lra).
    assert (0 <= (h - a) / (b - a) <= 1).
    { unfold Rdiv. split; [nra|].
      assert ((h - a) * / (b - a) <= (b - a) * / (b - a)) by nra.
      rewrite Rinv_r in H0 by lra. exact H0. }
    nra. }
  destruct Hy as [y [Hy Hyr]]. rewrite Hy, Ht, HH.
  change (Fin y <? Fin t0)%js with (Rltb y t0).
  change (Fin y >? Fin t0 + Fin H)%js with (Rltb (t0 + H) y).
  rewrite (proj2 (Rltb_false y t0)), (proj2 (Rltb_false (t0 + H) y)) by lra.
  cbn [orb].
  destruct labelled;
    repeat (rewrite trace_bind; cbn [outcome trace emit ret fst snd app]);
    reflexivity.
Qed.

Lemma pressureToHeight_threeLevels_850 (d : SkewTDiagram) :
  pressureToHeight (loaded d threeLevels) (Fin 850) = Ok (Fin 1500).
Proof.
  unfold pressureToHeight, loaded, threeLevels, levelAt.
  cbn [soundingData storeSounding data pressureSearch pressure height].
  unfold ge. cbn [le]. rcmp. cbn [andb]. simpl. rcmp.
  f_equal. apply Fin_eq. field.
Qed.

(** The 850 hPa isobar of the three-level profile, at 1500 m. *)
Lemma isobar_drawn_iff_witness :
  let d := loaded (new_SkewTDiagram 1000 800) threeLevels in
  vertices (trace (drawIsobar d true (Fin 850) tt))
  = if Rleb 100 850 && Rleb 850 1050 && Rleb 0 1500 && Rleb 1500 4500
    then [(left (margin d), heightToY d (Fin 1500));
          ((left (margin d) + width d)%js, heightToY d (Fin 1500))]
    else [].
Proof.
  cbv zeta.
  apply (isobar_drawn_iff (loaded (new_SkewTDiagram 1000 800) threeLevels)
           true 100 1050 0 4500 50 (800 - 50 - 50) 850 1500);
    try reflexivity; try lra.
  apply pressureToHeight_threeLevels_850.
Defined.

(** ** The hover read-out *)

Lemma heightSearch_height (rows : list Level) (t : num) (r : Level) :
  heightSearch rows t = Some r -> height r = t.
Proof.
  induction rows as [|l1 [|l2 rest] IH]; try discriminate.
  rewrite heightSearch_cons. destruct (brackets l1 l2 t).
  - intros [= <-]. reflexivity.
  - exact IH.
Qed.

(** X15.  [handleCanvasHover] never throws: the guard on the loaded sounding
    covers both ways [interpolateDataAtHeight] can fail.  A tooltip it
    shows sits at the mouse position and belongs to a sounding with at
    least one level. *)
Theorem handleCanvasHover_never_throws (app : SoundingApp)
    (rect : ClientRect) (clientX clientY : num) :
  exists info,
    handleCanvasHover app rect clientX clientY = Ok info
    /\ forall level mx my,
         info = showCursorInfo level mx my ->
         mx = clientX /\ my = clientY
         /\ exists sd row rest,
              currentSoundingData app = Some sd
              /\ data sd = Some (row :: rest).
Proof.
  unfold handleCanvasHover.
  destruct (currentSoundingData app) as [sd|] eqn:Hsd;
    [|exists hideCursorInfo; split; [reflexivity | discriminate]].
  destruct (data sd) as [rows|] eqn:Hdata;
    [|exists hideCursorInfo; split; [reflexivity | discriminate]].
  destruct (outsidePlot _ _ _);
    [exists hideCursorInfo; split; [reflexivity | discriminate]|].
  unfold interpolateDataAtHeight. rewrite Hdata.
  destruct (heightSearch rows _) as [r|] eqn:Hs.
  - exists (showCursorInfo r clientX clientY). split; [reflexivity|].
    intros level mx my [= <- <- <-]. repeat split.
    destruct rows as [|row rest]; [discriminate|].
    exists sd, row, rest. split; [reflexivity | exact Hdata].
  - destruct (closestLevel rows _) as [l|] eqn:Hc.
    + exists (showCursorInfo l clientX clientY). split; [reflexivity|].
      intros level mx my [= <- <- <-]. repeat split.
      destruct rows as [|row rest]; [discriminate|].
      exists sd, row, rest. split; [reflexivity | exact Hdata].
    + exists hideCursorInfo; split; [reflexivity | discriminate].
Qed.

(** X16.  With the mouse inside the plot at a finite height and a sounding that
    has a level with a finite height, [handleCanvasHover] shows a tooltip
    at the mouse position.  Its level is interpolated at the height under
    the mouse, or is a level of the sounding nearest to that height. *)
Theorem handleCanvasHover_readout (app : SoundingApp) (sd : SoundingData)
    (rows : list Level) (rect : ClientRect) (clientX clientY : num) (t : R) :
  currentSoundingData app = Some sd -> data sd = Some rows ->
  outsidePlot (diagram app)
    (fst (canvasPoint (diagram app) rect clientX clientY))
    (snd (canvasPoint (diagram app) rect clientX clientY)) = false ->
  cursorHeight (diagram app)
    (snd (canvasPoint (diagram app) rect clientX clientY)) = Fin t ->
  (exists l, In l rows /\ finite (height l) = true) ->
  exists level,
    handleCanvasHover app rect clientX clientY
    = Ok (showCursorInfo level clientX clientY)
    /\ (height level = Fin t \/ nearestLevel rows t level).
Proof.
  intros Hsd Hdata Hin Ht [l [Hl Hfin]].
  unfold handleCanvasHover. rewrite Hsd, Hdata.
  unfold canvasPoint in Hin, Ht. cbn [fst snd] in Hin, Ht.
  cbv zeta. rewrite Hin, Ht.
  unfold interpolateDataAtHeight. rewrite Hdata.
  destruct (heightSearch rows (Fin t)) as [r|] eqn:Hs.
  - exists r. split; [reflexivity|]. left.
    exact (heightSearch_height rows (Fin t) r Hs).
  - pose proof (closestLevel_finite rows t) as Hnear.
    unfold closestLevel. unfold nearestAmong in Hnear.
    destruct (fst (fold_left (closer (Fin t)) rows (None, PInf)))
      as [c|] eqn:Hc.
    + exists c. split; [reflexivity|]. right.
      destruct Hnear as [Hcin [h [Hh [_ Hmin]]]].
      split; [exact Hcin|]. exists h. split; assumption.
    + destruct Hnear as [_ Hnone]. rewrite (Hnone l Hl) in Hfin.
      discriminate.
Qed.

Lemma hover_sample_height :
  cursorHeight (new_SkewTDiagram 800 600)
    (snd (canvasPoint (new_SkewTDiagram 800 600)
            {| rect_left := 0; rect_top := 0;
               rect_width := 800; rect_height := 600 |} 400 300))
  = Fin 2250.
Proof.
  unfold cursorHeight, canvasPoint. simpl. rcmp. simpl. rcmp.
  apply Fin_eq. field.
Qed.

Lemma hover_sample_inside :
  outsidePlot (new_SkewTDiagram 800 600)
    (fst (canvasPoint (new_SkewTDiagram 800 600)
            {| rect_left := 0; rect_top := 0;
               rect_width := 800; rect_height := 600 |} 400 300))
    (snd (canvasPoint (new_SkewTDiagram 800 600)
            {| rect_left := 0; rect_top := 0;
               rect_width := 800; rect_height := 600 |} 400 300))
  = false.
Proof.
  unfold outsidePlot, canvasPoint. simpl. rcmp. simpl. rcmp. reflexivity.
Qed.

(** The mouse in the middle of an 800 x 600 canvas over two levels. *)
Lemma handleCanvasHover_readout_witness :
  exists level,
    handleCanvasHover
      {| diagram := new_SkewTDiagram 800 600;
         currentSoundingData := Some (soundingOf [lowLevel; highLevel]) |}
      {| rect_left := 0; rect_top := 0; rect_width := 800;
         rect_height := 600 |} 400 300
    = Ok (showCursorInfo level 400 300)
    /\ (height level = Fin 2250
        \/ nearestLevel [lowLevel; highLevel] 2250 level).
Proof.
  apply (handleCanvasHover_readout
           {| diagram := new_SkewTDiagram 800 600;
              currentSoundingData := Some (soundingOf [lowLevel; highLevel]) |}
           (soundingOf [lowLevel; highLevel]) [lowLevel; highLevel]
           {| rect_left := 0; rect_top := 0; rect_width := 800;
              rect_height := 600 |} 400 300 2250 eq_refl eq_refl
           hover_sample_inside hover_sample_height).
  exists lowLevel. split; [left; reflexivity | reflexivity].
Defined.

(** ** The compass names of the read-out *)

Lemma Math_round_sector (deg : R) (m : Z) :
  22.5 * IZR m - 11.25 <= deg < 22.5 * IZR m + 11.25 ->
  Math_round (Fin deg / 22.5)%js = Fin (IZR m).
Proof.
  intros [Hlo Hhi]. cbn [div]. rcmp. cbn [Math_round].
  apply Fin_eq. f_equal. symmetry. apply Int_part_spec.
  assert (Hd : deg / 22.5 = deg * (1 / 22.5)) by (field; lra).
  assert (Hc : 1 / 22.5 * 22.5 = 1) by (field; lra).
  rewrite Hd. nra.
Qed.

Lemma Int_part_div_16 (m : Z) :
  (0 <= m)%Z -> Int_part (IZR m / 16) = (m / 16)%Z.
Proof.
  intros Hm. symmetry. apply Int_part_spec.
  pose proof (Z.div_mod m 16 ltac:(lia)) as Hdm.
  pose proof (Z.mod_pos_bound m 16 ltac:(lia)) as [Hr0 Hr16].
  assert (HR : IZR m = 16 * IZR (m / 16) + IZR (m mod 16)).
  { rewrite Hdm at 1. rewrite plus_IZR, mult_IZR. reflexivity. }
  apply IZR_le in Hr0. apply IZR_lt in Hr16.
  rewrite HR. split; lra.
Qed.

(** On integers, [%] is the truncating remainder. *)
Lemma rem_16 (m : Z) :
  JS.rem (Fin (IZR m)) 16 = Fin (IZR (Z.rem m 16)).
Proof.
  cbn [rem]. rcmp. apply Fin_eq. unfold trunc.
  destruct (Rle_dec 0 (IZR m / 16)) as [Hpos|Hneg].
  - assert (Hm : (0 <= m)%Z).
    { apply le_IZR. assert (0 <= IZR m / 16 * 16) by nra.
      replace (IZR m / 16 * 16) with (IZR m) in * by (field; lra).
      assumption. }
    rewrite (Int_part_div_16 m Hm), (Z.rem_mod_nonneg m 16) by lia.
    pose proof (Z.div_mod m 16 ltac:(lia)) as Hdm.
    assert (HR : IZR m = 16 * IZR (m / 16) + IZR (m mod 16)).
    { rewrite Hdm at 1. rewrite plus_IZR, mult_IZR. reflexivity. }
    lra.
  - assert (Hm : (0 <= - m)%Z).
    { assert (IZR m < 0) by
        (apply Rnot_le_lt in Hneg;
         replace (IZR m) with (IZR m / 16 * 16) by (field; lra); nra).
      apply lt_IZR in H. lia. }
    replace (- (IZR m / 16)) with (IZR (- m) / 16)
      by (rewrite opp_IZR; field).
    rewrite (Int_part_div_16 (- m) Hm).
    replace (Z.rem m 16) with (- Z.rem (- m) 16)%Z
      by (rewrite Z.rem_opp_l by lia; lia).
    rewrite (Z.rem_mod_nonneg (- m) 16) by lia.
    pose proof (Z.div_mod (- m) 16 ltac:(lia)) as Hdm.
    assert (HR : IZR (- m) = 16 * IZR (- m / 16) + IZR (- m mod 16)).
    { rewrite Hdm at 1. rewrite plus_IZR, mult_IZR. reflexivity. }
    rewrite opp_IZR in *. lra.
Qed.

Lemma element_integer {A : Type} (items : list A) (r : Z) :
  element items (Fin (IZR r))
  = if (0 <=? r)%Z then nth_error items (Z.to_nat r) else None.
Proof.
  unfold element, is_integer.
  rewrite (Int_part_IZR (IZR r) r eq_refl).
  rewrite (proj2 (Reqb_true (IZR r) (IZR r)) eq_refl). cbn [andb].
  destruct (0 <=? r)%Z eqn:E.
  - apply Z.leb_le in E. rewrite (proj2 (Rleb_true 0 (IZR r))); [reflexivity|].
    apply IZR_le. exact E.
  - apply Z.leb_gt in E. rewrite (proj2 (Rleb_false 0 (IZR r))); [reflexivity|].
    apply IZR_lt. exact E.
Qed.

Lemma getCardinalDirection_index (deg : R) (m : Z) :
  22.5 * IZR m - 11.25 <= deg < 22.5 * IZR m + 11.25 ->
  getCardinalDirection (Fin deg)
  = if (0 <=? Z.rem m 16)%Z
    then nth_error directions (Z.to_nat (Z.rem m 16))
    else None.
Proof.
  intros H. unfold getCardinalDirection. cbv zeta.
  rewrite (Math_round_sector deg m H), rem_16. apply element_integer.
Qed.

(** X17.  [getCardinalDirection] on the sector [m] of 22.5 degrees around
    [22.5 m]: it reads the name at index [m % 16], the truncating
    remainder.  From sector 0 on this is one of the sixteen names, the same
    one a full turn later; below sector 0 the index is negative and the
    result is [undefined], except on the sectors that are whole turns. *)
Theorem getCardinalDirection_sectors (deg : R) (m : Z) :
  22.5 * IZR m - 11.25 <= deg < 22.5 * IZR m + 11.25 ->
  ((0 <= m)%Z ->
     exists name,
       nth_error directions (Z.to_nat (m mod 16)) = Some name
       /\ getCardinalDirection (Fin deg) = Some name
       /\ getCardinalDirection (Fin (deg + 360)) = Some name)
  /\ ((m < 0)%Z ->
      getCardinalDirection (Fin deg)
      = if (Z.rem m 16 =? 0)%Z then Some "N"%string else None).
Proof.
  intros H. split; intros Hm.
  - pose proof (Z.mod_pos_bound m 16 ltac:(lia)) as [Hr0 Hr16].
    destruct (nth_error directions (Z.to_nat (m mod 16))) as [name|] eqn:Hn.
    2:{ apply nth_error_None in Hn. simpl in Hn. lia. }
    exists name. split; [reflexivity|].
    assert (H' : 22.5 * IZR (m + 16) - 11.25 <= deg + 360
                 < 22.5 * IZR (m + 16) + 11.25).
    { rewrite plus_IZR. lra. }
    rewrite (getCardinalDirection_index deg m H),
      (getCardinalDirection_index (deg + 360) (m + 16) H').
    rewrite !Z.rem_mod_nonneg by lia.
    replace ((m + 16) mod 16)%Z with (m mod 16)%Z
      by (rewrite <- (Z.mod_add m 1 16) by lia; f_equal; lia).
    rewrite (proj2 (Z.leb_le 0 (m mod 16)) Hr0). split; exact Hn.
  - rewrite (getCardinalDirection_index deg m H).
    assert (Hrem : (Z.rem m 16 <= 0)%Z) by (apply Z.rem_nonpos; lia).
    destruct (Z.rem m 16 =? 0)%Z eqn:E.
    + apply Z.eqb_eq in E. rewrite E. reflexivity.
    + apply Z.eqb_neq in E.
      rewrite (proj2 (Z.leb_gt 0 (Z.rem m 16))) by lia. reflexivity.
Qed.

(** 200 degrees lies in sector 9, south-south-west; -45 degrees lies in
    sector -2 and has no name. *)
Lemma getCardinalDirection_sectors_witness :
  getCardinalDirection (Fin 200) = Some "SSW"%string
  /\ getCardinalDirection (Fin (-45)) = None.
Proof.
  split.
  - destruct (getCardinalDirection_sectors 200 9 ltac:(lra)) as [Hpos _].
    destruct (Hpos ltac:(lia)) as [name [Hname [Hdir _]]].
    rewrite Hdir, <- Hname. reflexivity.
  - destruct (getCardinalDirection_sectors (-45) (-2) ltac:(lra)) as [_ Hneg].
    rewrite (Hneg ltac:(lia)). reflexivity.
Defined.

(** ** The view chosen for a new sounding *)

Lemma lowestHeight_fold (rows : list Level) :
  forall (seen : list Level) (minH : num),
    heightsReadable rows -> lowestAmong seen minH ->
    lowestAmong (seen ++ rows)
      (fold_left
         (fun minH row =>
            if negb (JS.isNaN (height row)) then JS.min minH (height row)
            else minH)
         rows minH).
Proof.
  induction rows as [|row rest IH]; intros seen minH Hread Hlow;
    cbn [fold_left].
  - rewrite app_nil_r. exact Hlow.
  - change (seen ++ row :: rest) with (seen ++ [row] ++ rest).
    rewrite app_assoc.
    apply IH; [intros l Hl; apply Hread; right; exact Hl|].
    destruct (Hread row (or_introl eq_refl)) as [Hnan | [h Hh]].
    + rewrite Hnan. cbn [isNaN negb].
      destruct Hlow as [[-> Hall] | [m [-> [[l [Hl Hm]] Hmin]]]].
      * left. split; [reflexivity|].
        intros l Hl. apply in_app_or in Hl as [Hl|[<-|[]]];
          [apply Hall; exact Hl | exact Hnan].
      * right. exists m. split; [reflexivity|]. split.
        -- exists l. split; [apply in_or_app; left; exact Hl | exact Hm].
        -- intros l' h' Hl' Hh'. apply in_app_or in Hl' as [Hl'|[<-|[]]];
             [exact (Hmin l' h' Hl' Hh') | congruence].
    + rewrite Hh. cbn [isNaN negb].
      destruct Hlow as [[-> Hall] | [m [-> [[l [Hl Hm]] Hmin]]]].
      * right. exists h. split; [reflexivity|]. split.
        -- exists row. split; [apply in_or_app; right; left; reflexivity
                              | exact Hh].
        -- intros l' h' Hl' Hh'. apply in_app_or in Hl' as [Hl'|[<-|[]]].
           ++ rewrite (Hall l' Hl') in Hh'. discriminate.
           ++ rewrite Hh in Hh'. injection Hh' as <-. lra.
      * right. cbn [JS.min le]. destruct (Rleb m h) eqn:E.
        -- apply Rleb_true in E. exists m. split; [reflexivity|]. split.
           ++ exists l. split; [apply in_or_app; left; exact Hl | exact Hm].
           ++ intros l' h' Hl' Hh'. apply in_app_or in Hl' as [Hl'|[<-|[]]];
                [exact (Hmin l' h' Hl' Hh')|].
              rewrite Hh in Hh'. injection Hh' as <-. exact E.
        -- apply Rleb_false in E. exists h. split; [reflexivity|]. split.
           ++ exists row. split; [apply in_or_app; right; left; reflexivity
                                 | exact Hh].
           ++ intros l' h' Hl' Hh'. apply in_app_or in Hl' as [Hl'|[<-|[]]].
              ** pose proof (Hmin l' h' Hl' Hh'). lra.
              ** rewrite Hh in Hh'. injection Hh' as <-. lra.
Qed.

Lemma lowestHeight_spec (rows : list Level) :
  heightsReadable rows -> lowestAmong rows (lowestHeight rows).
Proof.
  intros Hread. apply (lowestHeight_fold rows [] PInf Hread).
  left. split; [reflexivity | intros l []].
Qed.

(** X18.  [resetZoomToDataRange] on a sounding with at least one level whose
    heights are numbers or [NaN].  The view's upper bound becomes 4500 and
    nothing but the height range changes.  With a least height [m] the
    lower bound is the multiple of 100 at or just below [m], and it lies
    below the upper bound exactly when [m < 4500]: the bounds are not
    checked.  When every height is [NaN] the lower bound is [Infinity]. *)
Theorem resetZoomToDataRange_view (d : SkewTDiagram) (sd : SoundingData)
    (row : Level) (rest : list Level) :
  data sd = Some (row :: rest) ->
  heightsReadable (row :: rest) ->
  let d' := resetZoomToDataRange d (Some sd) in
  hMax d' = Fin 4500
  /\ sameLayout d d' /\ soundingData d' = soundingData d
  /\ (forall l m,
        In l (row :: rest) -> height l = Fin m ->
        (forall l' h', In l' (row :: rest) -> height l' = Fin h' -> m <= h') ->
        exists k : Z,
          hMin d' = Fin (100 * IZR k)
          /\ 100 * IZR k <= m < 100 * IZR k + 100
          /\ (100 * IZR k < 4500 <-> m < 4500))
  /\ ((forall l, In l (row :: rest) -> height l = NaN) -> hMin d' = PInf).
Proof.
  intros Hdata Hread d'.
  assert (Hd' : d' = setHeightRange d
                       (Math_floor (lowestHeight (row :: rest) / 100) * 100)%js
                       4500).
  { unfold d', resetZoomToDataRange, profileRows. rewrite Hdata.
    reflexivity. }
  rewrite Hd'. cbn [setHeightRange hMax hMin soundingData].
  split; [reflexivity|].
  split; [unfold sameLayout; cbn; repeat split|].
  split; [reflexivity|].
  pose proof (lowestHeight_spec (row :: rest) Hread) as Hlow.
  split.
  - intros l m Hl Hm Hleast.
    destruct Hlow as [[_ Hall] | [m' [Hmin [[l0 [Hl0 Hm0]] Hle]]]].
    { rewrite (Hall l Hl) in Hm. discriminate. }
    assert (m' = m).
    { pose proof (Hle l m Hl Hm). pose proof (Hleast l0 m' Hl0 Hm0). lra. }
    subst m'. rewrite Hmin. exists (Int_part (m / 100)).
    cbn [div]. rcmp. cbn [Math_floor mul].
    split; [apply Fin_eq; lra|].
    destruct (base_Int_part (m / 100)) as [Hb1 Hb2].
    assert (Hm100 : m = m / 100 * 100) by (field; lra).
    split; [lra|]. split; intros Hlt; [|lra].
    destruct (Rlt_le_dec m 4500) as [Hok|Hbad]; [exact Hok|exfalso].
    assert (Hk : (Int_part (m / 100) < 45)%Z).
    { apply lt_IZR. lra. }
    assert (Hk' : IZR (Int_part (m / 100)) <= 44).
    { apply IZR_le. lia. }
    lra.
  - intros Hall.
    destruct Hlow as [[Hinf _] | [m [_ [[l [Hl Hm]] _]]]].
    + rewrite Hinf. cbn [div]. rcmp. cbn [signed_inf Math_floor mul]. rcmp.
      reflexivity.
    + rewrite (Hall l Hl) in Hm. discriminate.
Qed.

Lemma heightsReadable_sample : heightsReadable [lowLevel; highLevel].
Proof.
  intros l [<-|[<-|[]]]; right; eexists; reflexivity.
Qed.

(** Two levels at 300 m and 5600 m: the view becomes 300 m to 4500 m. *)
Lemma resetZoomToDataRange_view_witness :
  hMin (resetZoomToDataRange (new_SkewTDiagram 800 600)
          (Some (soundingOf [lowLevel; highLevel]))) = Fin 300.
Proof.
  destruct (resetZoomToDataRange_view (new_SkewTDiagram 800 600)
              (soundingOf [lowLevel; highLevel]) lowLevel [highLevel]
              eq_refl heightsReadable_sample)
    as [_ [_ [_ [Hleast _]]]].
  destruct (Hleast lowLevel 300 (or_introl eq_refl) eq_refl) as [k [Hk [Hb _]]].
  - intros l' h' [<-|[<-|[]]] [= <-]; lra.
  - rewrite Hk. apply Fin_eq.
    assert (k = 3%Z).
    { assert (2 < IZR k) by lra. assert (IZR k < 4) by lra.
      apply lt_IZR in H, H0. lia. }
    subst k. lra.
Defined.

(** ** Zooming from the two height inputs *)

Lemma lt_iff_checked (a b : num) :
  (a <? b)%js = negb (JS.isNaN a || JS.isNaN b) && negb (a >=? b)%js.
Proof.
  destruct a as [| | |x], b as [| | |y]; try reflexivity.
  cbn [lt ge le isNaN orb negb andb].
  destruct (Rltb x y) eqn:E1, (Rleb y x) eqn:E2; try reflexivity; exfalso.
  - apply Rltb_true in E1. apply Rleb_true in E2. lra.
  - apply Rltb_false in E1. apply Rleb_false in E2. lra.
Qed.

(** X19.  [applyZoom] changes the view exactly when a sounding is loaded and
    [minH < maxH]: its two tests, for [NaN] and for [minH >= maxH], leave
    nothing else through.  The new view is then [minH] to [maxH], nothing
    else of the layout changes, and the loaded sounding is drawn in it. *)
Theorem applyZoom_validation (fuel : nat) (app : SoundingApp)
    (minH maxH : num) :
  match applyZoom fuel app minH maxH with
  | ZoomDone app' drawing =>
      exists sd,
        currentSoundingData app = Some sd
        /\ (minH <? maxH)%js = true
        /\ hMin (diagram app') = minH /\ hMax (diagram app') = maxH
        /\ sameLayout (diagram app) (diagram app')
        /\ soundingData (diagram app') = Some sd
        /\ currentSoundingData app' = Some sd
        /\ drawing
           = snd (draw fuel (setHeightRange (diagram app) minH maxH) (Some sd))
  | ZoomRejected _ =>
      currentSoundingData app = None \/ (minH <? maxH)%js = false
  end.
Proof.
  unfold applyZoom. rewrite (lt_iff_checked minH maxH).
  destruct (currentSoundingData app) as [sd|]; [|left; reflexivity].
  destruct (JS.isNaN minH || JS.isNaN maxH); [right; reflexivity|].
  destruct (minH >=? maxH)%js; [right; reflexivity|].
  exists sd. cbn. unfold sameLayout. repeat split.
Qed.

(** ** The data lines of a sounding page *)

Lemma dropWhile_nil (p : CodeUnit -> bool) (s : JsString) :
  dropWhile p s = [] -> forallb p s = true.
Proof.
  induction s as [|c rest IH]; [reflexivity|]. cbn [dropWhile forallb].
  destruct (p c); [exact IH | discriminate].
Qed.

Lemma dropWhile_In (p : CodeUnit -> bool) (s : JsString) (c : CodeUnit) :
  In c (dropWhile p s) -> In c s.
Proof.
  induction s as [|c' rest IH]; [intros []|]. cbn [dropWhile].
  destruct (p c'); [intros H; right; exact (IH H) | intros H; exact H].
Qed.

Lemma dropWhile_head (p : CodeUnit -> bool) (s rest : JsString)
    (c : CodeUnit) :
  dropWhile p s = c :: rest -> p c = false.
Proof.
  induction s as [|c' s' IH]; [discriminate|]. cbn [dropWhile].
  destruct (p c') eqn:E; [exact IH | intros [= <- _]; exact E].
Qed.

Lemma isBlank_spaces (line : JsString) :
  isBlank line = true -> forallb isSpace line = true.
Proof.
  unfold isBlank, trim. intros H.
  destruct (rev (dropWhile isSpace (rev (dropWhile isSpace line))))
    as [|c r] eqn:E; [|discriminate].
  apply (f_equal (@rev CodeUnit)) in E. rewrite rev_involutive in E.
  cbn [rev] in E.
  apply dropWhile_nil in E. rewrite forallb_forall in E.
  destruct (dropWhile isSpace line) as [|c rest] eqn:Ed;
    [exact (dropWhile_nil _ _ Ed)|].
  pose proof (dropWhile_head _ _ _ _ Ed) as Hc.
  rewrite (E c) in Hc; [discriminate|].
  apply in_rev. rewrite rev_involutive. left; reflexivity.
Qed.

Lemma rule_or_blank (line : JsString) :
  isRule line || isBlank line = true -> forallb dashOrSpace line = true.
Proof.
  intros H. apply orb_true_iff in H as [H|H].
  - destruct line; [discriminate | exact H].
  - apply isBlank_spaces in H. rewrite forallb_forall in *.
    intros c Hc. unfold dashOrSpace. rewrite (H c Hc). apply orb_true_r.
Qed.

Lemma dashOrSpace_not_numeric (line : JsString) :
  forallb dashOrSpace line = true -> startsNumeric line = false.
Proof.
  intros H. unfold startsNumeric.
  destruct (dropWhile isSpace line) as [|c rest] eqn:E; [reflexivity|].
  pose proof (dropWhile_head _ _ _ _ E) as Hc.
  rewrite forallb_forall in H.
  assert (Hin : In c line)
    by (apply (dropWhile_In isSpace); rewrite E; left; reflexivity).
  specialize (H c Hin). unfold dashOrSpace in H. rewrite Hc, orb_false_r in H.
  apply N.eqb_eq in H. subst c. reflexivity.
Qed.

Lemma stationInfoAt_head (s : JsString) :
  stationInfoAt s = true -> exists c rest, s = c :: rest /\ upper c = 83%N.
Proof.
  unfold stationInfoAt.
  change (lit "Station") with ([83; 116; 97; 116; 105; 111; 110]%N).
  destruct s as [|c rest]; [discriminate|]. cbn [startsWith].
  destruct (upper 83 =? upper c)%N eqn:E; [|discriminate].
  intros _. exists c, rest. split; [reflexivity|].
  apply N.eqb_eq in E. rewrite <- E. reflexivity.
Qed.

Lemma upper_83 (c : CodeUnit) : upper c = 83%N -> dashOrSpace c = false.
Proof.
  unfold upper. intros H.
  assert (Hc : c = 83%N \/ c = 115%N).
  { destruct ((97 <=? c) && (c <=? 122))%N eqn:E; [right; lia | left; exact H]. }
  destruct Hc as [-> | ->]; reflexivity.
Qed.

Lemma dashOrSpace_no_station (line : JsString) :
  forallb dashOrSpace line = true -> mentionsStationInfo line = false.
Proof.
  induction line as [|c rest IH]; intros H.
  - reflexivity.
  - cbn [mentionsStationInfo]. cbn [forallb] in H.
    apply andb_true_iff in H as [Hc Hrest].
    rewrite (IH Hrest), orb_false_r.
    destruct (stationInfoAt (c :: rest)) eqn:E; [|reflexivity].
    destruct (stationInfoAt_head _ E) as [c' [rest' [[= <- <-] Hup]]].
    rewrite (upper_83 c Hup) in Hc. discriminate.
Qed.

Lemma scanLines_header (lines : list JsString) :
  scanLines lines false [] = scanLines (afterHeader lines) true [].
Proof.
  induction lines as [|line rest IH]; [reflexivity|].
  cbn [scanLines afterHeader]. destruct (isHeader line); [reflexivity|].
  exact IH.
Qed.

Lemma scanLines_data (lines : list JsString) :
  forall dataLines,
    (List.length dataLines <= 1000)%nat ->
    scanLines lines true dataLines
    = dataLines
      ++ firstn (1000 - List.length dataLines)
           (filter dataLine (upToStation lines)).
Proof.
  induction lines as [|line rest IH]; intros acc Hlen.
  - cbn. rewrite firstn_nil, app_nil_r. reflexivity.
  - cbn [scanLines upToStation].
    destruct (isHeader line) eqn:Hh.
    + cbn [negb andb filter]. unfold dataLine at 1. rewrite Hh, andb_false_r.
      apply IH, Hlen.
    + cbn [negb andb].
      destruct ((isRule line || isBlank line)
                && (0 <? List.length acc)%nat) eqn:Hskip.
      * apply andb_true_iff in Hskip as [Hrb _].
        pose proof (rule_or_blank line Hrb) as Hchars.
        rewrite (dashOrSpace_no_station line Hchars). cbn [filter].
        unfold dataLine at 1.
        rewrite (dashOrSpace_not_numeric line Hchars). cbn [andb].
        apply IH, Hlen.
      * destruct (mentionsStationInfo line) eqn:Hst.
        -- cbn [filter]. unfold dataLine. rewrite Hh. cbn [negb].
           rewrite andb_true_r.
           destruct (startsNumeric line); cbn [andb];
             [|rewrite firstn_nil, app_nil_r; reflexivity].
           destruct (List.length acc <? 1000)%nat eqn:Hroom.
           ++ apply Nat.ltb_lt in Hroom.
              destruct (1000 - List.length acc)%nat as [|k] eqn:Hk; [lia|].
              cbn [firstn]. rewrite firstn_nil. reflexivity.
           ++ apply Nat.ltb_ge in Hroom.
              replace (1000 - List.length acc)%nat with 0%nat by lia.
              cbn [firstn]. rewrite app_nil_r. reflexivity.
        -- cbn [filter]. unfold dataLine at 1. rewrite Hh. cbn [negb].
           rewrite andb_true_r.
           destruct (startsNumeric line); cbn [andb]; [|apply IH, Hlen].
           destruct (List.length acc <? 1000)%nat eqn:Hroom.
           ++ apply Nat.ltb_lt in Hroom.
              rewrite IH by (rewrite length_app; cbn; lia).
              rewrite length_app. cbn [List.length].
              destruct (1000 - List.length acc)%nat as [|k] eqn:Hk; [lia|].
              cbn [firstn].
              replace (1000 - (List.length acc + 1))%nat with k by lia.
              rewrite <- app_assoc. reflexivity.
           ++ apply Nat.ltb_ge in Hroom.
              rewrite IH by exact Hlen.
              replace (1000 - List.length acc)%nat with 0%nat by lia.
              reflexivity.
Qed.

Lemma afterHeader_In (lines : list JsString) (line : JsString) :
  In line (afterHeader lines) -> In line lines.
Proof.
  induction lines as [|l rest IH]; [intros []|]. cbn [afterHeader].
  destruct (isHeader l); intros H; right; [exact H | exact (IH H)].
Qed.

Lemma upToStation_In (lines : list JsString) (line : JsString) :
  In line (upToStation lines) -> In line lines.
Proof.
  induction lines as [|l rest IH]; [intros []|]. cbn [upToStation].
  destruct (negb (isHeader l) && mentionsStationInfo l).
  - intros [<-|[]]. left; reflexivity.
  - intros [<-|H]; [left; reflexivity | right; exact (IH H)].
Qed.

Lemma firstn_In {A : Type} (n : nat) (l : list A) (x : A) :
  In x (firstn n l) -> In x l.
Proof.
  intros H. rewrite <- (firstn_skipn n l). apply in_or_app. left. exact H.
Qed.

Lemma afterHeader_none (lines : list JsString) :
  (forall line, In line lines -> isHeader line = false) ->
  afterHeader lines = [].
Proof.
  induction lines as [|l rest IH]; intros H; [reflexivity|].
  cbn [afterHeader]. rewrite (H l (or_introl eq_refl)).
  apply IH. intros line Hl. apply H. right; exact Hl.
Qed.

Lemma extractDataRows_firstn (text : JsString) :
  extractDataRows text
  = firstn 1000
      (filter dataLine (upToStation (afterHeader (split_lines text)))).
Proof.
  unfold extractDataRows.
  rewrite scanLines_header, scanLines_data by (cbn; lia). reflexivity.
Qed.

(** X20.  [extractDataRows] returns, in the order of the text, the first 1000 of
    the lines that start with digits, are no header lines, come after the
    first header line and not after the first line that mentions the
    station information.  The test for rules and blank lines changes
    nothing.  So there are at most 1000 data lines, each is a line of the
    text that starts with digits, and a text without a header line has
    none. *)
Theorem extractDataRows_pipeline (text : JsString) :
  extractDataRows text
  = firstn 1000
      (filter dataLine (upToStation (afterHeader (split_lines text))))
  /\ (List.length (extractDataRows text) <= 1000)%nat
  /\ (forall row, In row (extractDataRows text) ->
        In row (split_lines text)
        /\ startsNumeric row = true /\ isHeader row = false)
  /\ ((forall line, In line (split_lines text) -> isHeader line = false) ->
      extractDataRows text = []).
Proof.
  pose proof (extractDataRows_firstn text) as Heq.
  split; [exact Heq|]. rewrite Heq. split; [|split].
  - rewrite length_firstn. lia.
  - intros row Hrow. apply firstn_In, filter_In in Hrow as [Hin Hdata].
    apply upToStation_In, afterHeader_In in Hin.
    unfold dataLine in Hdata. apply andb_true_iff in Hdata as [Hn Hh].
    apply negb_true_iff in Hh. repeat split; assumption.
  - intros Hnone. rewrite (afterHeader_none _ Hnone). reflexivity.
Qed.

(** ** From the page to the diagram *)

Lemma parseRows_spec (parseFloat : JsString -> num) (rows : list JsString) :
  (List.length (parseRows parseFloat rows) <= List.length rows)%nat
  /\ forall l, In l (parseRows parseFloat rows) ->
       exists row, In row rows /\ parseRow parseFloat row = Some l.
Proof.
  induction rows as [|row rest [IHlen IHin]]; [split; [cbn; lia | intros l []]|].
  cbn [parseRows]. destruct (parseRow parseFloat row) as [level|] eqn:E.
  - split; [cbn [List.length]; lia|].
    intros l [<-|Hl].
    + exists row. split; [left; reflexivity | exact E].
    + destruct (IHin l Hl) as [row' [Hrow' Hp]].
      exists row'. split; [right; exact Hrow' | exact Hp].
  - split; [cbn [List.length]; lia|].
    intros l Hl. destruct (IHin l Hl) as [row' [Hrow' Hp]].
    exists row'. split; [right; exact Hrow' | exact Hp].
Qed.

(** X21.  [parse] on a string.  Its [data] is an array of at most 1000 levels,
    [valid] tells whether there is any, and each level comes from a data
    line that splits into at least eleven pieces at white space: a line with
    fewer pieces gives no level.  A result that is [valid] never makes
    [draw] throw, in any view. *)
Theorem parse_valid (parseFloat : JsString -> num)
    (extractMetadata : JsString -> Metadata) (rawText : JsString) :
  exists levels,
    data (sounding (parse parseFloat extractMetadata rawText)) = Some levels
    /\ (valid (parse parseFloat extractMetadata rawText) = true
        <-> levels <> [])
    /\ (List.length levels <= 1000)%nat
    /\ (forall l, In l levels ->
          exists row,
            In row (extractDataRows rawText)
            /\ (11 <= List.length (split_spaces (trim row) false))%nat
            /\ l = levelOf parseFloat (split_spaces (trim row) false))
    /\ (valid (parse parseFloat extractMetadata rawText) = true ->
        forall fuel d,
          neverThrows
            (snd (draw fuel d
                    (Some (sounding
                             (parse parseFloat extractMetadata rawText)))))).
Proof.
  exists (parseRows parseFloat (extractDataRows rawText)).
  destruct (parseRows_spec parseFloat (extractDataRows rawText))
    as [Hlen Hin].
  assert (Hvalid : valid (parse parseFloat extractMetadata rawText) = true
                   <-> parseRows parseFloat (extractDataRows rawText) <> []).
  { cbn [parse valid].
    destruct (parseRows parseFloat (extractDataRows rawText)); cbn.
    - split; [discriminate | intros H; contradiction].
    - split; [discriminate | reflexivity]. }
  split; [reflexivity|]. split; [exact Hvalid|]. split; [|split].
  - assert (H1000 : (List.length (extractDataRows rawText) <= 1000)%nat)
      by (rewrite extractDataRows_firstn, length_firstn; lia).
    lia.
  - intros l Hl. destruct (Hin l Hl) as [row [Hrow Hp]].
    exists row. split; [exact Hrow|].
    unfold parseRow in Hp. cbv zeta in Hp.
    destruct (List.length (split_spaces (trim row) false) <? 11)%nat eqn:E;
      [discriminate|].
    apply Nat.ltb_ge in E. split; [exact E|].
    injection Hp as <-. reflexivity.
  - intros Hv fuel d. apply Hvalid in Hv.
    assert (Hread : profileReadable
                      (storeSounding d
                         (Some (sounding
                                  (parse parseFloat extractMetadata rawText))))).
    { unfold profileReadable. cbn [soundingData storeSounding parse sounding data].
      intros [= H]. exact (Hv H). }
    unfold draw, snd.
    apply neverThrows_bind; [apply neverThrows_drawFrame; exact Hread|].
    intros _. apply neverThrows_bind; [apply neverThrows_drawProfile|].
    intros _. apply succeeds_neverThrows, succeeds_drawTitle.
Qed.

(** ** The parser's wind selection *)

Lemma keepWind_fold (interval : num) (rows : list Level) :
  forall (windData : list WindDatum) (lastPressure : num),
    exists kept,
      fst (fold_left (keepWind interval) rows (windData, lastPressure))
      = windData ++ kept
      /\ steppedFrom interval lastPressure kept
      /\ (forall w, In w kept ->
            exists row, In row rows /\ hasWind row = true
                        /\ w = windDatumOf row)
      /\ (forall row, In row rows -> hasWind row = true ->
            (pressure row >=? 1000)%js = true -> In (windDatumOf row) kept).
Proof.
  induction rows as [|row rest IH]; intros acc last.
  - exists []. cbn. rewrite app_nil_r.
    repeat split; [intros w [] | intros row []].
  - cbn [fold_left]. unfold keepWind at 2. fold (hasWind row).
    destruct (hasWind row) eqn:Hw.
    + destruct ((last - pressure row >=? interval)%js
                || (pressure row >=? 1000)%js) eqn:Hk.
      * destruct (IH (acc ++ [windDatumOf row]) (pressure row))
          as [kept [Hfold [Hstep [Hfrom Hall]]]].
        exists (windDatumOf row :: kept).
        unfold windDatumOf in Hfold at 1. rewrite Hfold, <- app_assoc.
        split; [reflexivity|]. split; [split; [exact Hk | exact Hstep]|].
        split.
        -- intros w [<-|Hin].
           ++ exists row. repeat split; [left; reflexivity | exact Hw].
           ++ destruct (Hfrom w Hin) as [r [Hr [Hrw Heq]]].
              exists r. repeat split; [right; exact Hr | exact Hrw | exact Heq].
        -- intros r [<-|Hr] Hrw Hp; [left; reflexivity|].
           right. exact (Hall r Hr Hrw Hp).
      * destruct (IH acc last) as [kept [Hfold [Hstep [Hfrom Hall]]]].
        exists kept. split; [exact Hfold|]. split; [exact Hstep|]. split.
        -- intros w Hin. destruct (Hfrom w Hin) as [r [Hr [Hrw Heq]]].
           exists r. repeat split; [right; exact Hr | exact Hrw | exact Heq].
        -- intros r [<-|Hr] Hrw Hp; [|exact (Hall r Hr Hrw Hp)].
           rewrite Hp, orb_true_r in Hk. discriminate.
    + destruct (IH acc last) as [kept [Hfold [Hstep [Hfrom Hall]]]].
      exists kept. split; [exact Hfold|]. split; [exact Hstep|]. split.
      * intros w Hin. destruct (Hfrom w Hin) as [r [Hr [Hrw Heq]]].
        exists r. repeat split; [right; exact Hr | exact Hrw | exact Heq].
      * intros r [<-|Hr] Hrw Hp; [congruence | exact (Hall r Hr Hrw Hp)].
Qed.

(** X22.  [getWindData] returns nothing without data.  Otherwise every entry is
    made of a row whose wind direction and speed are not [NaN]; an entry
    lies at least [interval] below the entry before it in pressure, the
    first below 10000, unless its own pressure is at least 1000; and every
    row with wind at 1000 hPa or more is kept. *)
Theorem getWindData_decimation (interval : num) :
  getWindData None interval = []
  /\ forall rows,
       steppedFrom interval (Fin 10000) (getWindData (Some rows) interval)
       /\ (forall w, In w (getWindData (Some rows) interval) ->
             exists row, In row rows /\ hasWind row = true
                         /\ w = windDatumOf row)
       /\ (forall row, In row rows -> hasWind row = true ->
             (pressure row >=? 1000)%js = true ->
             In (windDatumOf row) (getWindData (Some rows) interval)).
Proof.
  split; [reflexivity|]. intros rows. unfold getWindData.
  destruct (keepWind_fold interval rows [] (Fin 10000))
    as [kept [Hfold [Hstep [Hfrom Hall]]]].
  rewrite Hfold. cbn [app]. repeat split; assumption.
Qed.

(** ** The mixing ratio lines *)

Lemma Forall_vertices_for_loop {S : Type} (P : num * num -> Prop)
    (cond : num -> bool) (next : num -> num) (body : num -> S -> M S) :
  (forall i s, Forall P (vertices (trace (body i s)))) ->
  forall fuel i s,
    Forall P (vertices (trace (for_loop fuel cond next body i s))).
Proof.
  intros Hbody. induction fuel as [|fuel IH]; intros i s.
  - constructor.
  - rewrite for_loop_S. destruct (cond i); [|constructor].
    apply Forall_vertices_bind; [apply Hbody | intros s'; apply IH].
Qed.

(** X23.  Whatever the view, the profile and the fuel, every point
    [drawMixingRatioLines] hands to the canvas has an abscissa that is
    neither left of the plot nor right of it. *)
Theorem mixingRatioLines_inside_plot (fuel : nat) (d : SkewTDiagram) :
  Forall
    (fun v =>
       (fst v <? left (margin d))%js = false
       /\ (fst v >? left (margin d) + width d)%js = false)
    (vertices (trace (drawMixingRatioLines fuel d))).
Proof.
  set (P := fun v : num * num =>
       (fst v <? left (margin d))%js = false
       /\ (fst v >? left (margin d) + width d)%js = false).
  assert (Hpoint : forall w p firstPoint,
             Forall P (vertices (trace (mixingRatioPoint d w p firstPoint)))).
  { intros w p firstPoint. unfold mixingRatioPoint. cbv zeta.
    match goal with
    | |- context [if ?b then ret firstPoint else _] =>
        destruct b; [constructor|]
    end.
    apply Forall_vertices_bind; [constructor|]. intros y.
    match goal with
    | |- context [if (?a || ?b) then _ else _] =>
        destruct a eqn:E1; [constructor|]; destruct b eqn:E2; [constructor|]
    end.
    cbn [orb]. unfold plotPoint.
    destruct firstPoint;
      rewrite trace_bind; cbn [outcome trace emit ret fst snd app vertices];
      constructor; try constructor; assumption. }
  unfold drawMixingRatioLines.
  repeat (apply Forall_vertices_bind; [constructor | intros _]).
  apply Forall_vertices_forEach. intros w []. unfold mixingRatioLine.
  apply Forall_vertices_bind; [constructor | intros _].
  apply Forall_vertices_bind; [|intros _; constructor].
  apply Forall_vertices_for_loop. intros p s. apply Hpoint.
Qed.
